(** * ptlflow: the model benchmark harness and the ScopeFlow occlusion helper

    A shallow embedding of [model_benchmark.py] (the sweep over input sizes,
    models and datatypes, the trial with its repetitions, the reductions of
    the collected samples, the result table and the plot) and of
    [ScopeFlow._refine_occ] from [ptlflow/models/scopeflow/irr_pwc_v2.py].

    Conventions.
    - Python [int] is [Z], [len] and list indices are [nat], Python [float]
      is [Q]: arithmetic on measurements is exact, so statements about
      values hold up to the rounding of IEEE doubles.
    - Everything the harness does not implement itself (the model registry,
      torch, the timer, pynvml, the profiler) is one deterministic oracle
      that answers a call from the history of the calls made so far.
    - Statements of the program are state transformers over [World] that
      return a value or raise a Python exception.
    - Left out: the argument parser and the [__main__] block, the creation
      of the output directory, [logger.info], [tqdm] and the styling of the
      figure. *)

From Stdlib Require Import List ZArith QArith Qround Qabs String Ascii Bool Arith Lia.
From Stdlib Require Import Permutation Sorted Lqa.
Import ListNotations.

Local Open Scope string_scope.
Local Open Scope list_scope.
Local Open Scope Z_scope.

(** ** Python exceptions and results *)

(** The exceptions the harness and the calls it makes raise. All of them
    derive from [Exception]; the ones that do not ([KeyboardInterrupt],
    [SystemExit]), which no handler of the harness catches, are left
    out. *)

Inductive exn : Type :=
| AssertionError
| IndexError
| KeyError (key : string)
| NameError (name : string)
| AttributeError
| TypeError
| ValueError
| ZeroDivisionError
| BackendError (msg : string).

Inductive result (A : Type) : Type :=
| Ok (a : A)
| Raise (e : exn).
Arguments Ok {A} a.
Arguments Raise {A} e.

(** ** Python lists *)

Module PyList.

(** [xs[i]] for an index that is not negative. *)
Definition getitem {A : Type} (xs : list A) (i : nat) : result A :=
  match nth_error xs i with
  | Some x => Ok x
  | None => Raise IndexError
  end.

(** [xs[lo:hi]] for bounds that are not negative. *)
Definition slice {A : Type} (xs : list A) (lo hi : nat) : list A :=
  firstn (hi - lo) (skipn lo xs).

(** [list(range(start, stop, 2))], by recursion on the number of steps left. *)
Fixpoint range_step2 (fuel start stop : nat) : list nat :=
  match fuel with
  | O => []
  | S fuel' =>
      if (start <? stop)%nat then start :: range_step2 fuel' (start + 2) stop
      else []
  end.

(** [x in xs] on strings. *)
Definition contains (x : string) (xs : list string) : bool :=
  existsb (String.eqb x) xs.

(** [list(enumerate(xs))]. *)
Fixpoint enumerate_from {A : Type} (i : nat) (xs : list A) : list (nat * A) :=
  match xs with
  | [] => []
  | x :: xs' => (i, x) :: enumerate_from (S i) xs'
  end.

Definition enumerate {A : Type} (xs : list A) : list (nat * A) :=
  enumerate_from 0 xs.

(** [xs.sort()]: a stable sort, given the comparison [x <= y]. *)
Section Sort.
Context {A : Type} (leb : A -> A -> bool).

Fixpoint insert (x : A) (xs : list A) : list A :=
  match xs with
  | [] => [x]
  | y :: ys => if leb x y then x :: y :: ys else y :: insert x ys
  end.

Definition sort (xs : list A) : list A := fold_right insert [] xs.
End Sort.

End PyList.

(** ** Python dictionaries that keep insertion order *)

Module PyDict.

Definition t (V : Type) : Type := list (string * V).

Fixpoint get {V : Type} (d : t V) (k : string) : option V :=
  match d with
  | [] => None
  | (k', v) :: d' => if String.eqb k k' then Some v else get d' k
  end.

(** [d[k]]. *)
Definition getitem {V : Type} (d : t V) (k : string) : result V :=
  match get d k with
  | Some v => Ok v
  | None => Raise (KeyError k)
  end.

(** [d[k] = v]: an existing key keeps its place. *)
Fixpoint set {V : Type} (d : t V) (k : string) (v : V) : t V :=
  match d with
  | [] => [(k, v)]
  | (k', v') :: d' =>
      if String.eqb k k' then (k', v) :: d' else (k', v') :: set d' k v
  end.

(** [d.update(kvs)]. *)
Definition update {V : Type} (d : t V) (kvs : list (string * V)) : t V :=
  fold_left (fun acc kv => set acc (fst kv) (snd kv)) kvs d.

Definition keys {V : Type} (d : t V) : list string := map fst d.

End PyDict.

(** ** The reductions of a sample sequence (lines 316-335 of the harness) *)

Module Reduce.

(** [np.array(xs).mean()]; the mean of no sample is [nan] in numpy and
    [0] here, a value the harness never reads (the next entry of the
    dictionary raises [IndexError] on an empty list). *)
Definition mean (xs : list Q) : Q :=
  (fold_left Qplus xs 0 / inject_Z (Z.of_nat (List.length xs)))%Q.

(** [xs[len(xs) // k]]. *)
Definition at_fraction {A : Type} (xs : list A) (k : nat) : result A :=
  PyList.getitem xs (List.length xs / k)%nat.

Definition Qsort : list Q -> list Q := PyList.sort Qle_bool.
Definition Zsort : list Z -> list Z := PyList.sort Z.leb.

(** The dictionary [final_times], built from the sorted [all_times]. *)
Definition final_times (all_times : list Q) : result (PyDict.t Q) :=
  let avg := mean all_times in
  match at_fraction all_times 2 with
  | Raise e => Raise e
  | Ok median =>
  match at_fraction all_times 100 with
  | Raise e => Raise e
  | Ok perc1 =>
  match at_fraction all_times 20 with
  | Raise e => Raise e
  | Ok perc5 =>
  match at_fraction all_times 10 with
  | Raise e => Raise e
  | Ok perc10 =>
      Ok [("avg", avg); ("median", median); ("perc1", perc1);
          ("perc5", perc5); ("perc10", perc10)]
  end end end end.

(** The dictionary [final_memories], built from the sorted [all_memories];
    the integers of the list become numbers of the table. *)
Definition final_memories (all_memories : list Z) (first_memory_used : Z)
  : result (PyDict.t Q) :=
  let avg := mean (map inject_Z all_memories) in
  match at_fraction all_memories 2 with
  | Raise e => Raise e
  | Ok median =>
  match at_fraction all_memories 100 with
  | Raise e => Raise e
  | Ok perc1 =>
  match at_fraction all_memories 20 with
  | Raise e => Raise e
  | Ok perc5 =>
  match at_fraction all_memories 10 with
  | Raise e => Raise e
  | Ok perc10 =>
      Ok [("avg", avg); ("median", inject_Z median); ("perc1", inject_Z perc1);
          ("perc5", inject_Z perc5); ("perc10", inject_Z perc10);
          ("first", inject_Z first_memory_used)]
  end end end end.

End Reduce.

(** ** The result table: a pandas DataFrame *)

Module Frame.

(** A cell holds a string, a number, or nothing ([NaN]); [Log10] stands
    for [np.log10] of a cell, which has no exact rational value. *)
Inductive Cell : Type :=
| NaN
| Str (s : string)
| Num (q : Q)
| Log10 (c : Cell).

(** Every row has one cell per column, in the order of [columns]. *)
Record DataFrame : Type := {
  columns : list string;
  rows : list (list Cell)
}.

Definition isna (c : Cell) : bool :=
  match c with
  | NaN => true
  | _ => false
  end.

Fixpoint index_of (c : string) (cols : list string) : option nat :=
  match cols with
  | [] => None
  | c' :: cols' =>
      if String.eqb c c' then Some O
      else option_map S (index_of c cols')
  end.

Definition has_column (df : DataFrame) (c : string) : bool :=
  PyList.contains c (columns df).

(** The cell of [row] under column [c]. *)
Definition cell (cols : list string) (row : list Cell) (c : string) : Cell :=
  match index_of c cols with
  | Some i => nth i row NaN
  | None => NaN
  end.

(** [pd.DataFrame(d)] for a dictionary [d] of one-element lists. *)
Definition of_dict (d : PyDict.t Cell) : DataFrame :=
  {| columns := PyDict.keys d; rows := [map snd d] |}.

Definition reindex (from to : list string) (row : list Cell) : list Cell :=
  map (cell from row) to.

(** [pd.concat([a, b], ignore_index=True)]: the columns of [a], then the
    columns only [b] has; a cell no frame provides is [NaN]. *)
Definition concat (a b : DataFrame) : DataFrame :=
  let cols :=
    columns a
    ++ filter (fun c => negb (PyList.contains c (columns a))) (columns b) in
  {| columns := cols;
     rows := map (reindex (columns a) cols) (rows a)
             ++ map (reindex (columns b) cols) (rows b) |}.

(** Round to the nearest integer, half to even, as [np.round] does. *)
Definition rint (q : Q) : Z :=
  let f := Qfloor q in
  match ((q - inject_Z f) ?= (1 # 2))%Q with
  | Lt => f
  | Gt => f + 1
  | Eq => if Z.even f then f else f + 1
  end.

Definition round_cell (c : Cell) : Cell :=
  match c with
  | Num q => Num (Qred (inject_Z (rint (q * 1000)) / 1000))%Q
  | _ => c
  end.

(** [df.round(3)]. *)
Definition round3 (df : DataFrame) : DataFrame :=
  {| columns := columns df; rows := map (map round_cell) (rows df) |}.

(** [df.dropna()]: a row with a missing value in any column goes. *)
Definition dropna (df : DataFrame) : DataFrame :=
  {| columns := columns df;
     rows := filter (fun row => negb (existsb isna row)) (rows df) |}.

(** A frame cut from a table keeps the labels of its rows: the positions
    the rows had in the table. *)
Record Indexed : Type := {
  icolumns : list string;
  irows : list (nat * list Cell)
}.

(** [df.copy()], under the labels [0 .. len(df) - 1] of the table. *)
Definition copy (df : DataFrame) : Indexed :=
  {| icolumns := columns df;
     irows := combine (seq 0 (List.length (rows df))) (rows df) |}.

(** [df_tmp.dropna()]: the rows that stay keep their labels. *)
Definition dropna_rows (t : Indexed) : Indexed :=
  {| icolumns := icolumns t;
     irows := filter (fun lr => negb (existsb isna (snd lr))) (irows t) |}.

(** The columns and the rows of a frame, without the labels. *)
Definition values (t : Indexed) : DataFrame :=
  {| columns := icolumns t; rows := map snd (irows t) |}.

Definition is_str (c : Cell) : bool :=
  match c with
  | Str _ => true
  | _ => false
  end.

(** [np.log10] of a number of the table; of a missing value it is a
    missing value. *)
Definition log10_cell (c : Cell) : Cell :=
  match c with
  | NaN => NaN
  | _ => Log10 c
  end.

(** What [df_tmp[c] = series] does first to a frame without rows, when
    the series is not empty: the frame takes the labels
    [0 .. len(series) - 1] of the series, its columns filled with missing
    values. *)
Definition take_labels (t : Indexed) (series : list Cell) : Indexed :=
  if (List.length (irows t) =? 0)%nat && (0 <? List.length series)%nat then
    {| icolumns := icolumns t;
       irows := map (fun label =>
                       (label, repeat NaN (List.length (icolumns t))))
                    (seq 0 (List.length series)) |}
  else t.

(** Every row gets the value of the series under its label; an existing
    column is overwritten. *)
Definition set_values (t : Indexed) (c : string) (series : list Cell)
  : Indexed :=
  match index_of c (icolumns t) with
  | Some i =>
      {| icolumns := icolumns t;
         irows := map (fun lr =>
                         (fst lr,
                          firstn i (snd lr) ++ nth (fst lr) series NaN
                            :: skipn (S i) (snd lr)))
                      (irows t) |}
  | None =>
      {| icolumns := icolumns t ++ [c];
         irows := map (fun lr => (fst lr, snd lr ++ [nth (fst lr) series NaN]))
                      (irows t) |}
  end.

(** [df_tmp[c] = series] for a series with the labels
    [0 .. len(series) - 1]. *)
Definition assign (t : Indexed) (c : string) (series : list Cell) : Indexed :=
  set_values (take_labels t series) c series.

(** The figure [px.scatter] builds. *)
Record Figure : Type := {
  fig_data : DataFrame;
  fig_x : string;
  fig_y : string;
  fig_color : string;
  fig_symbol : string;
  fig_log_x : bool;
  fig_log_y : bool;
  fig_title : string
}.

End Frame.
Import Frame.

(** ** The constants of the module *)

Definition NUM_COMMON_COLUMNS : nat := 6.

Definition TABLE_KEYS_LEGENDS : PyDict.t string :=
  [("model", "Model"); ("params", "Params"); ("flops", "FLOPs");
   ("input_h", "InputH"); ("input_w", "InputW"); ("input_px", "InputPx");
   ("time", "Time(ms)"); ("memory", "Memory(GB)")].

Definition TABLE_KEYS : list string := PyDict.keys TABLE_KEYS_LEGENDS.

Definition TABLE_LEGENDS : list string :=
  map (fun x => match PyDict.get TABLE_KEYS_LEGENDS x with
                | Some l => l
                | None => ""
                end) TABLE_KEYS.

(** ** Models, tensors and the calls into the libraries *)

Inductive Device : Type := Cpu | Cuda.
Inductive Dtype : Type := Float32 | Float16.

(** What the harness knows of a model object: the registry name it was
    built from and what [eval], [cuda], [half] and [cpu] did to it. *)
Record Model : Type := {
  model_name : string;
  model_training : bool;
  model_device : Device;
  model_dtype : Dtype
}.

(** A tensor of [torch.rand]: its shape, device and element type. *)
Record Tensor : Type := {
  tensor_shape : list Z;
  tensor_device : Device;
  tensor_dtype : Dtype
}.

Inductive Call : Type :=
| EmptyCache                                  (* torch.cuda.empty_cache() *)
| Sleep (seconds : Q)                         (* time.sleep(s) *)
| NvmlMemoryInfoUsed (handle : nat)           (* nvmlDeviceGetMemoryInfo(h).used *)
| GetModel (name : string) (with_args : bool) (* ptlflow.get_model(name, args=...) *)
| ModelEval (m : Model)
| ModelCuda (m : Model)
| ModelHalf (m : Model)
| ModelCpu (m : Model)
| CountParameters (m : Model)
| Rand (shape : list Z)                       (* torch.rand of the shape *)
| TensorCuda (t : Tensor)
| TensorHalf (t : Tensor)
| TimerResetTic                               (* timer.reset(); timer.tic() *)
| Forward (m : Model) (images : Tensor)       (* model(inputs) *)
| TimerTocTotal                               (* timer.toc(); timer.total() *)
| ProfiledForward (m : Model) (images : Tensor).
                                              (* model(inputs) under profile(...),
                                                 then the flops of key_averages() *)

Inductive Reply : Type :=
| Raises (e : exn)
| Returns
| ReturnsInt (z : Z)
| ReturnsFloat (q : Q)
| ReturnsInts (zs : list Z).

(** The machine and the libraries the harness runs on. *)
Record Env : Type := {
  cuda_is_available : bool;           (* torch.cuda.is_available() *)
  pynvml_imported : bool;             (* pynvml is not None *)
  get_model_names : list string;      (* ptlflow.get_model_names() *)
  models_dict_keys : list string;     (* ptlflow._models_dict.keys() *)
  answer : list (Call * Reply) -> Call -> Reply
}.

(** The state a run changes: the calls made with their replies, oldest
    first, the warnings logged, the tables and the plots written. *)
Record World : Type := {
  history : list (Call * Reply);
  warnings : list (string * string * exn);
  files : list (string * DataFrame);
  plots : list (string * Figure)
}.

Definition initial_world : World :=
  {| history := []; warnings := []; files := []; plots := [] |}.

(** ** The monad of statements *)

Definition M (A : Type) : Type := World -> World * result A.

Definition ret {A : Type} (a : A) : M A := fun w => (w, Ok a).

Definition raise {A : Type} (e : exn) : M A := fun w => (w, Raise e).

Definition bind {A B : Type} (c : M A) (k : A -> M B) : M B :=
  fun w =>
    match c w with
    | (w', Ok a) => k a w'
    | (w', Raise e) => (w', Raise e)
    end.

Declare Scope py_scope.
Delimit Scope py_scope with py.
Notation "x <- c ;; k" := (bind c (fun x => k))
  (at level 100, c at next level, right associativity) : py_scope.
Notation "c ;;; k" := (bind c (fun _ => k))
  (at level 100, right associativity) : py_scope.
Local Open Scope py_scope.

Definition lift {A : Type} (r : result A) : M A := fun w => (w, r).

Definition assert (b : bool) : M unit :=
  if b then ret tt else raise AssertionError.

(** [for x in xs: s = body(x, s)], the local variables being [s]. *)
Fixpoint for_each {A S : Type} (xs : list A) (body : A -> S -> M S) (s : S)
  : M S :=
  match xs with
  | [] => ret s
  | x :: xs' => s' <- body x s ;; for_each xs' body s'
  end.

(** [range(n)] for a Python integer [n]. *)
Definition range (n : Z) : list nat := seq 0 (Z.to_nat n).

(** ** The configuration: the parsed arguments the harness reads *)

Record Args : Type := {
  all_ : bool;                        (* --all *)
  select : option (list string);
  exclude : option (list string);
  model_class_path : string;          (* args.model.class_path *)
  num_trials : Z;
  num_samples : Z;
  sleep_interval : Q;
  input_size : list Z;
  output_path : string;
  final_speed_mode : string;
  final_memory_mode : string;
  plot_axes : option (list string);
  plot_log_x : bool;
  plot_log_y : bool;
  datatypes : list string;
  batch_size : Z
}.

(** The local variables of one trial that the repetitions update.
    [device_start_rep_used] and [model_params] are unbound until a
    repetition assigns them. *)
Record Locals : Type := {
  all_times : list Q;
  all_memories : list Z;
  first_memory_used : Z;
  device_start_rep_used : option Z;
  model_params : option Z
}.

(** What the [try] block of one (model, datatype) pair has computed when it
    reaches the update of the row. *)
Record TrialResult : Type := {
  tr_all_times : list Q;              (* all_times, sorted *)
  tr_all_memories : list Z;           (* all_memories, sorted *)
  tr_first_memory_used : Z;
  tr_model_params : option Z;
  tr_flops : Z;
  tr_final_times : PyDict.t Q;
  tr_final_memories : PyDict.t Q
}.

(** [x / d] for a float [x] and an int [d]. *)
Definition true_div (x : Q) (d : Z) : result Q :=
  if d =? 0 then Raise ZeroDivisionError else Ok (x / inject_Z d)%Q.

Definition bound (name : string) (v : option Z) : result Z :=
  match v with
  | Some z => Ok z
  | None => Raise (NameError name)
  end.

Section Harness.

Variable env : Env.

(** One call into a library: the reply is recorded, an exception raised.
    The typed variants below raise [TypeError] on a reply of another type
    than the caller goes on to use. *)
Definition call (c : Call) : M Reply :=
  fun w =>
    let r := answer env (history w) c in
    let w' := {| history := history w ++ [(c, r)];
                 warnings := warnings w;
                 files := files w;
                 plots := plots w |} in
    match r with
    | Raises e => (w', Raise e)
    | _ => (w', Ok r)
    end.

Definition call_ (c : Call) : M unit := _ <- call c ;; ret tt.

Definition call_int (c : Call) : M Z :=
  r <- call c ;;
  match r with
  | ReturnsInt z => ret z
  | _ => raise TypeError
  end.

Definition call_float (c : Call) : M Q :=
  r <- call c ;;
  match r with
  | ReturnsFloat q => ret q
  | ReturnsInt z => ret (inject_Z z)
  | _ => raise TypeError
  end.

Definition call_ints (c : Call) : M (list Z) :=
  r <- call c ;;
  match r with
  | ReturnsInts zs => ret zs
  | _ => raise TypeError
  end.

Definition get_model (mname : string) (with_args : bool) : M Model :=
  call_ (GetModel mname with_args) ;;;
  ret {| model_name := mname; model_training := true;
         model_device := Cpu; model_dtype := Float32 |}.

Definition model_eval (m : Model) : M Model :=
  call_ (ModelEval m) ;;;
  ret {| model_name := model_name m; model_training := false;
         model_device := model_device m; model_dtype := model_dtype m |}.

Definition model_cuda (m : Model) : M Model :=
  call_ (ModelCuda m) ;;;
  ret {| model_name := model_name m; model_training := model_training m;
         model_device := Cuda; model_dtype := model_dtype m |}.

Definition model_half (m : Model) : M Model :=
  call_ (ModelHalf m) ;;;
  ret {| model_name := model_name m; model_training := model_training m;
         model_device := model_device m; model_dtype := Float16 |}.

Definition model_cpu (m : Model) : M Model :=
  call_ (ModelCpu m) ;;;
  ret {| model_name := model_name m; model_training := model_training m;
         model_device := Cpu; model_dtype := model_dtype m |}.

Definition torch_rand (shape : list Z) : M Tensor :=
  call_ (Rand shape) ;;;
  ret {| tensor_shape := shape; tensor_device := Cpu;
         tensor_dtype := Float32 |}.

Definition tensor_cuda (t : Tensor) : M Tensor :=
  call_ (TensorCuda t) ;;;
  ret {| tensor_shape := tensor_shape t; tensor_device := Cuda;
         tensor_dtype := tensor_dtype t |}.

Definition tensor_half (t : Tensor) : M Tensor :=
  call_ (TensorHalf t) ;;;
  ret {| tensor_shape := tensor_shape t; tensor_device := tensor_device t;
         tensor_dtype := Float16 |}.

(** [count_flops(model, inputs)]: one profiled forward, then the sum of
    the [flops] of every entry of [prof.key_averages()]. *)
Definition count_flops (model : Model) (images : Tensor) : M Z :=
  key_averages <- call_ints (ProfiledForward model images) ;;
  ret (fold_left (fun flops k => flops + k) key_averages 0).

(** The body of the loop of [estimate_inference_time]. *)
Definition timed_forward (args : Args) (model : Model) (input_size : list Z)
    (dtype_str : string) (i : nat) (time_vals : list Q) : M (list Q) :=
  h <- lift (PyList.getitem input_size 0) ;;
  w <- lift (PyList.getitem input_size 1) ;;
  images <- torch_rand [batch_size args; 2; 3; h; w] ;;
  images <- (if cuda_is_available env then
               images <- tensor_cuda images ;;
               if String.eqb dtype_str "fp16" then tensor_half images
               else ret images
             else ret images) ;;
  (if (0 <? i)%nat then call_ TimerResetTic else ret tt) ;;;
  call_ (Forward model images) ;;;
  if (0 <? i)%nat then
    total <- call_float TimerTocTotal ;;
    t <- lift (true_div total (batch_size args)) ;;
    ret (time_vals ++ [t])
  else ret time_vals.

Definition estimate_inference_time (args : Args) (model : Model)
    (input_size : list Z) (dtype_str : string) : M (list Q) :=
  for_each (range (num_samples args + 1))
           (timed_forward args model input_size dtype_str) [].

(** The body of [for irep in range(args.num_trials + 1)]. *)
Definition repetition (args : Args) (device_handle : option nat)
    (device_initial_used : option Z) (with_args : bool) (mname : string)
    (input_size : list Z) (dtype_str : string) (irep : nat) (l : Locals)
  : M Locals :=
  call_ EmptyCache ;;;
  call_ (Sleep (sleep_interval args)) ;;;
  start <- (match pynvml_imported env, device_handle with
            | true, Some handle =>
                used <- call_int (NvmlMemoryInfoUsed handle) ;;
                ret (Some used)
            | _, _ => ret (device_start_rep_used l)
            end) ;;
  model <- get_model mname with_args ;;
  model <- model_eval model ;;
  model <- (if cuda_is_available env then
              model <- model_cuda model ;;
              if String.eqb dtype_str "fp16" then model_half model
              else ret model
            else ret model) ;;
  params <- call_int (CountParameters model) ;;
  repetition_times <- estimate_inference_time args model input_size dtype_str ;;
  let times := if (0 <? irep)%nat then all_times l ++ repetition_times
               else all_times l in
  mem <- (match device_handle with
          | Some handle =>
              used <- (if pynvml_imported env
                       then call_int (NvmlMemoryInfoUsed handle)
                       else raise AttributeError) ;;
              start_used <- lift (bound "device_start_rep_used" start) ;;
              let model_memory_used := used - start_used in
              if (0 <? irep)%nat then
                ret (all_memories l
                     ++ repeat model_memory_used (Z.to_nat (num_samples args)),
                     first_memory_used l)
              else
                initial <- lift (bound "device_initial_used"
                                       device_initial_used) ;;
                ret (all_memories l, used - initial)
          | None => ret (all_memories l, first_memory_used l)
          end) ;;
  model_cpu model ;;;
  ret {| all_times := times;
         all_memories := fst mem;
         first_memory_used := snd mem;
         device_start_rep_used := start;
         model_params := Some params |}.

Definition fresh_locals : Locals :=
  {| all_times := []; all_memories := []; first_memory_used := 0;
     device_start_rep_used := None; model_params := None |}.

(** The loop [for irep in range(args.num_trials + 1)] of the [try] block. *)
Definition repetitions (args : Args) (device_handle : option nat)
    (device_initial_used : option Z) (with_args : bool) (mname : string)
    (input_size : list Z) (dtype_str : string) : M Locals :=
  for_each (range (num_trials args + 1))
           (repetition args device_handle device_initial_used with_args
                       mname input_size dtype_str)
           fresh_locals.

(** Lines 294-314 of the [try] block: one more model, an input of batch
    size 1, and the FLOPs of one forward on it. *)
Definition estimate_flops (with_args : bool) (mname : string)
    (input_size : list Z) (dtype_str : string) : M Z :=
  model <- get_model mname with_args ;;
  model <- model_eval model ;;
  h <- lift (PyList.getitem input_size 0) ;;
  w <- lift (PyList.getitem input_size 1) ;;
  images <- torch_rand [1; 2; 3; h; w] ;;
  mi <- (if cuda_is_available env then
           model <- model_cuda model ;;
           images <- tensor_cuda images ;;
           if String.eqb dtype_str "fp16" then
             model <- model_half model ;;
             images <- tensor_half images ;;
             ret (model, images)
           else ret (model, images)
         else ret (model, images)) ;;
  count_flops (fst mi) (snd mi).

(** The [try] block up to [final_memories]: the repetitions, the FLOPs,
    the sorted samples and their reductions. *)
Definition trial (args : Args) (device_handle : option nat)
    (device_initial_used : option Z) (with_args : bool) (mname : string)
    (input_size : list Z) (dtype_str : string) : M TrialResult :=
  l <- repetitions args device_handle device_initial_used with_args mname
                   input_size dtype_str ;;
  flops <- estimate_flops with_args mname input_size dtype_str ;;
  let times := Reduce.Qsort (all_times l) in
  final_times <- lift (Reduce.final_times times) ;;
  let memories :=
    if (List.length (all_memories l) =? 0)%nat then [0] else all_memories l in
  let memories := Reduce.Zsort memories in
  final_memories <- lift (Reduce.final_memories memories (first_memory_used l)) ;;
  ret {| tr_all_times := times;
         tr_all_memories := memories;
         tr_first_memory_used := first_memory_used l;
         tr_model_params := model_params l;
         tr_flops := flops;
         tr_final_times := final_times;
         tr_final_memories := final_memories |}.

(** The end of the [try] block: the two updates of [new_df_dict]. The
    dictionary is changed in place, so what the first update wrote stays
    when the second statement raises. *)
Definition record_row (df_columns : list string) (args : Args)
    (mname : string) (input_size : list Z) (idtype : nat) (r : TrialResult)
    (new_df_dict : PyDict.t Cell) : PyDict.t Cell * result unit :=
  let common :=
    if (List.length new_df_dict =? 0)%nat then
      match bound "model_params" (tr_model_params r) with
      | Raise e => (new_df_dict, Raise e)
      | Ok params =>
      match PyList.getitem input_size 0 with
      | Raise e => (new_df_dict, Raise e)
      | Ok h =>
      match PyList.getitem input_size 1 with
      | Raise e => (new_df_dict, Raise e)
      | Ok w =>
          let values :=
            [Str mname;
             Num (inject_Z params / 1000000)%Q;
             Num (inject_Z (tr_flops r) / 1000000000)%Q;
             Num (inject_Z h); Num (inject_Z w); Num (inject_Z (h * w))] in
          (PyDict.update new_df_dict
             (combine (firstn NUM_COMMON_COLUMNS df_columns) values), Ok tt)
      end end end
    else (new_df_dict, Ok tt) in
  match common with
  | (d, Raise e) => (d, Raise e)
  | (d, Ok _) =>
  match PyDict.getitem (tr_final_times r) (final_speed_mode args) with
  | Raise e => (d, Raise e)
  | Ok t =>
  match PyDict.getitem (tr_final_memories r) (final_memory_mode args) with
  | Raise e => (d, Raise e)
  | Ok m =>
      let values := [Num (t * 1000)%Q; Num (m / inject_Z (1024 ^ 3))%Q] in
      (PyDict.update d
         (combine (PyList.slice df_columns
                     (NUM_COMMON_COLUMNS + 2 * idtype)
                     (NUM_COMMON_COLUMNS + 2 * (idtype + 1))) values), Ok tt)
  end end end.

Definition warn (mname dtype_str : string) (e : exn) (w : World) : World :=
  {| history := history w;
     warnings := warnings w ++ [(mname, dtype_str, e)];
     files := files w;
     plots := plots w |}.

(** One turn of [for idtype, dtype_str in enumerate(args.datatypes)]: the
    [try] block and its [except Exception] handler. *)
Definition precision_step (df_columns : list string) (args : Args)
    (device_handle : option nat) (device_initial_used : option Z)
    (with_args : bool) (mname : string) (input_size : list Z)
    (it : nat * string) (new_df_dict : PyDict.t Cell)
  : M (PyDict.t Cell) :=
  fun w =>
    match trial args device_handle device_initial_used with_args mname
                input_size (snd it) w with
    | (w1, Raise e) => (warn mname (snd it) e w1, Ok new_df_dict)
    | (w1, Ok r) =>
        match record_row df_columns args mname input_size (fst it) r
                         new_df_dict with
        | (d, Ok _) => (w1, Ok d)
        | (d, Raise e) => (warn mname (snd it) e w1, Ok d)
        end
    end.

Definition write_csv (path : string) (df : DataFrame) : M unit :=
  fun w =>
    ({| history := history w; warnings := warnings w;
        files := files w ++ [(path, df)]; plots := plots w |}, Ok tt).

Definition write_html (path : string) (fig : Figure) : M unit :=
  fun w =>
    ({| history := history w; warnings := warnings w;
        files := files w; plots := plots w ++ [(path, fig)] |}, Ok tt).

(** The legend of an axis: [TABLE_KEYS_LEGENDS[key]], with the datatype
    appended for the two measured columns. *)
Definition axis_legend (key datatype : string) : result string :=
  match PyDict.getitem TABLE_KEYS_LEGENDS key with
  | Raise e => Raise e
  | Ok legend =>
      if PyList.contains key ["memory"; "time"]
      then Ok (legend ++ "-" ++ datatype)%string
      else Ok legend
  end.

(** [np.log10(df[legend])]: the column must exist, and a column that
    holds a string has no logarithm. *)
Definition log10_of_column (df : DataFrame) (legend : string)
  : result (list Cell) :=
  if has_column df legend then
    let column := map (fun row => cell (columns df) row legend) (rows df) in
    if existsb is_str column then Raise TypeError
    else Ok (map log10_cell column)
  else Raise (KeyError legend).

(** [df_tmp[legend + "(Log10)"] = np.log10(df[legend])]. *)
Definition add_log10 (df : DataFrame) (df_tmp : Indexed) (legend : string)
  : M Indexed :=
  series <- lift (log10_of_column df legend) ;;
  ret (assign df_tmp (legend ++ "(Log10)")%string series).

(** [px.scatter]: the columns it is given must exist. *)
Definition px_scatter (data : DataFrame) (x y color : string)
    (log_x log_y : bool) (title : string) : M Figure :=
  if has_column data x && has_column data y && has_column data color then
    ret {| fig_data := data; fig_x := x; fig_y := y; fig_color := color;
           fig_symbol := color; fig_log_x := log_x; fig_log_y := log_y;
           fig_title := title |}
  else raise ValueError.

Definition save_plot (output_dir model_name : string) (df : DataFrame)
    (plot_axes : option (list string)) (log_x log_y : bool)
    (datatype : string) : M unit :=
  match plot_axes with
  | None => ret tt
  | Some axes =>
      assert (List.length axes =? 2)%nat ;;;
      xkey <- lift (PyList.getitem axes 0) ;;
      ykey <- lift (PyList.getitem axes 1) ;;
      assert (PyList.contains xkey TABLE_KEYS) ;;;
      assert (PyList.contains ykey TABLE_KEYS) ;;;
      let df_tmp := dropna_rows (copy df) in
      xlegend <- lift (axis_legend xkey datatype) ;;
      ylegend <- lift (axis_legend ykey datatype) ;;
      df_tmp <- (if log_x then add_log10 df df_tmp xlegend else ret df_tmp) ;;
      df_tmp <- (if log_y then add_log10 df df_tmp ylegend else ret df_tmp) ;;
      fig <- px_scatter (values df_tmp) xlegend ylegend
                        (nth 0 TABLE_LEGENDS "")
                        log_x log_y (xlegend ++ " x " ++ ylegend)%string ;;
      let out_name := ("benchmark_plot-" ++ model_name ++ "-" ++ xkey
                       ++ "-" ++ ykey ++ ".html")%string in
      write_html (output_dir ++ "/" ++ out_name)%string fig
  end.

(** The columns of the empty table: the six common legends, then a time
    and a memory column per datatype (the keys of [df_dict]). *)
Definition initial_columns (dtypes : list string) : list string :=
  PyDict.keys
    (fold_left
       (fun df_dict dtype_str =>
          PyDict.set
            (PyDict.set df_dict
               (nth 6 TABLE_LEGENDS "" ++ "-" ++ dtype_str)%string tt)
            (nth 7 TABLE_LEGENDS "" ++ "-" ++ dtype_str)%string tt)
       dtypes
       (map (fun legend => (legend, tt)) (firstn 6 TABLE_LEGENDS))).

(** [s.split(".")[-1]]. *)
Fixpoint last_segment (s acc : string) : string :=
  match s with
  | EmptyString => acc
  | String c s' =>
      if Ascii.eqb c "."%char then last_segment s' EmptyString
      else last_segment s' (acc ++ String c EmptyString)%string
  end.

(** The body of [for mname in tqdm(model_names)]. *)
Definition model_step (args : Args) (device_handle : option nat)
    (device_initial_used : option Z) (with_args : bool)
    (excluded : list string) (input_size : list Z) (mname : string)
    (df : DataFrame) : M DataFrame :=
  if PyList.contains mname excluded then ret df
  else
    new_df_dict <- for_each (PyList.enumerate (datatypes args))
                      (precision_step (columns df) args device_handle
                         device_initial_used with_args mname input_size)
                      [] ;;
    if (0 <? List.length new_df_dict)%nat then
      let new_df := of_dict new_df_dict in
      let df := concat df new_df in
      let df := round3 df in
      write_csv (output_path args ++ "/model_benchmark-" ++ mname ++ ".csv")%string
                df ;;;
      datatype <- lift (PyList.getitem (datatypes args) 0) ;;
      save_plot (output_path args) mname df (plot_axes args)
                (plot_log_x args) (plot_log_y args) datatype ;;;
      ret df
    else ret df.

(** [for name in names: assert name in available_model_names]. *)
Definition assert_available (names : list string) : M unit :=
  for_each names
    (fun name _ => assert (PyList.contains name (get_model_names env))) tt.

(** The input sizes of the sweep:
    [args.input_size[isize : isize + 2] for isize in range(0, len, 2)]. *)
Definition input_size_groups (sizes : list Z) : list (list Z) :=
  map (fun isize => PyList.slice sizes isize (isize + 2))
      (PyList.range_step2 (List.length sizes) 0 (List.length sizes)).

(** [benchmark(args, device_handle)]. Creating the output directory is
    left out. *)
Definition benchmark (args : Args) (device_handle : option nat)
  : M DataFrame :=
  let df := {| columns := initial_columns (datatypes args); rows := [] |} in
  let single := ([last_segment (model_class_path args) EmptyString], true) in
  names <- (if all_ args then ret (models_dict_keys env, false)
            else
              match select args with
              | Some sel =>
                  if (0 <? List.length sel)%nat then
                    assert_available sel ;;; ret (sel, false)
                  else ret single
              | None => ret single
              end) ;;
  excluded <- (match exclude args with
               | None => ret []
               | Some ex => assert_available ex ;;; ret ex
               end) ;;
  assert (List.length (input_size args) mod 2 =? 0)%nat ;;;
  device_initial_used <-
    (match pynvml_imported env, device_handle with
     | true, Some handle =>
         used <- call_int (NvmlMemoryInfoUsed handle) ;;
         ret (Some used)
     | _, _ => ret None
     end) ;;
  for_each (input_size_groups (input_size args))
    (fun input_size df =>
       for_each (fst names)
         (model_step args device_handle device_initial_used (snd names)
                     excluded input_size)
         df)
    df.

End Harness.

(** ** ScopeFlow: the occlusion refinement helper *)

Module ScopeFlow.

Section RefineOcc.

(** Tensors and the layers of the network the helper calls. *)
Context {tensor : Type}.
Variable div_flow : Q.                                   (* self.div_flow *)
Variable warping_layer : tensor -> tensor -> Z -> Z -> Q -> tensor.
Variable refine_occ : tensor -> tensor -> tensor -> tensor.
Variable detach : tensor -> tensor.                      (* t.detach() *)
Variable sub : tensor -> tensor -> tensor.               (* a - b *)

Definition _refine_occ (x1_1by1 x2_1by1 flow_f flow_b occ_cont_f occ_cont_b
                        : tensor) (height_im width_im : Z)
  : tensor * tensor * tensor * tensor :=
  let x2_1by1_warp :=
    warping_layer x2_1by1 flow_f height_im width_im div_flow in
  let x1_1by1_warp :=
    warping_layer x1_1by1 flow_b height_im width_im div_flow in
  let occ_f :=
    refine_occ (detach occ_cont_f) x1_1by1 (sub x1_1by1 x2_1by1_warp) in
  let occ_b :=
    refine_occ (detach occ_cont_b) x2_1by1 (sub x2_1by1 x1_1by1_warp) in
  (occ_f, occ_cont_f, occ_b, occ_cont_f).

(** The call in [forward] and the list it appends to [occs]:
    [occ_f, occ_cont_f, occ_b, occ_cont_f = self._refine_occ(...)] binds
    the targets from left to right, then
    [occs.append([occ_cont_f, occ_cont_b, occ_f, occ_b])]. *)
Definition refine_occ_outputs (x1_1by1 x2_1by1 flow_f flow_b occ_cont_f
                               occ_cont_b : tensor) (height_im width_im : Z)
  : list tensor :=
  match _refine_occ x1_1by1 x2_1by1 flow_f flow_b occ_cont_f occ_cont_b
                    height_im width_im with
  | (r0, r1, r2, r3) =>
      let occ_f := r0 in
      let occ_cont_f := r1 in
      let occ_b := r2 in
      let occ_cont_f := r3 in
      [occ_cont_f; occ_cont_b; occ_f; occ_b]
  end.

End RefineOcc.

(** Tensors as the expressions that compute them, for statements about
    which inputs a result is made of. *)
Inductive Sym : Type :=
| Input (name : string)
| WarpingLayer (x flow : Sym) (height_im width_im : Z) (div_flow : Q)
| RefineOccLayer (occ x diff : Sym)
| Detach (t : Sym)
| Sub (a b : Sym).

Definition sym_refine_occ (height_im width_im : Z) (div_flow : Q)
  : Sym * Sym * Sym * Sym :=
  _refine_occ div_flow WarpingLayer RefineOccLayer Detach Sub
    (Input "x1_1by1") (Input "x2_1by1") (Input "flow_f") (Input "flow_b")
    (Input "occ_cont_f") (Input "occ_cont_b") height_im width_im.

End ScopeFlow.

(** ** Notions the statements below are written with *)

(** The sum of a sample sequence. *)
Definition sum_Q (xs : list Q) : Q := fold_right Qplus 0%Q xs.

Definition sum_Z (xs : list Z) : Z := fold_right Z.add 0 xs.

(** The reduction dictionary [d] has under [key] the element of [xs] at
    index [i]. *)
Definition selects_Q (d : PyDict.t Q) (key : string) (xs : list Q) (i : nat)
  : Prop :=
  exists x, PyDict.get d key = Some x /\ nth_error xs i = Some x.

Definition selects_Z (d : PyDict.t Q) (key : string) (xs : list Z) (i : nat)
  : Prop :=
  exists x, PyDict.get d key = Some (inject_Z x) /\ nth_error xs i = Some x.

(** A statement [c] keeps the guarantee [G] between the world it starts in
    and the world it ends in, whether it returns or raises, and what it
    returns satisfies [Q]. *)
Definition spec {A : Type} (G : World -> World -> Prop) (c : M A)
    (Q : A -> Prop) : Prop :=
  forall w w' r, c w = (w', r) -> G w w' /\ (forall a, r = Ok a -> Q a).

(** All a statement does to the world is to make calls that satisfy [P]:
    it logs no warning and writes no table and no plot. *)
Definition calls_only (P : Call -> Prop) (w w' : World) : Prop :=
  (exists new, history w' = history w ++ new
               /\ Forall (fun cr => P (fst cr)) new)
  /\ warnings w' = warnings w
  /\ files w' = files w
  /\ plots w' = plots w.

(** The replies of the device-memory probe in a history, oldest first. *)
Fixpoint snapshots (h : list (Call * Reply)) : list Z :=
  match h with
  | [] => []
  | (NvmlMemoryInfoUsed _, ReturnsInt used) :: h' => used :: snapshots h'
  | _ :: h' => snapshots h'
  end.

(** The calls of the inner timing loop for model [mname]. *)
Definition timing_call (env : Env) (mname : string) (c : Call) : Prop :=
  match c with
  | Rand _ | TimerResetTic | TimerTocTotal => True
  | TensorCuda _ | TensorHalf _ => cuda_is_available env = true
  | Forward m _ => model_name m = mname
  | _ => False
  end.

(** The calls of the repetitions of a trial of model [mname]. *)
Definition repetition_call (env : Env) (device_handle : option nat)
    (mname : string) (c : Call) : Prop :=
  match c with
  | EmptyCache | Sleep _ => True
  | NvmlMemoryInfoUsed handle =>
      device_handle = Some handle /\ pynvml_imported env = true
  | GetModel name _ => name = mname
  | ModelEval m | ModelCpu m | CountParameters m => model_name m = mname
  | ModelCuda m | ModelHalf m =>
      model_name m = mname /\ cuda_is_available env = true
  | ProfiledForward _ _ => False
  | _ => timing_call env mname c
  end.

(** The calls of a whole trial of model [mname]. *)
Definition trial_call (env : Env) (device_handle : option nat)
    (mname : string) (c : Call) : Prop :=
  match c with
  | ProfiledForward m _ => model_name m = mname
  | Rand _ => True
  | _ => repetition_call env device_handle mname c
  end.

(** The calls of the FLOP estimate of model [mname] before the profiled
    forward. *)
Definition flops_setup_call (env : Env) (mname : string) (c : Call) : Prop :=
  match c with
  | GetModel name _ => name = mname
  | ModelEval m => model_name m = mname
  | ModelCuda m | ModelHalf m =>
      model_name m = mname /\ cuda_is_available env = true
  | TensorCuda _ | TensorHalf _ => cuda_is_available env = true
  | Rand shape => exists h w, shape = [1; 2; 3; h; w]
  | _ => False
  end.

(** What a trial that reaches the update of the row has collected. *)
Definition trial_post (args : Args) (device_handle : option nat)
    (input_size : list Z) (r : TrialResult) : Prop :=
  let n := (Z.to_nat (num_trials args) * Z.to_nat (num_samples args))%nat in
  List.length (tr_all_times r) = n
  /\ (device_handle <> None ->
      List.length (tr_all_memories r) = n
      /\ exists deltas,
           List.length deltas = Z.to_nat (num_trials args)
           /\ tr_all_memories r
              = Reduce.Zsort
                  (flat_map (fun delta =>
                               repeat delta (Z.to_nat (num_samples args)))
                            deltas))
  /\ (0 < n)%nat
  /\ tr_model_params r <> None
  /\ (exists h w, PyList.getitem input_size 0 = Ok h
                  /\ PyList.getitem input_size 1 = Ok w)
  /\ Reduce.final_times (tr_all_times r) = Ok (tr_final_times r)
  /\ Reduce.final_memories (tr_all_memories r) (tr_first_memory_used r)
     = Ok (tr_final_memories r)
  /\ (exists chunks,
        List.length chunks = Z.to_nat (num_trials args)
        /\ Forall (fun chunk =>
                     List.length chunk = Z.to_nat (num_samples args)) chunks
        /\ tr_all_times r = Reduce.Qsort (List.concat chunks)).

(** The model and the input the profiled forward of the FLOP estimate runs
    on. *)
Definition profiled_model (env : Env) (mname dtype_str : string) : Model :=
  {| model_name := mname;
     model_training := false;
     model_device := if cuda_is_available env then Cuda else Cpu;
     model_dtype := if cuda_is_available env && String.eqb dtype_str "fp16"
                    then Float16 else Float32 |}.

Definition profiled_input (env : Env) (h w : Z) (dtype_str : string) : Tensor :=
  {| tensor_shape := [1; 2; 3; h; w];
     tensor_device := if cuda_is_available env then Cuda else Cpu;
     tensor_dtype := if cuda_is_available env && String.eqb dtype_str "fp16"
                     then Float16 else Float32 |}.

(** The profiled forwards in a history, with their replies. *)
Fixpoint profiled (h : list (Call * Reply)) : list (Model * Tensor * Reply) :=
  match h with
  | [] => []
  | (ProfiledForward m t, r) :: h' => (m, t, r) :: profiled h'
  | _ :: h' => profiled h'
  end.

(** Every call but the device-memory probe. *)
Definition not_probe (c : Call) : Prop :=
  match c with
  | NvmlMemoryInfoUsed _ => False
  | _ => True
  end.

(** The world moved from [w] to [w'] by calls among which the probe
    answered [readings], in this order. *)
Definition probed (readings : list Z) (w w' : World) : Prop :=
  exists new, history w' = history w ++ new /\ snapshots new = readings.

(** ** A sample machine and configuration, for concrete runs

    A machine with CUDA and a memory probe, on which [half()] fails for the
    model "pwc"; the probe and the timer answer from the number of calls
    made so far. *)

Definition sample_answer (h : list (Call * Reply)) (c : Call) : Reply :=
  match c with
  | NvmlMemoryInfoUsed _ =>
      ReturnsInt (1024 ^ 3 * (1 + Z.of_nat (List.length h)))
  | CountParameters _ => ReturnsInt 5000000
  | TimerTocTotal => ReturnsFloat (Z.of_nat (List.length h) # 1000)
  | ProfiledForward _ _ => ReturnsInts [1000000000; 2000000000; 500000000]
  | ModelHalf m =>
      if String.eqb (model_name m) "pwc"
      then Raises (BackendError "half is not supported")
      else Returns
  | _ => Returns
  end.

Definition sample_env : Env :=
  {| cuda_is_available := true;
     pynvml_imported := true;
     get_model_names := ["raft"; "pwc"];
     models_dict_keys := ["raft"; "pwc"];
     answer := sample_answer |}.

Definition sample_args : Args :=
  {| all_ := false;
     select := Some ["raft"; "pwc"];
     exclude := None;
     model_class_path := "ptlflow.models.raft.raft";
     num_trials := 2;
     num_samples := 5;
     sleep_interval := 0;
     input_size := [100; 200; 300; 400];
     output_path := "outputs/benchmark";
     final_speed_mode := "median";
     final_memory_mode := "first";
     plot_axes := None;
     plot_log_x := false;
     plot_log_y := false;
     datatypes := ["fp16"; "fp32"];
     batch_size := 1 |}.

(** The world of the sample machine once [benchmark] has taken its initial
    reading of the probe, and that reading. *)
Definition sample_started : World :=
  fst (call_int sample_env (NvmlMemoryInfoUsed 0) initial_world).

Definition sample_initial_used : Z := 1024 ^ 3.

(** The sample machine without CUDA. *)
Definition sample_cpu_env : Env :=
  {| cuda_is_available := false;
     pynvml_imported := pynvml_imported sample_env;
     get_model_names := get_model_names sample_env;
     models_dict_keys := models_dict_keys sample_env;
     answer := answer sample_env |}.

(** The calls that cast a model or a tensor to half precision. *)
Definition half_cast (c : Call) : Prop :=
  match c with
  | ModelHalf _ | TensorHalf _ => True
  | _ => False
  end.

(** The input height and width of the rows of a table. *)
Definition row_sizes (df : DataFrame) : list (Cell * Cell) :=
  map (fun row => (cell (columns df) row "InputH",
                   cell (columns df) row "InputW")) (rows df).



(** A table as the sample run leaves it: "pwc" has no fp16 measurement. *)
Definition sample_table : DataFrame :=
  {| columns := ["Model"; "Params"; "FLOPs"; "InputH"; "InputW"; "InputPx";
                 "Time(ms)-fp16"; "Memory(GB)-fp16";
                 "Time(ms)-fp32"; "Memory(GB)-fp32"];
     rows := [[Str "raft"; Num 5; Num 3.5; Num 100; Num 200; Num 20000;
               Num 82; Num 3; Num 173; Num 3];
              [Str "pwc"; Num 5; Num 3.5; Num 100; Num 200; Num 20000;
               NaN; NaN; Num 267; Num 3]] |}.

(** The profiler answers from the model and the input alone. *)
Definition profiler_is_static (env : Env) : Prop :=
  forall h1 h2 m t,
    answer env h1 (ProfiledForward m t) = answer env h2 (ProfiledForward m t).

(** The configuration [args] with another batch size. *)
Definition with_batch_size (args : Args) (b : Z) : Args :=
  {| all_ := all_ args;
     select := select args;
     exclude := exclude args;
     model_class_path := model_class_path args;
     num_trials := num_trials args;
     num_samples := num_samples args;
     sleep_interval := sleep_interval args;
     input_size := input_size args;
     output_path := output_path args;
     final_speed_mode := final_speed_mode args;
     final_memory_mode := final_memory_mode args;
     plot_axes := plot_axes args;
     plot_log_x := plot_log_x args;
     plot_log_y := plot_log_y args;
     datatypes := datatypes args;
     batch_size := b |}.

(** The calls that concern the model named [mname]: building it and
    everything done to or with a model of this name. *)
Definition mentions (mname : string) (c : Call) : Prop :=
  match c with
  | GetModel name _ => name = mname
  | ModelEval m | ModelCuda m | ModelHalf m | ModelCpu m
  | CountParameters m | Forward m _ | ProfiledForward m _ =>
      model_name m = mname
  | _ => False
  end.

(** No row of the table has a cell with the name [mname]. *)
Definition no_mention (mname : string) (df : DataFrame) : Prop :=
  Forall (fun row => ~ In (Str mname) row) (rows df).

(** No value of a row under construction is the name [mname]. *)
Definition values_ok (mname : string) (d : PyDict.t Cell) : Prop :=
  Forall (fun kv => snd kv <> Str mname) d.

(** From [w] to [w'] nothing was done for the model [mname]: no call
    concerns it, no warning names it, and no table and no plot written
    has a row of it. *)
Definition untouched (mname : string) (w w' : World) : Prop :=
  (exists new, history w' = history w ++ new
               /\ Forall (fun cr => ~ mentions mname (fst cr)) new)
  /\ (exists new, warnings w' = warnings w ++ new
                  /\ Forall (fun x => fst (fst x) <> mname) new)
  /\ (exists new, files w' = files w ++ new
                  /\ Forall (fun pf => no_mention mname (snd pf)) new)
  /\ (exists new, plots w' = plots w ++ new
                  /\ Forall (fun pf => no_mention mname (fig_data (snd pf)))
                            new).

(** The sample configuration with "pwc" excluded. *)
Definition sample_args_excluding_pwc : Args :=
  {| all_ := all_ sample_args;
     select := select sample_args;
     exclude := Some ["pwc"];
     model_class_path := model_class_path sample_args;
     num_trials := num_trials sample_args;
     num_samples := num_samples sample_args;
     sleep_interval := sleep_interval sample_args;
     input_size := input_size sample_args;
     output_path := output_path sample_args;
     final_speed_mode := final_speed_mode sample_args;
     final_memory_mode := final_memory_mode sample_args;
     plot_axes := Some ["params"; "time"];
     plot_log_x := plot_log_x sample_args;
     plot_log_y := true;
     datatypes := datatypes sample_args;
     batch_size := batch_size sample_args |}.

(** The choices the parser allows for [--final_speed_mode] and
    [--final_memory_mode]. *)
Definition speed_choices : list string :=
  ["avg"; "median"; "perc1"; "perc5"; "perc10"].

Definition memory_choices : list string :=
  ["avg"; "median"; "perc1"; "perc5"; "perc10"; "first"].

(** All a statement does to the world is to write plots. *)
Definition plots_only (w w' : World) : Prop :=
  history w' = history w /\ warnings w' = warnings w /\ files w' = files w.

(** [model_step] went from [w] to [w3] with result [res]: it logged the
    failure [e] of the fp16 trial of [mname], and wrote a table whose last
    row is the row of [mname] with the fp32 measurements of the trial
    result [r] and nothing in the fp16 cells. *)
Definition fp32_row_recorded (args : Args) (mname : string) (df : DataFrame)
    (r : TrialResult) (e : exn) (w w3 : World) (res : result DataFrame)
  : Prop :=
  exists table old row t m,
    warnings w3 = warnings w ++ [(mname, "fp16", e)]
    /\ files w3
       = files w
         ++ [((output_path args ++ "/model_benchmark-" ++ mname ++ ".csv")%string,
              table)]
    /\ columns table = columns df
    /\ rows table = old ++ [row]
    /\ List.length old = List.length (rows df)
    /\ PyDict.get (tr_final_times r) (final_speed_mode args) = Some t
    /\ PyDict.get (tr_final_memories r) (final_memory_mode args) = Some m
    /\ cell (columns table) row "Model" = Str mname
    /\ cell (columns table) row "Time(ms)-fp32" = round_cell (Num (t * 1000)%Q)
    /\ cell (columns table) row "Memory(GB)-fp32"
       = round_cell (Num (m / inject_Z (1024 ^ 3))%Q)
    /\ cell (columns table) row "Time(ms)-fp16" = NaN
    /\ cell (columns table) row "Memory(GB)-fp16" = NaN
    /\ (forall df', res = Ok df' -> df' = table)
    /\ (plot_axes args = None -> res = Ok table).

(** The forward calls of the timing loop in a history. *)
Definition is_forward (cr : Call * Reply) : bool :=
  match fst cr with
  | Forward _ _ => true
  | _ => false
  end.

Definition forward_calls (h : list (Call * Reply)) : nat :=
  List.length (filter is_forward h).

(** Every call but a forward of the timing loop. *)
Definition not_forward (c : Call) : Prop :=
  match c with
  | Forward _ _ => False
  | _ => True
  end.

(** The world moved from [w] to [w'] by calls among which [n] are forwards
    of the timing loop. *)
Definition forwarded (n : nat) (w w' : World) : Prop :=
  exists new, history w' = history w ++ new /\ forward_calls new = n.



(** ** Notions for the further properties *)

(** The table of a sweep over the datatypes [dts] as the sweep keeps it:
    the columns are the ones it started with, and every row has one cell
    per column, rounded to three decimals, with no string outside the
    column of the model names. *)
Definition table_ok (dts : list string) (df : DataFrame) : Prop :=
  columns df = initial_columns dts
  /\ Forall (fun row =>
               List.length row = List.length (columns df)
               /\ map round_cell row = row
               /\ forall c, c <> "Model" ->
                     is_str (cell (columns df) row c) = false)
            (rows df).

(** The keys of a row under construction are columns of the table, none
    twice. *)
Definition row_keys_ok (cols : list string) (d : PyDict.t Cell) : Prop :=
  NoDup (PyDict.keys d) /\ forall k, In k (PyDict.keys d) -> In k cols.

(** A statement started in a world that satisfies [P] ends in a world that
    satisfies [Q] with the value it returns, or [E] with the exception it
    raises. *)
Definition triple {A : Type} (P : World -> Prop) (c : M A)
    (Q : A -> World -> Prop) (E : exn -> World -> Prop) : Prop :=
  forall w w' r,
    P w -> c w = (w', r) ->
    match r with
    | Ok a => Q a w'
    | Raise e => E e w'
    end.

(** The path of the table written after the model [mname]. *)
Definition csv_path_of (args : Args) (mname : string) : string :=
  (output_path args ++ "/model_benchmark-" ++ mname ++ ".csv")%string.

(** Two plot axes the harness can draw: two known keys, and not the
    model names on a logarithmic axis. The parser, whose choices are
    [TABLE_KEYS[1:]], accepts no other. *)
Definition axes_valid (axes : list string) (log_x log_y : bool) : Prop :=
  exists xkey ykey,
    axes = [xkey; ykey]
    /\ PyList.contains xkey TABLE_KEYS = true
    /\ PyList.contains ykey TABLE_KEYS = true
    /\ (log_x = true -> xkey <> "model")
    /\ (log_y = true -> ykey <> "model").

(** The plot axes of a configuration are absent or valid. *)
Definition plot_axes_valid (args : Args) : Prop :=
  match plot_axes args with
  | None => True
  | Some axes => axes_valid axes (plot_log_x args) (plot_log_y args)
  end.

(** The names the configuration selects and excludes are registered. *)
Definition names_valid (env : Env) (args : Args) : Prop :=
  (all_ args = true
   \/ match select args with
      | Some sel =>
          Forall (fun name => PyList.contains name (get_model_names env) = true)
                 sel
      | None => True
      end)
  /\ match exclude args with
     | Some ex =>
         Forall (fun name => PyList.contains name (get_model_names env) = true)
                ex
     | None => True
     end.

(** The probe, if there is one, answers the first reading of [benchmark]
    from the world [w]. *)
Definition initial_reading_ok (env : Env) (device_handle : option nat)
    (w : World) : Prop :=
  match pynvml_imported env, device_handle with
  | true, Some handle =>
      exists used,
        answer env (history w) (NvmlMemoryInfoUsed handle) = ReturnsInt used
  | _, _ => True
  end.

(** The tables a sweep has written by the time its table is [df]: one per
    row, each with the rows up to that one. *)
Definition prefix_tables (df : DataFrame) : list DataFrame :=
  map (fun k => {| columns := columns df; rows := firstn k (rows df) |})
      (seq 1 (List.length (rows df))).

(** The state of a sweep that started in the world [w0] with an empty
    table. *)
Definition sweep_inv (dts : list string) (w0 : World) (df : DataFrame)
    (w : World) : Prop :=
  table_ok dts df
  /\ exists fs,
       files w = files w0 ++ fs
       /\ map snd fs = prefix_tables df.

(** A configuration under which no trial can give a measurement: no
    datatype, no repetition that counts, no sample that counts, or a
    batch of size zero. *)
Definition nothing_to_measure (args : Args) : Prop :=
  datatypes args = [] \/ num_trials args <= 0 \/ num_samples args <= 0
  \/ batch_size args = 0.

(** The configuration [args] with another [--num_trials]. *)
Definition with_num_trials (args : Args) (n : Z) : Args :=
  {| all_ := all_ args;
     select := select args;
     exclude := exclude args;
     model_class_path := model_class_path args;
     num_trials := n;
     num_samples := num_samples args;
     sleep_interval := sleep_interval args;
     input_size := input_size args;
     output_path := output_path args;
     final_speed_mode := final_speed_mode args;
     final_memory_mode := final_memory_mode args;
     plot_axes := plot_axes args;
     plot_log_x := plot_log_x args;
     plot_log_y := plot_log_y args;
     datatypes := datatypes args;
     batch_size := batch_size args |}.

(** ** ScopeFlow: parameter groups and freezing *)

Module ScopeFlowParams.

(** [sub in s] on strings. *)
Fixpoint is_in (sub s : string) : bool :=
  if String.prefix sub s then true
  else
    match s with
    | EmptyString => false
    | String _ s' => is_in sub s'
    end.

(** A parameter, as the freezing code reads and writes it:
    [requires_grad] and [grad] ([None] or the entries of the gradient). *)
Record Param : Type := {
  requires_grad : bool;
  grad : option (list Q)
}.

(** [self.named_parameters()]: the parameter objects of the module, by
    name. The groups hold the same objects, so a group is the list of the
    names of its members. *)
Definition Params : Type := list (string * Param).

Definition names (ps : Params) : list string := map fst ps.

(** [self.pwc_groups] as [__init__] sets it. *)
Definition pwc_groups : list string :=
  ["extractor"; "1x1"; "flow_estimator"; "context"; "refine_flow";
   "attention"] ++ repeat "occ" 3.

(** [{k: t for k, t in self.named_parameters() if substr in k}]. *)
Definition group_of (ps : Params) (substr : string) : list string :=
  filter (is_in substr) (names ps).

(** [[s for p in [list(pgroups[k].keys()) for k in keys] for s in p]]. *)
Fixpoint group_members (pgroups : PyDict.t (list string)) (keys : list string)
  : result (list string) :=
  match keys with
  | [] => Ok []
  | k :: keys' =>
      match PyDict.getitem pgroups k with
      | Raise e => Raise e
      | Ok g =>
          match group_members pgroups keys' with
          | Raise e => Raise e
          | Ok rest => Ok (g ++ rest)
          end
      end
  end.

(** [set(xs)] followed by [len]: the number of distinct strings. *)
Definition len_set (xs : list string) : nat :=
  List.length (nodup string_dec xs).

(** [_get_param_groups(keys)]. *)
Definition _get_param_groups (ps : Params) (keys : list string)
  : result (PyDict.t (list string)) :=
  let pgroups :=
    fold_left (fun pgroups substr =>
                 PyDict.set pgroups substr (group_of ps substr))
              keys [] in
  match group_members pgroups keys with
  | Raise e => Raise e
  | Ok members =>
      if (len_set members =? List.length ps)%nat then Ok pgroups
      else Raise AssertionError
  end.

(** The module state [_freeze] works on. *)
Record Net : Type := {
  parameters : Params;
  param_groups : PyDict.t (list string);
  freezed_params : list string
}.

(** [param.requires_grad = False], and [param.grad.data.zero_()] when the
    parameter holds a gradient. *)
Definition freeze_param (p : Param) : Param :=
  {| requires_grad := false;
     grad := option_map (map (fun _ => 0%Q)) (grad p) |}.

(** The inner loop of [_freeze]: every member of the group is frozen and
    its key added to [fkeys]. *)
Definition freeze_member (group : list string) (np : string * Param)
  : string * Param :=
  if PyList.contains (fst np) group then (fst np, freeze_param (snd np))
  else np.

Definition freeze_group (group : list string) (st : Params * list string)
  : Params * list string :=
  (map (freeze_member group) (fst st), snd st ++ group).

(** The outer loop: [self.param_groups[freezing_group]] raises [KeyError]
    for a name that is no group; what was frozen before stays frozen. *)
Fixpoint freeze_groups (pgroups : PyDict.t (list string))
    (freezing : list string) (st : Params * list string)
  : Params * list string * result unit :=
  match freezing with
  | [] => (st, Ok tt)
  | freezing_group :: rest =>
      match PyDict.getitem pgroups freezing_group with
      | Raise e => (st, Raise e)
      | Ok group => freeze_groups pgroups rest (freeze_group group st)
      end
  end.

Definition with_parameters (net : Net) (ps : Params) : Net :=
  {| parameters := ps;
     param_groups := param_groups net;
     freezed_params := freezed_params net |}.

(** [_freeze(verify)]. The prints are left out. *)
Definition thaw (np : string * Param) : string * Param :=
  if requires_grad (snd np) then np
  else (fst np, {| requires_grad := true; grad := grad (snd np) |}).

Definition _freeze (verify : bool) (net : Net) : Net * result unit :=
  let ps := if verify then map thaw (parameters net) else parameters net in
  match freeze_groups (param_groups net) (freezed_params net) (ps, []) with
  | (ps', _, Raise e) => (with_parameters net ps', Raise e)
  | (ps', fkeys, Ok _) =>
      let frozen :=
        map fst (filter (fun np => negb (requires_grad (snd np))) ps') in
      if (len_set frozen =? len_set fkeys)%nat
      then (with_parameters net ps', Ok tt)
      else (with_parameters net ps', Raise AssertionError)
  end.

(** The names in the groups [freezing] names, in the order of the loop. *)
Definition frozen_names (pgroups : PyDict.t (list string))
    (freezing : list string) : list string :=
  flat_map (fun k => match PyDict.get pgroups k with
                     | Some g => g
                     | None => []
                     end) freezing.

(** A parameter name belongs to one of the groups [freezing]. *)
Definition member (freezing : list string) (name : string) : bool :=
  existsb (fun k => is_in k name) freezing.

(** A module with two layers of the feature extractor, one of them frozen
    before, and a flow estimator that holds a gradient. *)
Definition sample_net : Net :=
  let ps :=
    [("feature_pyramid_extractor.convs.0.weight",
      {| requires_grad := false; grad := None |});
     ("feature_pyramid_extractor.convs.0.bias",
      {| requires_grad := true; grad := None |});
     ("flow_estimators.conv1.weight",
      {| requires_grad := true; grad := Some [1 # 2; 3 # 4] |});
     ("refine_occ.conv.weight",
      {| requires_grad := true; grad := None |})] in
  {| parameters := ps;
     param_groups :=
       map (fun k => (k, group_of ps k))
           ["extractor"; "1x1"; "flow_estimator"; "context"; "refine_flow";
            "attention"; "occ"];
     freezed_params := ["extractor"; "flow_estimator"] |}.

Section Random.

(** The random source: [random.randrange] on integer bounds and
    [random.sample], and the exception [randrange] raises for a bound that
    is not an integer ([ValueError] up to Python 3.11, [TypeError] from
    3.12). *)
Variable randrange_int : Z -> Z -> result Z.
Variable sample : list string -> Z -> result (list string).
Variable non_integer_bound : exn.

(** [random.randrange(start, stop)] for an integer [start] and a number
    [stop]: a bound that is not a whole number is refused; a whole one is
    left to the random source, which may refuse it as well. *)
Definition randrange (start : Z) (stop : Q) : result Z :=
  if (Zpos (Qden (Qred stop)) =? 1)%Z
  then randrange_int start (Qnum (Qred stop))
  else Raise non_integer_bound.

(** [freeze_random_weights()]; [len(self.pwc_groups) / 2] is a true
    division. *)
Definition freeze_random_weights (groups : list string) (net : Net)
  : Net * result unit :=
  match randrange 1 (inject_Z (Z.of_nat (List.length groups)) / 2)%Q with
  | Raise e => (net, Raise e)
  | Ok k =>
      match sample groups k with
      | Raise e => (net, Raise e)
      | Ok chosen =>
          _freeze true {| parameters := parameters net;
                          param_groups := param_groups net;
                          freezed_params := chosen |}
      end
  end.

End Random.

(** *** The sizes [__init__] sets *)

Record Sizes : Type := {
  search_range : Z;
  num_chs : list Z;
  output_level : Z;
  num_levels : Z;
  ch_proj_size : Z;
  min_layer : Z
}.

(** The assignments of [__init__] to the size attributes: first from the
    arguments, then under "Init sizes". *)
Definition init_sizes (arg_search_range arg_output_level arg_num_levels : Z)
    (arg_num_chs : list Z) : Sizes :=
  let self_search_range := arg_search_range in
  let self_output_level := arg_output_level in
  let self_num_levels := arg_num_levels in
  let self_num_chs := arg_num_chs in
  let self_search_range := 4 in
  let self_num_chs := [3; 16; 32; 64; 96; 128; 196] in
  let self_output_level := 4 in
  let self_num_levels := 7 in
  let self_ch_proj_size := 32 in
  let self_min_layer :=
    Z.of_nat (List.length self_num_chs) - self_output_level - 1 in
  {| search_range := self_search_range;
     num_chs := self_num_chs;
     output_level := self_output_level;
     num_levels := self_num_levels;
     ch_proj_size := self_ch_proj_size;
     min_layer := self_min_layer |}.

(** [list(range(start, stop, -1))]. *)
Definition range_down (start stop : Z) : list Z :=
  map (fun i => start - Z.of_nat i) (seq 0 (Z.to_nat (start - stop))).

(** [xs[i]] for an integer index: a negative one counts from the end. *)
Definition getitem_z {A : Type} (xs : list A) (i : Z) : result A :=
  let n := Z.of_nat (List.length xs) in
  if (i <? - n) || (n <=? i) then Raise IndexError
  else PyList.getitem xs (Z.to_nat (if i <? 0 then i + n else i)).

(** The input and output channels of the layers of [self.conv_1x1]. *)
Fixpoint conv_1x1_of (s : Sizes) (chs : list Z) : result (list (Z * Z)) :=
  match chs with
  | [] => Ok []
  | ch :: chs' =>
      match getitem_z (num_chs s) ch with
      | Raise e => Raise e
      | Ok c =>
          match conv_1x1_of s chs' with
          | Raise e => Raise e
          | Ok rest => Ok ((c, ch_proj_size s) :: rest)
          end
      end
  end.

Definition conv_1x1 (s : Sizes) : result (list (Z * Z)) :=
  conv_1x1_of s
    (range_down (Z.of_nat (List.length (num_chs s)) - 1) (min_layer s)).

Section Squash.

Context {tensor : Type}.
(** A 1x1 convolution layer with the given input and output channels,
    applied to a tensor. *)
Variable conv : Z * Z -> tensor -> tensor.

(** [_squash(l, x1, x2)]. *)
Definition _squash (s : Sizes) (layers : list (Z * Z)) (l : Z)
    (x1 x2 : tensor) : result (tensor * tensor) :=
  if negb (l =? output_level s) then
    match getitem_z layers l with
    | Raise e => Raise e
    | Ok layer =>
        match getitem_z layers l with
        | Raise e => Raise e
        | Ok layer' => Ok (conv layer x1, conv layer' x2)
        end
    end
  else Ok (x1, x2).

End Squash.

End ScopeFlowParams.

(** The attributes of [ScopeFlow] that [__init__] binds to layers with
    parameters; the name of a parameter starts with the name of the
    attribute that holds its layer. *)
Definition layer_attributes : list string :=
  ["feature_pyramid_extractor"; "flow_estimators"; "context_networks";
   "occ_estimators"; "occ_context_networks"; "occ_shuffle_upsample";
   "conv_1x1"; "conv_1x1_1"; "refine_flow"; "refine_occ"].

(** The levels of the pyramid that [forward] squashes:
    [l <= self.output_level], counted from 0 by [enumerate]. *)
Definition squashed_level (s : ScopeFlowParams.Sizes) (l : Z) : Prop :=
  0 <= l <= ScopeFlowParams.output_level s.

(** ** The entry point *)

(** [_show_v04_warning()]: [true] when the warning is logged; it is not
    when one of [ignore_args] is among the command-line arguments. *)
Definition ignore_args : list string :=
  ["-h"; "--help"; "--model"; "--config"; "--all"; "--select"].

Fixpoint _show_v04_warning_from (args : list string) (argv : list string)
  : bool :=
  match args with
  | [] => true
  | arg :: args' =>
      if PyList.contains arg argv then false
      else _show_v04_warning_from args' argv
  end.

Definition _show_v04_warning (argv : list string) : bool :=
  _show_v04_warning_from ignore_args argv.

(** [sys.argv.index(x)]. *)
Fixpoint list_index (x : string) (xs : list string) : result nat :=
  match xs with
  | [] => Raise ValueError
  | y :: ys =>
      if String.eqb y x then Ok O
      else match list_index x ys with
           | Ok i => Ok (S i)
           | Raise e => Raise e
           end
  end.

Section Main.

(** Reading the configuration file at a path and evaluating
    [config["all"] or config["select"] is not None] on it, or the
    exception that opening, parsing or the lookups raise. *)
Variable config_selects_list : string -> result bool.

(** The lines of [__main__] that compute [is_benchmark_list]. *)
Definition is_benchmark_list (argv : list string) : result bool :=
  let from_config :=
    if PyList.contains "--config" argv then
      match list_index "--config" argv with
      | Raise e => Raise e
      | Ok i =>
          match PyList.getitem argv (i + 1) with
          | Raise e => Raise e
          | Ok path =>
              match config_selects_list path with
              | Raise e => Raise e
              | Ok true => Ok true
              | Ok false => Ok false
              end
          end
      end
    else Ok false in
  match from_config with
  | Raise e => Raise e
  | Ok is_list =>
      if PyList.contains "--all" argv || PyList.contains "--select" argv
      then Ok true
      else Ok is_list
  end.

(** The model class the command line is parsed with, and
    [subclass_mode_model]: [None] and [False] for a list of models,
    [RegisteredModel] and [True] for a single one. *)
Inductive ModelClass : Type := NoModelClass | RegisteredModel.

Definition cli_mode (argv : list string) : result (ModelClass * bool) :=
  match is_benchmark_list argv with
  | Raise e => Raise e
  | Ok true => Ok (NoModelClass, false)
  | Ok false => Ok (RegisteredModel, true)
  end.

End Main.

(** ** The rows of the table *)

(** The model names [benchmark] sweeps, and the ones it skips. *)
Definition swept_names (env : Env) (args : Args) : list string :=
  if all_ args then models_dict_keys env
  else
    match select args with
    | Some sel =>
        if (0 <? List.length sel)%nat then sel
        else [last_segment (model_class_path args) EmptyString]
    | None => [last_segment (model_class_path args) EmptyString]
    end.

Definition excluded_names (args : Args) : list string :=
  match exclude args with
  | None => []
  | Some ex => ex
  end.

(** [row], under the columns [cols], is the row of the model [mname] at
    the input size [h] x [w]. *)
Definition row_of (cols : list string) (row : list Cell) (mname : string)
    (h w : Z) : Prop :=
  cell cols row "Model" = Str mname
  /\ cell cols row "InputH" = Num (inject_Z h)
  /\ cell cols row "InputW" = Num (inject_Z w)
  /\ cell cols row "InputPx" = Num (inject_Z (h * w)).

(** The row under construction is empty, or holds the model and the
    input size. *)
Definition row_common (mname : string) (input_size : list Z)
    (d : PyDict.t Cell) : Prop :=
  d = []
  \/ exists h w,
       PyList.getitem input_size 0 = Ok h
       /\ PyList.getitem input_size 1 = Ok w
       /\ PyDict.get d "Model" = Some (Str mname)
       /\ PyDict.get d "InputH" = Some (Num (inject_Z h))
       /\ PyDict.get d "InputW" = Some (Num (inject_Z w))
       /\ PyDict.get d "InputPx" = Some (Num (inject_Z (h * w))).

(** The only string of the row under construction is the name of the
    model. *)
Definition row_strings_ok (d : PyDict.t Cell) : Prop :=
  forall k v, PyDict.get d k = Some v -> is_str v = true -> k = "Model".

(** The row [pd.concat] and [round] make of the dictionary [d]. *)
Definition appended_row (df : DataFrame) (d : PyDict.t Cell) : list Cell :=
  map round_cell (reindex (PyDict.keys d) (columns df) (map snd d)).



(** The configuration [args] with other plot axes. *)
Definition with_plot_axes (args : Args) (axes : list string)
    (log_x log_y : bool) : Args :=
  {| all_ := all_ args;
     select := select args;
     exclude := exclude args;
     model_class_path := model_class_path args;
     num_trials := num_trials args;
     num_samples := num_samples args;
     sleep_interval := sleep_interval args;
     input_size := input_size args;
     output_path := output_path args;
     final_speed_mode := final_speed_mode args;
     final_memory_mode := final_memory_mode args;
     plot_axes := Some axes;
     plot_log_x := log_x;
     plot_log_y := log_y;
     datatypes := datatypes args;
     batch_size := batch_size args |}.

(** * Properties *)

(** ** Sorting *)

Section SortFacts.

Context {A : Type} (leb : A -> A -> bool).
Hypothesis leb_total : forall x y, leb x y = false -> leb y x = true.

Let le (x y : A) : Prop := leb x y = true.

Lemma insert_perm (x : A) (xs : list A) :
  Permutation (PyList.insert leb x xs) (x :: xs).
Proof.
  induction xs as [|y ys IH]; simpl.
  - apply Permutation_refl.
  - destruct (leb x y).
    + apply Permutation_refl.
    + eapply perm_trans; [apply perm_skip, IH | apply perm_swap].
Qed.

Lemma sort_perm (xs : list A) : Permutation (PyList.sort leb xs) xs.
Proof.
  induction xs as [|x xs IH]; simpl.
  - constructor.
  - eapply perm_trans; [apply insert_perm | apply perm_skip, IH].
Qed.

Lemma sort_length (xs : list A) :
  List.length (PyList.sort leb xs) = List.length xs.
Proof. apply Permutation_length, sort_perm. Qed.

Lemma insert_sorted (x : A) (xs : list A) :
  Sorted le xs -> Sorted le (PyList.insert leb x xs).
Proof.
  induction xs as [|y ys IH]; simpl; intros Hs.
  - repeat constructor.
  - destruct (leb x y) eqn:Hxy.
    + constructor; [assumption | constructor; exact Hxy].
    + inversion Hs as [|? ? Hys Hhd]; subst.
      constructor; [apply IH, Hys|].
      destruct ys as [|z zs]; simpl.
      * constructor. apply leb_total, Hxy.
      * destruct (leb x z); constructor.
        -- apply leb_total, Hxy.
        -- inversion Hhd; assumption.
Qed.

Lemma sort_sorted (xs : list A) : Sorted le (PyList.sort leb xs).
Proof.
  induction xs as [|x xs IH]; simpl.
  - constructor.
  - apply insert_sorted, IH.
Qed.

End SortFacts.

Lemma Qle_bool_total (x y : Q) : Qle_bool x y = false -> Qle_bool y x = true.
Proof.
  intros H. apply Qle_bool_iff, Qlt_le_weak, Qnot_le_lt.
  intros Hle. apply Qle_bool_iff in Hle. congruence.
Qed.

Lemma Zleb_total (x y : Z) : (x <=? y) = false -> (y <=? x) = true.
Proof. intros H. apply Z.leb_gt in H. apply Z.leb_le. lia. Qed.

Lemma Qsort_sorted (xs : list Q) : Sorted Qle (Reduce.Qsort xs).
Proof.
  eapply Sorted_ind with (R := fun x y => Qle_bool x y = true)
                         (P := fun l => Sorted Qle l).
  - constructor.
  - intros a l _ IH Hhd. constructor; [exact IH|].
    destruct Hhd; constructor. apply Qle_bool_iff; assumption.
  - apply sort_sorted, Qle_bool_total.
Qed.

Lemma Zsort_sorted (xs : list Z) : Sorted Z.le (Reduce.Zsort xs).
Proof.
  eapply Sorted_ind with (R := fun x y => (x <=? y) = true)
                         (P := fun l => Sorted Z.le l).
  - constructor.
  - intros a l _ IH Hhd. constructor; [exact IH|].
    destruct Hhd; constructor. apply Z.leb_le; assumption.
  - apply sort_sorted, Zleb_total.
Qed.

Lemma Qsort_perm (xs : list Q) : Permutation (Reduce.Qsort xs) xs.
Proof. apply sort_perm. Qed.

Lemma Zsort_perm (xs : list Z) : Permutation (Reduce.Zsort xs) xs.
Proof. apply sort_perm. Qed.

Lemma Qsort_length (xs : list Q) :
  List.length (Reduce.Qsort xs) = List.length xs.
Proof. apply sort_length. Qed.

Lemma Zsort_length (xs : list Z) :
  List.length (Reduce.Zsort xs) = List.length xs.
Proof. apply sort_length. Qed.

(** The head of a sorted sequence is its minimum. *)
Lemma sorted_Q_head_min (x : Q) (xs : list Q) :
  Sorted Qle (x :: xs) -> forall y, In y (x :: xs) -> (x <= y)%Q.
Proof.
  intros Hs y Hy.
  apply Sorted_StronglySorted in Hs; [|intros a b c; apply Qle_trans].
  inversion Hs as [|? ? _ Hall]; subst.
  destruct Hy as [<-|Hy]; [apply Qle_refl|].
  rewrite Forall_forall in Hall. apply Hall, Hy.
Qed.

Lemma sorted_Z_head_min (x : Z) (xs : list Z) :
  Sorted Z.le (x :: xs) -> forall y, In y (x :: xs) -> x <= y.
Proof.
  intros Hs y Hy.
  apply Sorted_StronglySorted in Hs; [|intros a b c; apply Z.le_trans].
  inversion Hs as [|? ? _ Hall]; subst.
  destruct Hy as [<-|Hy]; [lia|].
  rewrite Forall_forall in Hall. apply Hall, Hy.
Qed.

(** ** Sums and means *)

Lemma fold_left_Qplus (xs : list Q) (a : Q) :
  (fold_left Qplus xs a == a + sum_Q xs)%Q.
Proof.
  revert a. induction xs as [|x xs IH]; intros a; simpl.
  - ring.
  - rewrite IH. unfold sum_Q. ring.
Qed.

Lemma sum_Q_inject (xs : list Z) :
  (sum_Q (map inject_Z xs) == inject_Z (sum_Z xs))%Q.
Proof.
  induction xs as [|x xs IH]; simpl.
  - reflexivity.
  - rewrite IH, inject_Z_plus. reflexivity.
Qed.

Lemma mean_times_length (xs : list Q) :
  xs <> [] ->
  (Reduce.mean xs * inject_Z (Z.of_nat (List.length xs)) == sum_Q xs)%Q.
Proof.
  intros Hne. unfold Reduce.mean.
  assert (Hl : ~ (inject_Z (Z.of_nat (List.length xs)) == 0)%Q).
  { destruct xs as [|x xs]; [congruence|].
    unfold Qeq; simpl. lia. }
  rewrite fold_left_Qplus. field. exact Hl.
Qed.

(** An index [L / k] with [2 <= k] is inside a sequence of length [L >= 1]. *)
Lemma at_fraction_ok {A : Type} (xs : list A) (k : nat) :
  xs <> [] -> (2 <= k)%nat ->
  exists x, Reduce.at_fraction xs k = Ok x
            /\ nth_error xs (List.length xs / k) = Some x.
Proof.
  intros Hne Hk. unfold Reduce.at_fraction, PyList.getitem.
  destruct (nth_error xs (List.length xs / k)) as [x|] eqn:Hn.
  - exists x; split; reflexivity.
  - apply nth_error_None in Hn.
    assert (0 < List.length xs)%nat by (destruct xs; [congruence|simpl; lia]).
    assert (List.length xs / k < List.length xs)%nat
      by (apply Nat.div_lt; lia).
    lia.
Qed.

(** ** The reductions *)

Lemma final_times_ok (ts : list Q) :
  ts <> [] ->
  exists median perc1 perc5 perc10,
    Reduce.final_times ts
    = Ok [("avg", Reduce.mean ts); ("median", median); ("perc1", perc1);
          ("perc5", perc5); ("perc10", perc10)]
    /\ nth_error ts (List.length ts / 2) = Some median
    /\ nth_error ts (List.length ts / 100) = Some perc1
    /\ nth_error ts (List.length ts / 20) = Some perc5
    /\ nth_error ts (List.length ts / 10) = Some perc10.
Proof.
  intros Hne. unfold Reduce.final_times.
  destruct (at_fraction_ok ts 2 Hne) as (x2 & -> & H2); [lia|].
  destruct (at_fraction_ok ts 100 Hne) as (x100 & -> & H100); [lia|].
  destruct (at_fraction_ok ts 20 Hne) as (x20 & -> & H20); [lia|].
  destruct (at_fraction_ok ts 10 Hne) as (x10 & -> & H10); [lia|].
  exists x2, x100, x20, x10. auto.
Qed.

Lemma final_memories_ok (ms : list Z) (first : Z) :
  ms <> [] ->
  exists median perc1 perc5 perc10,
    Reduce.final_memories ms first
    = Ok [("avg", Reduce.mean (map inject_Z ms)); ("median", inject_Z median);
          ("perc1", inject_Z perc1); ("perc5", inject_Z perc5);
          ("perc10", inject_Z perc10); ("first", inject_Z first)]
    /\ nth_error ms (List.length ms / 2) = Some median
    /\ nth_error ms (List.length ms / 100) = Some perc1
    /\ nth_error ms (List.length ms / 20) = Some perc5
    /\ nth_error ms (List.length ms / 10) = Some perc10.
Proof.
  intros Hne. unfold Reduce.final_memories.
  destruct (at_fraction_ok ms 2 Hne) as (x2 & -> & H2); [lia|].
  destruct (at_fraction_ok ms 100 Hne) as (x100 & -> & H100); [lia|].
  destruct (at_fraction_ok ms 20 Hne) as (x20 & -> & H20); [lia|].
  destruct (at_fraction_ok ms 10 Hne) as (x10 & -> & H10); [lia|].
  exists x2, x100, x20, x10. auto.
Qed.

(** On an empty sequence the dictionaries are not built: the first index
    raises. *)
Lemma final_times_empty : Reduce.final_times [] = Raise IndexError.
Proof. reflexivity. Qed.

(** C2. For a sample sequence of length L >= 1, sorted by the harness, the
    reductions pick the elements at the indices L//2 (median), L//100
    (perc1), L//20 (perc5) and L//10 (perc10); avg is the arithmetic mean
    of the whole sequence (avg * L = sum of the samples); for L < 100 the
    perc1 index is 0 and perc1 is the minimum of the samples. The same holds
    for the memory samples, whose dictionary also carries "first". *)
Theorem reduction_modes_select_by_index
    (all_times : list Q) (all_memories : list Z) (first_memory_used : Z) :
  all_times <> [] ->
  all_memories <> [] ->
  let ts := Reduce.Qsort all_times in
  let ms := Reduce.Zsort all_memories in
  let L := List.length all_times in
  let K := List.length all_memories in
  (Sorted Qle ts /\ Permutation ts all_times /\ List.length ts = L)
  /\ (Sorted Z.le ms /\ Permutation ms all_memories /\ List.length ms = K)
  /\ (exists d avg,
        Reduce.final_times ts = Ok d
        /\ selects_Q d "median" ts (L / 2)
        /\ selects_Q d "perc1" ts (L / 100)
        /\ selects_Q d "perc5" ts (L / 20)
        /\ selects_Q d "perc10" ts (L / 10)
        /\ PyDict.get d "avg" = Some avg
        /\ (avg * inject_Z (Z.of_nat L) == sum_Q all_times)%Q
        /\ ((L < 100)%nat ->
            exists m, PyDict.get d "perc1" = Some m
                      /\ nth_error ts 0 = Some m
                      /\ forall x, In x all_times -> (m <= x)%Q))
  /\ (exists d avg,
        Reduce.final_memories ms first_memory_used = Ok d
        /\ selects_Z d "median" ms (K / 2)
        /\ selects_Z d "perc1" ms (K / 100)
        /\ selects_Z d "perc5" ms (K / 20)
        /\ selects_Z d "perc10" ms (K / 10)
        /\ PyDict.get d "first" = Some (inject_Z first_memory_used)
        /\ PyDict.get d "avg" = Some avg
        /\ (avg * inject_Z (Z.of_nat K) == inject_Z (sum_Z all_memories))%Q
        /\ ((K < 100)%nat ->
            exists m, PyDict.get d "perc1" = Some (inject_Z m)
                      /\ nth_error ms 0 = Some m
                      /\ forall x, In x all_memories -> m <= x)).
Proof.
  intros Hts Hms ts ms L K.
  assert (HLt : List.length ts = L) by apply Qsort_length.
  assert (HKm : List.length ms = K) by apply Zsort_length.
  assert (Hts' : ts <> []).
  { intros E. rewrite E in HLt. destruct all_times; [congruence|discriminate]. }
  assert (Hms' : ms <> []).
  { intros E. rewrite E in HKm. destruct all_memories; [congruence|discriminate]. }
  split; [|split; [|split]].
  - split; [apply Qsort_sorted | split; [apply Qsort_perm | exact HLt]].
  - split; [apply Zsort_sorted | split; [apply Zsort_perm | exact HKm]].
  - destruct (final_times_ok ts Hts') as (x2 & x100 & x20 & x10 & E & H2 & H100 & H20 & H10).
    rewrite HLt in *.
    eexists; exists (Reduce.mean ts). split; [exact E|].
    split; [exists x2; auto|]. split; [exists x100; auto|].
    split; [exists x20; auto|]. split; [exists x10; auto|].
    split; [reflexivity|]. split.
    + rewrite <- HLt, mean_times_length by exact Hts'.
      clear -ts. subst ts.
      assert (P : Permutation (Reduce.Qsort all_times) all_times)
        by apply Qsort_perm.
      induction P; simpl; try reflexivity.
      * rewrite IHP. reflexivity.
      * ring.
      * rewrite IHP1. exact IHP2.
    + intros Hlt. exists x100. split; [reflexivity|].
      assert (E0 : (L / 100 = 0)%nat) by (apply Nat.div_small; exact Hlt).
      rewrite E0 in H100. split; [exact H100|].
      intros x Hx.
      assert (Hs : Sorted Qle ts) by apply Qsort_sorted.
      assert (Hin : In x ts).
      { eapply Permutation_in; [apply Permutation_sym, Qsort_perm | exact Hx]. }
      destruct ts as [|t0 ts0]; [discriminate|].
      simpl in H100. injection H100 as <-.
      eapply sorted_Q_head_min; eassumption.
  - destruct (final_memories_ok ms first_memory_used Hms')
      as (x2 & x100 & x20 & x10 & E & H2 & H100 & H20 & H10).
    rewrite HKm in *.
    eexists; exists (Reduce.mean (map inject_Z ms)). split; [exact E|].
    split; [exists x2; auto|]. split; [exists x100; auto|].
    split; [exists x20; auto|]. split; [exists x10; auto|].
    split; [reflexivity|]. split; [reflexivity|]. split.
    + assert (Hne : map inject_Z ms <> []).
      { destruct ms; [congruence|discriminate]. }
      pose proof (mean_times_length (map inject_Z ms) Hne) as Hm.
      rewrite length_map, HKm in Hm. rewrite Hm, sum_Q_inject.
      assert (P : Permutation ms all_memories) by apply Zsort_perm.
      assert (Es : sum_Z ms = sum_Z all_memories).
      { clear -P. induction P; simpl; lia. }
      rewrite Es. reflexivity.
    + intros Hlt. exists x100. split; [reflexivity|].
      assert (E0 : (K / 100 = 0)%nat) by (apply Nat.div_small; exact Hlt).
      rewrite E0 in H100. split; [exact H100|].
      intros x Hx.
      assert (Hs : Sorted Z.le ms) by apply Zsort_sorted.
      assert (Hin : In x ms).
      { eapply Permutation_in; [apply Permutation_sym, Zsort_perm | exact Hx]. }
      destruct ms as [|t0 ts0]; [discriminate|].
      simpl in H100. injection H100 as <-.
      eapply sorted_Z_head_min; eassumption.
Qed.

Lemma reduction_modes_select_by_index_witness :
  exists d,
    Reduce.final_times (Reduce.Qsort [3; 1; 2; 5; 4; 9; 8; 7; 6; 10]%Q) = Ok d
    /\ selects_Q d "median" (Reduce.Qsort [3; 1; 2; 5; 4; 9; 8; 7; 6; 10]%Q) 5
    /\ selects_Q d "perc1" (Reduce.Qsort [3; 1; 2; 5; 4; 9; 8; 7; 6; 10]%Q) 0.
Proof.
  destruct (reduction_modes_select_by_index
              [3; 1; 2; 5; 4; 9; 8; 7; 6; 10]%Q [7; 5] 0)
    as (_ & _ & (d & avg & E & Hmed & Hp1 & _) & _).
  - discriminate.
  - discriminate.
  - exists d. split; [exact E|]. split; [exact Hmed | exact Hp1].
Defined.

(** ** The monad *)

Lemma bind_inv {A B : Type} (c : M A) (k : A -> M B) (w w' : World)
    (r : result B) :
  bind c k w = (w', r) ->
  (exists w1 a, c w = (w1, Ok a) /\ k a w1 = (w', r))
  \/ (exists e, c w = (w', Raise e) /\ r = Raise e).
Proof.
  unfold bind. destruct (c w) as [w1 [a|e]]; intros H.
  - left. exists w1, a. auto.
  - right. exists e. inversion H; subst. auto.
Qed.

Lemma bind_ok {A B : Type} (c : M A) (k : A -> M B) (w w' : World) (b : B) :
  bind c k w = (w', Ok b) ->
  exists w1 a, c w = (w1, Ok a) /\ k a w1 = (w', Ok b).
Proof.
  intros H. apply bind_inv in H as [H|(e & _ & H)]; [exact H | discriminate].
Qed.

Lemma lift_ok {A : Type} (r : result A) (w w' : World) (a : A) :
  lift r w = (w', Ok a) -> w' = w /\ r = Ok a.
Proof. unfold lift. intros H. inversion H; subst. auto. Qed.

Lemma ret_ok {A : Type} (x a : A) (w w' : World) :
  ret x w = (w', Ok a) -> w' = w /\ a = x.
Proof. unfold ret. intros H. inversion H; subst. auto. Qed.

Lemma for_each_ext {A S : Type} (xs : list A) (f g : A -> S -> M S) :
  (forall x s w, f x s w = g x s w) ->
  forall s w, for_each xs f s w = for_each xs g s w.
Proof.
  intros E. induction xs as [|x xs IH]; intros s w; simpl.
  - reflexivity.
  - unfold bind. rewrite E. destruct (g x s w) as [w1 [s1|e]]; auto.
Qed.

(** ** Guarantees *)

Section Guarantee.

Variable G : World -> World -> Prop.
Hypothesis G_refl : forall w, G w w.
Hypothesis G_trans : forall a b c, G a b -> G b c -> G a c.

Lemma spec_ret {A : Type} (a : A) (Q : A -> Prop) : Q a -> spec G (ret a) Q.
Proof.
  intros HQ w w' r H. unfold ret in H. inversion H; subst.
  split; [apply G_refl|]. intros a' E. inversion E; subst. exact HQ.
Qed.

Lemma spec_raise {A : Type} (e : exn) (Q : A -> Prop) : spec G (raise e) Q.
Proof.
  intros w w' r H. unfold raise in H. inversion H; subst.
  split; [apply G_refl | discriminate].
Qed.

Lemma spec_lift {A : Type} (r : result A) (Q : A -> Prop) :
  (forall a, r = Ok a -> Q a) -> spec G (lift r) Q.
Proof.
  intros HQ w w' r' H. unfold lift in H. inversion H; subst.
  split; [apply G_refl | exact HQ].
Qed.

Lemma spec_assert (b : bool) (Q : unit -> Prop) :
  (b = true -> Q tt) -> spec G (assert b) Q.
Proof.
  intros HQ. unfold assert. destruct b.
  - apply spec_ret. auto.
  - apply spec_raise.
Qed.

Lemma spec_bind {A B : Type} (c : M A) (k : A -> M B) (Q : A -> Prop)
    (R : B -> Prop) :
  spec G c Q -> (forall a, Q a -> spec G (k a) R) -> spec G (bind c k) R.
Proof.
  intros Hc Hk w w' r H.
  apply bind_inv in H as [(w1 & a & Hc1 & Hk1)|(e & Hc1 & ->)].
  - destruct (Hc _ _ _ Hc1) as [G1 Q1].
    destruct (Hk a (Q1 a eq_refl) _ _ _ Hk1) as [G2 R2].
    split; [eapply G_trans; eassumption | exact R2].
  - destruct (Hc _ _ _ Hc1) as [G1 _]. split; [exact G1 | discriminate].
Qed.

Lemma spec_weaken {A : Type} (c : M A) (Q R : A -> Prop) :
  spec G c Q -> (forall a, Q a -> R a) -> spec G c R.
Proof.
  intros Hc HQR w w' r H. destruct (Hc _ _ _ H) as [G1 Q1].
  split; [exact G1 | intros a E; apply HQR, Q1, E].
Qed.

Lemma spec_for_each {A S : Type} (I : S -> Prop) (body : A -> S -> M S)
    (xs : list A) :
  (forall x s, In x xs -> I s -> spec G (body x s) I) ->
  forall s, I s -> spec G (for_each xs body s) I.
Proof.
  induction xs as [|x xs IH]; intros Hb s Hs; simpl.
  - apply spec_ret, Hs.
  - eapply spec_bind.
    + apply Hb; [left; reflexivity | exact Hs].
    + intros s' Hs'. apply IH; [|exact Hs'].
      intros y t Hy. apply Hb. right; exact Hy.
Qed.

Lemma spec_for_each_seq {S : Type} (I : nat -> S -> Prop)
    (body : nat -> S -> M S) (n : nat) :
  forall start s,
    (forall i t, (start <= i < start + n)%nat -> I i t ->
                 spec G (body i t) (I (Datatypes.S i))) ->
    I start s ->
    spec G (for_each (seq start n) body s) (I (start + n)%nat).
Proof.
  induction n as [|n IH]; intros start s Hb Hs; simpl.
  - rewrite Nat.add_0_r. apply spec_ret, Hs.
  - eapply spec_bind.
    + apply Hb; [lia | exact Hs].
    + intros s' Hs'.
      replace (start + Datatypes.S n)%nat with (Datatypes.S start + n)%nat by lia.
      apply IH; [|exact Hs'].
      intros i t Hi. apply Hb. lia.
Qed.

End Guarantee.

Lemma spec_guarantee {A : Type} (G G' : World -> World -> Prop) (c : M A)
    (Q : A -> Prop) :
  (forall w w', G w w' -> G' w w') -> spec G c Q -> spec G' c Q.
Proof.
  intros HG Hc w w' r H. destruct (Hc _ _ _ H) as [G1 Q1].
  split; [apply HG, G1 | exact Q1].
Qed.

(** ** Footprints: the calls a statement makes *)

Lemma calls_only_refl (P : Call -> Prop) (w : World) : calls_only P w w.
Proof.
  split; [|auto]. exists []. rewrite app_nil_r.
  split; [reflexivity | constructor].
Qed.

Lemma calls_only_trans (P : Call -> Prop) (a b c : World) :
  calls_only P a b -> calls_only P b c -> calls_only P a c.
Proof.
  intros ((n1 & E1 & F1) & W1 & L1 & P1) ((n2 & E2 & F2) & W2 & L2 & P2).
  split; [|repeat split; congruence].
  exists (n1 ++ n2). split.
  - rewrite E2, E1, app_assoc. reflexivity.
  - apply Forall_app. split; assumption.
Qed.

Lemma calls_only_weaken (P P' : Call -> Prop) (w w' : World) :
  (forall c, P c -> P' c) -> calls_only P w w' -> calls_only P' w w'.
Proof.
  intros HP ((n & E & F) & Hrest). split; [|exact Hrest].
  exists n. split; [exact E|].
  eapply Forall_impl; [|exact F]. intros cr. apply HP.
Qed.

Lemma snapshots_app (a b : list (Call * Reply)) :
  snapshots (a ++ b) = snapshots a ++ snapshots b.
Proof.
  induction a as [|[c r] a IH]; simpl; [reflexivity|].
  destruct c; try exact IH. destruct r; try exact IH.
  simpl. rewrite IH. reflexivity.
Qed.

Lemma snapshots_none (P : Call -> Prop) (h : list (Call * Reply)) :
  (forall handle, ~ P (NvmlMemoryInfoUsed handle)) ->
  Forall (fun cr => P (fst cr)) h -> snapshots h = [].
Proof.
  intros HP. induction 1 as [|[c r] h Hc _ IH]; simpl; [reflexivity|].
  destruct c; try exact IH. exfalso. eapply HP, Hc.
Qed.

Section FootprintRules.

Variable P : Call -> Prop.

Lemma fp_ret {A : Type} (a : A) (Q : A -> Prop) :
  Q a -> spec (calls_only P) (ret a) Q.
Proof. apply spec_ret, calls_only_refl. Qed.

Lemma fp_raise {A : Type} (e : exn) (Q : A -> Prop) :
  spec (calls_only P) (raise e) Q.
Proof. apply spec_raise, calls_only_refl. Qed.

Lemma fp_lift {A : Type} (r : result A) (Q : A -> Prop) :
  (forall a, r = Ok a -> Q a) -> spec (calls_only P) (lift r) Q.
Proof. apply spec_lift, calls_only_refl. Qed.

Lemma fp_assert (b : bool) (Q : unit -> Prop) :
  (b = true -> Q tt) -> spec (calls_only P) (assert b) Q.
Proof. apply spec_assert, calls_only_refl. Qed.

Lemma fp_bind {A B : Type} (c : M A) (k : A -> M B) (Q : A -> Prop)
    (R : B -> Prop) :
  spec (calls_only P) c Q ->
  (forall a, Q a -> spec (calls_only P) (k a) R) ->
  spec (calls_only P) (bind c k) R.
Proof.
  intros Hc Hk.
  eapply spec_bind; eauto using calls_only_refl, calls_only_trans.
Qed.

Lemma fp_for_each {A S : Type} (I : S -> Prop) (body : A -> S -> M S)
    (xs : list A) :
  (forall x s, In x xs -> I s -> spec (calls_only P) (body x s) I) ->
  forall s, I s -> spec (calls_only P) (for_each xs body s) I.
Proof.
  intros Hb s0 Hs.
  eapply spec_for_each; eauto using calls_only_refl, calls_only_trans.
Qed.

Lemma fp_for_each_seq {S : Type} (I : nat -> S -> Prop)
    (body : nat -> S -> M S) (n start : nat) (s : S) :
  (forall i t, (start <= i < start + n)%nat -> I i t ->
               spec (calls_only P) (body i t) (I (Datatypes.S i))) ->
  I start s ->
  spec (calls_only P) (for_each (seq start n) body s) (I (start + n)%nat).
Proof.
  intros Hb Hs.
  eapply spec_for_each_seq; eauto using calls_only_refl, calls_only_trans.
Qed.

Lemma fp_weaken {A : Type} (P' : Call -> Prop) (c : M A) (Q : A -> Prop) :
  (forall x, P' x -> P x) -> spec (calls_only P') c Q -> spec (calls_only P) c Q.
Proof.
  intros HP. apply spec_guarantee. intros w w'. apply calls_only_weaken, HP.
Qed.

End FootprintRules.

Section Footprints.

Variable env : Env.
Variable P : Call -> Prop.

Let G := calls_only P.

Lemma call_history (c : Call) (w w' : World) (r : result Reply) :
  call env c w = (w', r) ->
  history w' = history w ++ [(c, answer env (history w) c)]
  /\ warnings w' = warnings w /\ files w' = files w /\ plots w' = plots w
  /\ (forall a, r = Ok a -> a = answer env (history w) c).
Proof.
  unfold call. intros H.
  destruct (answer env (history w) c) eqn:E; inversion H; subst; simpl;
    repeat split; try reflexivity; intros a Ha; inversion Ha; reflexivity.
Qed.

Lemma spec_call (c : Call) : P c -> spec G (call env c) (fun _ => True).
Proof.
  intros HP w w' r H. apply call_history in H as (Hh & Hw & Hf & Hp & _).
  split; [|auto]. split; [|auto].
  exists [(c, answer env (history w) c)].
  split; [exact Hh | repeat constructor; exact HP].
Qed.

Lemma spec_call_ (c : Call) : P c -> spec G (call_ env c) (fun _ => True).
Proof.
  intros HP. unfold call_. eapply fp_bind.
  - apply spec_call, HP.
  - intros. apply fp_ret; auto.
Qed.

Lemma spec_call_int (c : Call) : P c -> spec G (call_int env c) (fun _ => True).
Proof.
  intros HP. unfold call_int. eapply fp_bind.
  - apply spec_call, HP.
  - intros r _. destruct r;
      first [apply fp_ret | apply fp_raise]; auto.
Qed.

Lemma spec_call_float (c : Call) :
  P c -> spec G (call_float env c) (fun _ => True).
Proof.
  intros HP. unfold call_float. eapply fp_bind.
  - apply spec_call, HP.
  - intros r _. destruct r;
      first [apply fp_ret | apply fp_raise]; auto.
Qed.

Lemma spec_call_ints (c : Call) :
  P c -> spec G (call_ints env c) (fun _ => True).
Proof.
  intros HP. unfold call_ints. eapply fp_bind.
  - apply spec_call, HP.
  - intros r _. destruct r;
      first [apply fp_ret | apply fp_raise]; auto.
Qed.

Lemma spec_get_model (mname : string) (with_args : bool) :
  P (GetModel mname with_args) ->
  spec G (get_model env mname with_args)
       (fun m => m = {| model_name := mname; model_training := true;
                        model_device := Cpu; model_dtype := Float32 |}).
Proof.
  intros HP. unfold get_model. eapply fp_bind.
  - apply spec_call_, HP.
  - intros. apply fp_ret; auto.
Qed.

Lemma spec_model_eval (m : Model) :
  P (ModelEval m) ->
  spec G (model_eval env m)
       (fun m' => m' = {| model_name := model_name m; model_training := false;
                          model_device := model_device m;
                          model_dtype := model_dtype m |}).
Proof.
  intros HP. unfold model_eval. eapply fp_bind.
  - apply spec_call_, HP.
  - intros. apply fp_ret; auto.
Qed.

Lemma spec_model_cuda (m : Model) :
  P (ModelCuda m) ->
  spec G (model_cuda env m)
       (fun m' => m' = {| model_name := model_name m;
                          model_training := model_training m;
                          model_device := Cuda;
                          model_dtype := model_dtype m |}).
Proof.
  intros HP. unfold model_cuda. eapply fp_bind.
  - apply spec_call_, HP.
  - intros. apply fp_ret; auto.
Qed.

Lemma spec_model_half (m : Model) :
  P (ModelHalf m) ->
  spec G (model_half env m)
       (fun m' => m' = {| model_name := model_name m;
                          model_training := model_training m;
                          model_device := model_device m;
                          model_dtype := Float16 |}).
Proof.
  intros HP. unfold model_half. eapply fp_bind.
  - apply spec_call_, HP.
  - intros. apply fp_ret; auto.
Qed.

Lemma spec_model_cpu (m : Model) :
  P (ModelCpu m) -> spec G (model_cpu env m) (fun _ => True).
Proof.
  intros HP. unfold model_cpu. eapply fp_bind.
  - apply spec_call_, HP.
  - intros. apply fp_ret; auto.
Qed.

Lemma spec_torch_rand (shape : list Z) :
  P (Rand shape) ->
  spec G (torch_rand env shape)
       (fun t => t = {| tensor_shape := shape; tensor_device := Cpu;
                        tensor_dtype := Float32 |}).
Proof.
  intros HP. unfold torch_rand. eapply fp_bind.
  - apply spec_call_, HP.
  - intros. apply fp_ret; auto.
Qed.

Lemma spec_tensor_cuda (t : Tensor) :
  P (TensorCuda t) ->
  spec G (tensor_cuda env t)
       (fun t' => t' = {| tensor_shape := tensor_shape t;
                          tensor_device := Cuda;
                          tensor_dtype := tensor_dtype t |}).
Proof.
  intros HP. unfold tensor_cuda. eapply fp_bind.
  - apply spec_call_, HP.
  - intros. apply fp_ret; auto.
Qed.

Lemma spec_tensor_half (t : Tensor) :
  P (TensorHalf t) ->
  spec G (tensor_half env t)
       (fun t' => t' = {| tensor_shape := tensor_shape t;
                          tensor_device := tensor_device t;
                          tensor_dtype := Float16 |}).
Proof.
  intros HP. unfold tensor_half. eapply fp_bind.
  - apply spec_call_, HP.
  - intros. apply fp_ret; auto.
Qed.

End Footprints.

(** ** The trial: what it calls and what it collects *)

Section TrialFacts.

Variable env : Env.
Variable args : Args.
Variable device_handle : option nat.
Variable device_initial_used : option Z.
Variable with_args : bool.
Variable mname : string.
Variable input_size : list Z.
Variable dtype_str : string.

Lemma flat_map_repeat_length {A : Type} (k : nat) (xs : list A) :
  List.length (flat_map (fun x => repeat x k) xs) = (List.length xs * k)%nat.
Proof.
  induction xs as [|x xs IH]; simpl; [reflexivity|].
  rewrite length_app, repeat_length, IH. reflexivity.
Qed.

Lemma timed_forward_spec (model : Model) (i : nat) (time_vals : list Q) :
  model_name model = mname ->
  spec (calls_only (timing_call env mname))
       (timed_forward env args model input_size dtype_str i time_vals)
       (fun tv => List.length tv
                  = (List.length time_vals + if (0 <? i)%nat then 1 else 0)%nat).
Proof.
  intros Hn. unfold timed_forward.
  eapply fp_bind; [apply fp_lift; intros; exact I|]. intros h _.
  eapply fp_bind; [apply fp_lift; intros; exact I|]. intros w _.
  eapply fp_bind; [apply spec_torch_rand; exact I|]. intros images ->.
  eapply fp_bind with (Q := fun _ => True).
  { destruct (cuda_is_available env) eqn:Hc.
    - eapply fp_bind; [apply spec_tensor_cuda; simpl; exact Hc|]. intros t ->.
      destruct (String.eqb dtype_str "fp16").
      + eapply spec_weaken; [apply spec_tensor_half; exact Hc | auto].
      + apply fp_ret; auto.
    - apply fp_ret; auto. }
  intros images' _.
  eapply fp_bind with (Q := fun _ => True).
  { destruct (0 <? i)%nat; [apply spec_call_; exact I | apply fp_ret; auto]. }
  intros _ _.
  eapply fp_bind; [apply spec_call_; simpl; exact Hn|]. intros _ _.
  destruct (0 <? i)%nat.
  - eapply fp_bind; [apply spec_call_float; exact I|]. intros total _.
    eapply fp_bind; [apply fp_lift; intros; exact I|]. intros t _.
    apply fp_ret. rewrite length_app. simpl. lia.
  - apply fp_ret. lia.
Qed.

(** The inner loop makes [num_samples + 1] forward calls and keeps the
    timing of all but the first. *)
Lemma estimate_inference_time_spec (model : Model) :
  model_name model = mname ->
  spec (calls_only (timing_call env mname))
       (estimate_inference_time env args model input_size dtype_str)
       (fun tv => List.length tv = Z.to_nat (num_samples args)).
Proof.
  intros Hn. unfold estimate_inference_time, range.
  eapply spec_weaken.
  - apply fp_for_each_seq
      with (I := fun i tv => List.length tv = (i - 1)%nat).
    + intros i tv _ Hl. eapply spec_weaken; [apply timed_forward_spec, Hn|].
      intros tv' Hl'. simpl in Hl'. rewrite Hl', Hl.
      destruct i as [|i]; simpl; lia.
    + reflexivity.
  - intros tv Hl. simpl in Hl. rewrite Hl. lia.
Qed.

Lemma timing_is_repetition_call (c : Call) :
  timing_call env mname c -> repetition_call env device_handle mname c.
Proof. destruct c; simpl; tauto. Qed.

Lemma repetition_is_trial_call (c : Call) :
  repetition_call env device_handle mname c ->
  trial_call env device_handle mname c.
Proof. destruct c; simpl; tauto. Qed.

Lemma repetition_spec (irep : nat) (l : Locals) :
  spec (calls_only (repetition_call env device_handle mname))
       (repetition env args device_handle device_initial_used with_args mname
                   input_size dtype_str irep l)
       (fun l' =>
          let k := if (0 <? irep)%nat then Z.to_nat (num_samples args) else O in
          List.length (all_times l') = (List.length (all_times l) + k)%nat
          /\ (device_handle <> None ->
              exists delta,
                all_memories l'
                = all_memories l
                  ++ (if (0 <? irep)%nat
                      then repeat delta (Z.to_nat (num_samples args))
                      else []))
          /\ ((0 < irep)%nat -> first_memory_used l' = first_memory_used l)
          /\ model_params l' <> None
          /\ (exists repetition_times,
                List.length repetition_times = Z.to_nat (num_samples args)
                /\ all_times l'
                   = all_times l
                     ++ (if (0 <? irep)%nat then repetition_times else []))).
Proof.
  unfold repetition.
  eapply fp_bind; [apply spec_call_; exact I|]. intros _ _.
  eapply fp_bind; [apply spec_call_; exact I|]. intros _ _.
  eapply fp_bind with (Q := fun _ => True).
  { destruct (pynvml_imported env) eqn:Hp; [|apply fp_ret; auto].
    destruct device_handle as [handle|]; [|apply fp_ret; auto].
    eapply fp_bind; [apply spec_call_int; simpl; auto|].
    intros. apply fp_ret; auto. }
  intros start _.
  eapply fp_bind; [apply spec_get_model; reflexivity|]. intros m ->.
  eapply fp_bind; [apply spec_model_eval; reflexivity|]. intros m ->. simpl.
  eapply fp_bind with (Q := fun m => model_name m = mname).
  { destruct (cuda_is_available env) eqn:Hc; [|apply fp_ret; reflexivity].
    eapply fp_bind; [apply spec_model_cuda; simpl; auto|]. intros m ->.
    destruct (String.eqb dtype_str "fp16").
    - eapply spec_weaken; [apply spec_model_half; simpl; auto|].
      intros m ->. reflexivity.
    - apply fp_ret. reflexivity. }
  intros model Hn.
  eapply fp_bind; [apply spec_call_int; exact Hn|]. intros params _.
  eapply fp_bind.
  { eapply fp_weaken; [apply timing_is_repetition_call|].
    apply estimate_inference_time_spec, Hn. }
  intros repetition_times Hlen. simpl in Hlen.
  eapply fp_bind
    with (Q := fun mem =>
                 (device_handle <> None ->
                  exists delta,
                    fst mem
                    = all_memories l
                      ++ (if (0 <? irep)%nat
                          then repeat delta (Z.to_nat (num_samples args))
                          else []))
                 /\ ((0 < irep)%nat -> snd mem = first_memory_used l)).
  { destruct device_handle as [handle|].
    - eapply fp_bind with (Q := fun _ => True).
      { destruct (pynvml_imported env) eqn:Hp;
          [apply spec_call_int; simpl; auto | apply fp_raise]. }
      intros used _.
      eapply fp_bind; [apply fp_lift; intros; exact I|]. intros start_used _.
      destruct (0 <? irep)%nat eqn:Hi.
      + apply fp_ret. simpl. split; [|reflexivity].
        intros _. exists (used - start_used). reflexivity.
      + eapply fp_bind; [apply fp_lift; intros; exact I|]. intros initial _.
        apply fp_ret. simpl. split.
        * intros _. exists 0. rewrite app_nil_r. reflexivity.
        * intros Hpos. apply Nat.ltb_ge in Hi. lia.
    - apply fp_ret. simpl. split; [congruence | reflexivity]. }
  intros mem [Hmem Hfirst].
  eapply fp_bind; [apply spec_model_cpu; exact Hn|]. intros _ _.
  apply fp_ret. simpl.
  split; [|split; [exact Hmem | split; [exact Hfirst | split; [discriminate|]]]].
  - destruct (0 <? irep)%nat; [rewrite length_app|]; lia.
  - exists repetition_times. split; [exact Hlen|].
    destruct (0 <? irep)%nat; [reflexivity | rewrite app_nil_r; reflexivity].
Qed.

(** After [n] repetitions the trial holds the samples of all of them but
    the warm-up. *)
Lemma repetitions_spec (n : nat) :
  spec (calls_only (repetition_call env device_handle mname))
       (for_each (seq 0 n)
                 (repetition env args device_handle device_initial_used
                             with_args mname input_size dtype_str)
                 fresh_locals)
       (fun l =>
          List.length (all_times l)
          = ((n - 1) * Z.to_nat (num_samples args))%nat
          /\ (device_handle <> None ->
              exists deltas,
                List.length deltas = (n - 1)%nat
                /\ all_memories l
                   = flat_map (fun delta =>
                                 repeat delta (Z.to_nat (num_samples args)))
                              deltas)
          /\ ((1 <= n)%nat -> model_params l <> None)
          /\ (exists chunks,
                List.length chunks = (n - 1)%nat
                /\ Forall (fun chunk =>
                             List.length chunk = Z.to_nat (num_samples args))
                          chunks
                /\ all_times l = List.concat chunks)).
Proof.
  eapply spec_weaken.
  - apply fp_for_each_seq
      with (I := fun i l =>
                   List.length (all_times l)
                   = ((i - 1) * Z.to_nat (num_samples args))%nat
                   /\ (device_handle <> None ->
                       exists deltas,
                         List.length deltas = (i - 1)%nat
                         /\ all_memories l
                            = flat_map
                                (fun delta =>
                                   repeat delta (Z.to_nat (num_samples args)))
                                deltas)
                   /\ ((1 <= i)%nat -> model_params l <> None)
                   /\ (exists chunks,
                         List.length chunks = (i - 1)%nat
                         /\ Forall
                              (fun chunk =>
                                 List.length chunk
                                 = Z.to_nat (num_samples args)) chunks
                         /\ all_times l = List.concat chunks)).
    + intros i l _ (Ht & Hm & _ & (chunks & Hcl & Hcf & Hcc)).
      eapply spec_weaken; [apply repetition_spec|].
      intros l' (Ht' & Hm' & _ & Hp' & (rt & Hrl & Hrt)). simpl in Ht', Hm'.
      split; [|split; [|split; [intros _; exact Hp'|]]];
        [| |destruct i as [|i]; cbn [Nat.ltb Nat.leb] in Hrt;
            [exists chunks; rewrite Hrt, app_nil_r; auto|];
            exists (chunks ++ [rt]); split; [rewrite length_app; simpl; lia|];
            split; [apply Forall_app; split; [exact Hcf | repeat constructor; exact Hrl]|];
            rewrite concat_app, Hrt, Hcc; simpl; rewrite app_nil_r; reflexivity].
      * rewrite Ht', Ht. destruct i as [|i]; simpl; nia.
      * intros Hd. destruct (Hm' Hd) as (delta & Hdelta).
        destruct (Hm Hd) as (deltas & Hdl & Hds).
        destruct i as [|i]; simpl in *.
        -- exists deltas. rewrite Hdelta, app_nil_r. auto.
        -- destruct i as [|i]; simpl in *.
           ++ exists [delta]. 
              destruct deltas; [|discriminate]. simpl in Hds.
              rewrite Hdelta, Hds. simpl. rewrite app_nil_r. auto.
           ++ exists (deltas ++ [delta]). split.
              ** rewrite length_app. simpl. lia.
              ** rewrite flat_map_app, Hdelta, Hds. simpl.
                 rewrite app_nil_r. reflexivity.
    + simpl. split; [reflexivity | split; [|split; [lia|]]].
      * intros _. exists []. auto.
      * exists []. auto.
  - intros l H. exact H.
Qed.

Lemma count_flops_spec (P : Call -> Prop) (model : Model) (images : Tensor) :
  P (ProfiledForward model images) ->
  spec (calls_only P) (count_flops env model images) (fun _ => True).
Proof.
  intros HP. unfold count_flops.
  eapply fp_bind; [apply spec_call_ints, HP|]. intros. apply fp_ret; auto.
Qed.

Lemma final_times_nonempty (ts : list Q) (d : PyDict.t Q) :
  Reduce.final_times ts = Ok d -> ts <> [].
Proof. intros H E. subst ts. discriminate. Qed.

Lemma repetitions_trial_spec :
  spec (calls_only (repetition_call env device_handle mname))
       (repetitions env args device_handle device_initial_used with_args
                    mname input_size dtype_str)
       (fun l =>
          let n := Z.to_nat (num_trials args + 1) in
          List.length (all_times l)
          = ((n - 1) * Z.to_nat (num_samples args))%nat
          /\ (device_handle <> None ->
              exists deltas,
                List.length deltas = (n - 1)%nat
                /\ all_memories l
                   = flat_map (fun delta =>
                                 repeat delta (Z.to_nat (num_samples args)))
                              deltas)
          /\ ((1 <= n)%nat -> model_params l <> None)
          /\ (exists chunks,
                List.length chunks = (n - 1)%nat
                /\ Forall (fun chunk =>
                             List.length chunk = Z.to_nat (num_samples args))
                          chunks
                /\ all_times l = List.concat chunks)).
Proof. unfold repetitions, range. apply repetitions_spec. Qed.

Lemma estimate_flops_spec :
  spec (calls_only (trial_call env device_handle mname))
       (estimate_flops env with_args mname input_size dtype_str)
       (fun _ => exists h w, PyList.getitem input_size 0 = Ok h
                             /\ PyList.getitem input_size 1 = Ok w).
Proof.
  unfold estimate_flops.
  eapply fp_bind; [apply spec_get_model; reflexivity|]. intros m ->.
  eapply fp_bind; [apply spec_model_eval; reflexivity|]. intros m ->. simpl.
  eapply fp_bind; [apply fp_lift; intros a Ha; exact Ha|]. intros h Hh.
  eapply fp_bind; [apply fp_lift; intros a Ha; exact Ha|]. intros w Hw.
  eapply fp_bind; [apply spec_torch_rand; exact I|]. intros images ->.
  eapply fp_bind with (Q := fun mi => model_name (fst mi) = mname).
  { destruct (cuda_is_available env) eqn:Hc; [|apply fp_ret; reflexivity].
    eapply fp_bind; [apply spec_model_cuda; simpl; auto|]. intros m ->.
    eapply fp_bind; [apply spec_tensor_cuda; simpl; auto|]. intros t ->.
    destruct (String.eqb dtype_str "fp16").
    - eapply fp_bind; [apply spec_model_half; simpl; auto|]. intros m ->.
      eapply fp_bind; [apply spec_tensor_half; simpl; auto|]. intros t ->.
      apply fp_ret. reflexivity.
    - apply fp_ret. reflexivity. }
  intros mi Hmi.
  eapply spec_weaken; [apply count_flops_spec; exact Hmi|].
  intros _ _. exists h, w. auto.
Qed.

Lemma trial_spec :
  spec (calls_only (trial_call env device_handle mname))
       (trial env args device_handle device_initial_used with_args mname
              input_size dtype_str)
       (trial_post args device_handle input_size).
Proof.
  unfold trial.
  eapply fp_bind.
  { eapply fp_weaken; [apply repetition_is_trial_call|].
    apply repetitions_trial_spec. }
  intros l (Ht & Hm & Hp & (chunks & Hcl & Hcf & Hcc)).
  eapply fp_bind; [apply estimate_flops_spec|]. intros flops (h & w & Hh & Hw).
  eapply fp_bind; [apply fp_lift; intros a Ha; exact Ha|]. intros ft Hft.
  eapply fp_bind; [apply fp_lift; intros a Ha; exact Ha|]. intros fm Hfm.
  apply fp_ret. unfold trial_post; simpl.
  pose proof (final_times_nonempty _ _ Hft) as Hne.
  assert (Hlen : List.length (all_times l)
                 = (Z.to_nat (num_trials args) * Z.to_nat (num_samples args))%nat).
  { rewrite Ht. f_equal. lia. }
  assert (Hpos : (0 < Z.to_nat (num_trials args)
                      * Z.to_nat (num_samples args))%nat).
  { rewrite <- Hlen. rewrite <- (Qsort_length (all_times l)).
    destruct (Reduce.Qsort (all_times l)); [congruence | simpl; lia]. }
  split; [rewrite Qsort_length; exact Hlen|].
  split.
  { intros Hd. rewrite Zsort_length.
    destruct (Hm Hd) as (deltas & Hdl & Hds).
    assert (Hml : List.length (all_memories l)
                  = (Z.to_nat (num_trials args)
                     * Z.to_nat (num_samples args))%nat).
    { rewrite Hds, flat_map_repeat_length, Hdl. f_equal. lia. }
    destruct (List.length (all_memories l) =? 0)%nat eqn:E.
    - apply Nat.eqb_eq in E. lia.
    - split; [exact Hml|]. exists deltas. split; [lia|].
      rewrite Hds. reflexivity. }
  split; [exact Hpos|].
  split; [apply Hp; lia|].
  split; [exists h, w; auto|].
  split; [exact Hft|]. split; [exact Hfm|].
  exists chunks. split; [lia|]. split; [exact Hcf|]. rewrite Hcc. reflexivity.
Qed.

End TrialFacts.

(** ** The forward calls of a trial *)

Lemma forward_calls_app (a b : list (Call * Reply)) :
  forward_calls (a ++ b) = (forward_calls a + forward_calls b)%nat.
Proof. unfold forward_calls. rewrite filter_app, length_app. reflexivity. Qed.

Lemma forwarded_trans (n m : nat) (a b c : World) :
  forwarded n a b -> forwarded m b c -> forwarded (n + m) a c.
Proof.
  intros (n1 & E1 & S1) (n2 & E2 & S2). exists (n1 ++ n2). split.
  - rewrite E2, E1, app_assoc. reflexivity.
  - rewrite forward_calls_app, S1, S2. reflexivity.
Qed.

Lemma forwarded_refl (w : World) : forwarded 0 w w.
Proof. exists []. rewrite app_nil_r. auto. Qed.

Lemma forwarded_quiet (P : Call -> Prop) (w w' : World) :
  (forall c, P c -> not_forward c) -> calls_only P w w' -> forwarded 0 w w'.
Proof.
  intros HP ((new & E & F) & _). exists new. split; [exact E|].
  unfold forward_calls. clear E.
  induction F as [|[c r] h Hc _ IH]; [reflexivity|].
  simpl. unfold is_forward at 1. simpl.
  apply HP in Hc. destruct c; simpl in Hc; try exact IH. contradiction.
Qed.

Lemma call_forward (env : Env) (m : Model) (t : Tensor) (w w' : World)
    (u : unit) :
  call_ env (Forward m t) w = (w', Ok u) -> forwarded 1 w w'.
Proof.
  unfold call_. intros H.
  apply bind_ok in H as (w1 & r & Hc & Hr). apply ret_ok in Hr as [-> _].
  apply call_history in Hc as (Hh & _).
  eexists. split; [exact Hh | reflexivity].
Qed.

Lemma for_each_forwarded {A S : Type} (k : nat) (body : A -> S -> M S)
    (xs : list A) :
  (forall x s w w' s', body x s w = (w', Ok s') -> forwarded k w w') ->
  forall s w w' s',
    for_each xs body s w = (w', Ok s') ->
    forwarded (List.length xs * k) w w'.
Proof.
  intros Hb. induction xs as [|x xs IH]; intros s w w' s' H; simpl in *.
  - apply ret_ok in H as [-> _]. apply forwarded_refl.
  - apply bind_ok in H as (w1 & s1 & H1 & H).
    eapply forwarded_trans; [eapply Hb; exact H1 | eapply IH; exact H].
Qed.

Section ForwardCalls.

Variable env : Env.
Variable args : Args.
Variable device_handle : option nat.
Variable device_initial_used : option Z.
Variable with_args : bool.
Variable mname : string.
Variable input_size : list Z.
Variable dtype_str : string.

Let quiet (a b : World) : calls_only not_forward a b -> forwarded 0 a b :=
  forwarded_quiet not_forward a b (fun c H => H).

(** One turn of the inner loop that completes makes one forward call,
    timed or not. *)
Lemma timed_forward_forwarded (model : Model) (i : nat) (time_vals tv : list Q)
    (w w' : World) :
  timed_forward env args model input_size dtype_str i time_vals w
  = (w', Ok tv) ->
  forwarded 1 w w'.
Proof.
  unfold timed_forward. intros H.
  apply bind_ok in H as (w1 & h & Hh & H). apply lift_ok in Hh as [-> _].
  apply bind_ok in H as (w1 & wd & Hw & H). apply lift_ok in Hw as [-> _].
  apply bind_ok in H as (w1 & images & H1 & H).
  destruct (spec_torch_rand env not_forward _ I _ _ _ H1) as [G1 _].
  apply bind_ok in H as (w2 & images' & H2 & H).
  assert (G2 : calls_only not_forward w1 w2).
  { assert (S : spec (calls_only not_forward)
                     (if cuda_is_available env
                      then images0 <- tensor_cuda env images ;;
                           (if String.eqb dtype_str "fp16"
                            then tensor_half env images0 else ret images0)
                      else ret images) (fun _ => True)).
    { destruct (cuda_is_available env); [|apply fp_ret; auto].
      eapply fp_bind; [apply spec_tensor_cuda; exact I|]. intros t _.
      destruct (String.eqb dtype_str "fp16");
        [eapply spec_weaken; [apply spec_tensor_half; exact I | auto]
        | apply fp_ret; auto]. }
    apply (S _ _ _ H2). }
  apply bind_ok in H as (w3 & ? & H3 & H).
  assert (G3 : calls_only not_forward w2 w3).
  { destruct (0 <? i)%nat.
    - apply (spec_call_ env not_forward TimerResetTic I _ _ _ H3).
    - apply ret_ok in H3 as [-> _]. apply calls_only_refl. }
  apply bind_ok in H as (w4 & ? & H4 & H).
  apply call_forward in H4.
  assert (G5 : calls_only not_forward w4 w').
  { destruct (0 <? i)%nat.
    - apply bind_ok in H as (w5 & total & H5 & H).
      destruct (spec_call_float env not_forward TimerTocTotal I _ _ _ H5)
        as [G5 _].
      apply bind_ok in H as (w6 & t & H6 & H). apply lift_ok in H6 as [-> _].
      apply ret_ok in H as [-> _]. exact G5.
    - apply ret_ok in H as [-> _]. apply calls_only_refl. }
  apply quiet in G1, G2, G3, G5.
  exact (forwarded_trans _ _ _ _ _ G1
           (forwarded_trans _ _ _ _ _ G2
             (forwarded_trans _ _ _ _ _ G3
               (forwarded_trans _ _ _ _ _ H4 G5)))).
Qed.

(** The inner loop makes [num_samples + 1] forward calls. *)
Lemma estimate_inference_time_forwarded (model : Model) (tv : list Q)
    (w w' : World) :
  estimate_inference_time env args model input_size dtype_str w = (w', Ok tv) ->
  forwarded (Z.to_nat (num_samples args + 1)) w w'.
Proof.
  unfold estimate_inference_time, range. intros H.
  apply for_each_forwarded with (k := 1%nat) in H.
  - rewrite length_seq, Nat.mul_1_r in H. exact H.
  - intros i s w0 w0' s'. apply timed_forward_forwarded.
Qed.

(** A repetition makes the forward calls of its inner loop and no other. *)
Lemma repetition_forwarded (irep : nat) (l l' : Locals) (w w' : World) :
  repetition env args device_handle device_initial_used with_args mname
             input_size dtype_str irep l w = (w', Ok l') ->
  forwarded (Z.to_nat (num_samples args + 1)) w w'.
Proof.
  unfold repetition. intros H.
  apply bind_ok in H as (w1 & ? & H1 & H).
  pose proof (spec_call_ env not_forward EmptyCache I _ _ _ H1) as [G1 _].
  apply bind_ok in H as (w2 & ? & H2 & H).
  pose proof (spec_call_ env not_forward (Sleep (sleep_interval args)) I
                         _ _ _ H2) as [G2 _].
  apply bind_ok in H as (w3 & start & H3 & H).
  assert (G3 : calls_only not_forward w2 w3).
  { assert (S : spec (calls_only not_forward)
                     (match pynvml_imported env, device_handle with
                      | true, Some handle =>
                          used <- call_int env (NvmlMemoryInfoUsed handle) ;;
                          ret (Some used)
                      | _, _ => ret (device_start_rep_used l)
                      end) (fun _ => True)).
    { destruct (pynvml_imported env); [|apply fp_ret; auto].
      destruct device_handle as [handle|]; [|apply fp_ret; auto].
      eapply fp_bind; [apply spec_call_int; exact I|].
      intros. apply fp_ret; auto. }
    apply (S _ _ _ H3). }
  apply bind_ok in H as (w4 & m4 & H4 & H).
  pose proof (spec_get_model env not_forward mname with_args I _ _ _ H4)
    as [G4 _].
  apply bind_ok in H as (w5 & m5 & H5 & H).
  pose proof (spec_model_eval env not_forward m4 I _ _ _ H5) as [G5 _].
  apply bind_ok in H as (w6 & m6 & H6 & H).
  assert (G6 : calls_only not_forward w5 w6).
  { assert (S : spec (calls_only not_forward)
                     (if cuda_is_available env
                      then model <- model_cuda env m5 ;;
                           (if String.eqb dtype_str "fp16"
                            then model_half env model else ret model)
                      else ret m5) (fun _ => True)).
    { destruct (cuda_is_available env); [|apply fp_ret; auto].
      eapply fp_bind; [apply spec_model_cuda; exact I|]. intros m _.
      destruct (String.eqb dtype_str "fp16");
        [eapply spec_weaken; [apply spec_model_half; exact I | auto]
        | apply fp_ret; auto]. }
    apply (S _ _ _ H6). }
  apply bind_ok in H as (w7 & params & H7 & H).
  pose proof (spec_call_int env not_forward (CountParameters m6) I
                            _ _ _ H7) as [G7 _].
  apply bind_ok in H as (w8 & times & H8 & H).
  apply estimate_inference_time_forwarded in H8.
  apply bind_ok in H as (w9 & mem & H9 & H).
  assert (G9 : calls_only not_forward w8 w9).
  { assert (S : forall (k : Z -> M (list Z * Z)),
               (forall used, spec (calls_only not_forward) (k used)
                                  (fun _ => True)) ->
               spec (calls_only not_forward)
                    (match device_handle with
                     | Some handle =>
                         used <- (if pynvml_imported env
                                  then call_int env (NvmlMemoryInfoUsed handle)
                                  else raise AttributeError) ;;
                         k used
                     | None => ret (all_memories l, first_memory_used l)
                     end) (fun _ => True)).
    { intros k Hk. destruct device_handle as [handle|]; [|apply fp_ret; auto].
      eapply fp_bind with (Q := fun _ => True); [|intros; apply Hk].
      destruct (pynvml_imported env);
        [apply spec_call_int; exact I | apply fp_raise]. }
    refine (proj1 (S _ _ _ _ _ H9)).
    intros used.
    eapply fp_bind; [apply fp_lift; intros; exact I|]. intros start_used _.
    destruct (0 <? irep)%nat; [apply fp_ret; auto|].
    eapply fp_bind; [apply fp_lift; intros; exact I|]. intros.
    apply fp_ret; auto. }
  apply bind_ok in H as (w10 & ? & H10 & H).
  pose proof (spec_model_cpu env not_forward m6 I _ _ _ H10) as [G10 _].
  apply ret_ok in H as [-> _].
  apply quiet in G1, G2, G3, G4, G5, G6, G7, G9, G10.
  pose proof (forwarded_trans _ _ _ _ _ G1
               (forwarded_trans _ _ _ _ _ G2
                 (forwarded_trans _ _ _ _ _ G3
                   (forwarded_trans _ _ _ _ _ G4
                     (forwarded_trans _ _ _ _ _ G5
                       (forwarded_trans _ _ _ _ _ G6
                         (forwarded_trans _ _ _ _ _ G7
                           (forwarded_trans _ _ _ _ _ H8
                             (forwarded_trans _ _ _ _ _ G9 G10)))))))))
    as T.
  simpl in T. rewrite Nat.add_0_r in T. exact T.
Qed.

Lemma trial_call_setup_not_forward (c : Call) :
  flops_setup_call env mname c -> not_forward c.
Proof. destruct c; simpl; tauto. Qed.

(** A trial that completes has made [num_samples + 1] forward calls in each
    of its [num_trials + 1] repetitions. *)
Lemma trial_forwarded (w w' : World) (r : TrialResult) :
  trial env args device_handle device_initial_used with_args mname input_size
        dtype_str w = (w', Ok r) ->
  forwarded (Z.to_nat (num_trials args + 1) * Z.to_nat (num_samples args + 1))
            w w'.
Proof.
  unfold trial. intros H.
  apply bind_ok in H as (w1 & l & Hreps & H).
  apply bind_ok in H as (w2 & flops & Hflops & H).
  apply bind_ok in H as (w3 & ft & Hft & H). apply lift_ok in Hft as [-> _].
  apply bind_ok in H as (w3 & fm & Hfm & H). apply lift_ok in Hfm as [-> _].
  apply ret_ok in H as [-> _].
  unfold repetitions, range in Hreps.
  apply for_each_forwarded
    with (k := Z.to_nat (num_samples args + 1)) in Hreps;
    [|intros i s w0 w0' s'; apply repetition_forwarded].
  rewrite length_seq in Hreps.
  assert (Gf : forwarded 0 w1 w2).
  { assert (S : spec (calls_only (fun c => not_forward c))
                     (estimate_flops env with_args mname input_size dtype_str)
                     (fun _ => True)).
    { unfold estimate_flops.
      eapply fp_bind; [apply spec_get_model; exact I|]. intros m _.
      eapply fp_bind; [apply spec_model_eval; exact I|]. intros m' _.
      eapply fp_bind; [apply fp_lift; intros; exact I|]. intros h _.
      eapply fp_bind; [apply fp_lift; intros; exact I|]. intros wd _.
      eapply fp_bind; [apply spec_torch_rand; exact I|]. intros images _.
      eapply fp_bind with (Q := fun _ => True).
      { destruct (cuda_is_available env); [|apply fp_ret; auto].
        eapply fp_bind; [apply spec_model_cuda; exact I|]. intros m1 _.
        eapply fp_bind; [apply spec_tensor_cuda; exact I|]. intros t1 _.
        destruct (String.eqb dtype_str "fp16"); [|apply fp_ret; auto].
        eapply fp_bind; [apply spec_model_half; exact I|]. intros m2 _.
        eapply fp_bind; [apply spec_tensor_half; exact I|]. intros t2 _.
        apply fp_ret; auto. }
      intros mi _. apply count_flops_spec. exact I. }
    apply quiet. apply (S _ _ _ Hflops). }
  pose proof (forwarded_trans _ _ _ _ _ Hreps Gf) as T.
  rewrite Nat.add_0_r in T. exact T.
Qed.

End ForwardCalls.

(** ** C3: the number of samples of a trial *)

(** C3. A trial that completes without error has collected exactly
    numTrials * numSamples latency samples: numSamples from each of the
    numTrials repetitions after the warm-up (the inner loop of a repetition
    makes numSamples + 1 forward calls and keeps the timing of all but the
    first). With a device-memory probe it has collected as many memory
    samples: one delta per repetition after the warm-up, each repeated
    numSamples times. *)
Theorem trial_sample_counts
    (env : Env) (args : Args) (device_handle : option nat)
    (device_initial_used : option Z) (with_args : bool) (mname : string)
    (input_size : list Z) (dtype_str : string) (w w' : World)
    (r : TrialResult) :
  trial env args device_handle device_initial_used with_args mname input_size
        dtype_str w = (w', Ok r) ->
  Z.of_nat (List.length (tr_all_times r)) = num_trials args * num_samples args
  /\ (exists new,
        history w' = history w ++ new
        /\ Z.of_nat (forward_calls new)
           = (num_trials args + 1) * (num_samples args + 1))
  /\ (exists chunks,
        Z.of_nat (List.length chunks) = num_trials args
        /\ Forall (fun chunk =>
                     Z.of_nat (List.length chunk) = num_samples args) chunks
        /\ tr_all_times r = Reduce.Qsort (List.concat chunks))
  /\ (device_handle <> None ->
      Z.of_nat (List.length (tr_all_memories r))
      = num_trials args * num_samples args
      /\ List.length (tr_all_memories r) = List.length (tr_all_times r)
      /\ exists deltas,
           Z.of_nat (List.length deltas) = num_trials args
           /\ tr_all_memories r
              = Reduce.Zsort
                  (flat_map (fun delta =>
                               repeat delta (Z.to_nat (num_samples args)))
                            deltas)).
Proof.
  intros H.
  destruct (trial_spec env args device_handle device_initial_used with_args
                       mname input_size dtype_str _ _ _ H) as [_ HQ].
  destruct (HQ r eq_refl)
    as (Hl & Hm & Hpos & _ & _ & _ & _ & (chunks & Hcl & Hcf & Hcc)).
  assert (Hnt : 0 < num_trials args) by lia.
  assert (Hns : 0 < num_samples args) by lia.
  assert (E : Z.of_nat (Z.to_nat (num_trials args)
                        * Z.to_nat (num_samples args))
              = num_trials args * num_samples args).
  { rewrite Nat2Z.inj_mul, !Z2Nat.id by lia. reflexivity. }
  split; [rewrite Hl; exact E|].
  split.
  { destruct (trial_forwarded env args device_handle device_initial_used
                              with_args mname input_size dtype_str _ _ _ H)
      as (new & Eh & Ef).
    exists new. split; [exact Eh|].
    rewrite Ef, Nat2Z.inj_mul, !Z2Nat.id by lia. reflexivity. }
  split.
  { exists chunks. split; [rewrite Hcl; apply Z2Nat.id; lia|].
    split; [|exact Hcc].
    eapply Forall_impl; [|exact Hcf].
    intros chunk Hc. rewrite Hc. apply Z2Nat.id. lia. }
  intros Hd. destruct (Hm Hd) as (Hml & deltas & Hdl & Hds).
  split; [rewrite Hml; exact E|].
  split; [rewrite Hml, Hl; reflexivity|].
  exists deltas. split; [rewrite Hdl; apply Z2Nat.id; lia | exact Hds].
Qed.

Lemma trial_sample_counts_witness :
  exists w' r,
    trial sample_env sample_args (Some O) (Some 0) false "raft" [100; 200]
          "fp32" initial_world = (w', Ok r)
    /\ Z.of_nat (List.length (tr_all_times r)) = 2 * 5
    /\ List.length (tr_all_memories r) = List.length (tr_all_times r).
Proof.
  destruct (trial sample_env sample_args (Some O) (Some 0) false "raft"
                  [100; 200] "fp32" initial_world) as [w' [r|e]] eqn:E.
  - exists w', r. split; [reflexivity|].
    destruct (trial_sample_counts _ _ _ _ _ _ _ _ _ _ _ E) as (Ht & _ & _ & Hm).
    split; [exact Ht|]. apply Hm. discriminate.
  - vm_compute in E. discriminate.
Defined.

(** ** C1: the first-touch memory value *)

Lemma probed_trans (l1 l2 : list Z) (a b c : World) :
  probed l1 a b -> probed l2 b c -> probed (l1 ++ l2) a c.
Proof.
  intros (n1 & E1 & S1) (n2 & E2 & S2). exists (n1 ++ n2). split.
  - rewrite E2, E1, app_assoc. reflexivity.
  - rewrite snapshots_app, S1, S2. reflexivity.
Qed.

Lemma probed_quiet (P : Call -> Prop) (w w' : World) :
  (forall c, P c -> not_probe c) -> calls_only P w w' -> probed [] w w'.
Proof.
  intros HP ((new & E & F) & _). exists new. split; [exact E|].
  apply snapshots_none with (P := P); [|exact F].
  intros handle Hh. apply HP in Hh. exact Hh.
Qed.

Lemma probed_any (P : Call -> Prop) (w w' : World) :
  calls_only P w w' -> exists readings, probed readings w w'.
Proof.
  intros ((new & E & _) & _). exists (snapshots new), new. auto.
Qed.

Lemma call_int_probe (env : Env) (handle : nat) (w w' : World) (used : Z) :
  call_int env (NvmlMemoryInfoUsed handle) w = (w', Ok used) ->
  probed [used] w w'.
Proof.
  unfold call_int. intros H.
  apply bind_ok in H as (w1 & r & Hc & Hr).
  apply call_history in Hc as (Hh & _ & _ & _ & Ha).
  specialize (Ha r eq_refl).
  destruct r; try (unfold raise in Hr; discriminate).
  apply ret_ok in Hr as [-> ->].
  exists [(NvmlMemoryInfoUsed handle, ReturnsInt z)]. split.
  - rewrite Hh, <- Ha. reflexivity.
  - reflexivity.
Qed.

Lemma timing_not_probe (env : Env) (mname : string) (c : Call) :
  timing_call env mname c -> not_probe c.
Proof. destruct c; simpl; tauto. Qed.

Section FirstTouch.

Variable env : Env.
Variable args : Args.
Variable handle : nat.
Variable initial : Z.
Variable with_args : bool.
Variable mname : string.
Variable input_size : list Z.
Variable dtype_str : string.

Hypothesis probe_available : pynvml_imported env = true.

(** The warm-up repetition probes the memory twice, before the model is
    built and after the timing loop, and stores the second reading minus
    the reading taken when [benchmark] started. *)
Lemma warm_up_repetition (l l' : Locals) (w w' : World) :
  repetition env args (Some handle) (Some initial) with_args mname input_size
             dtype_str 0 l w = (w', Ok l') ->
  exists pre post,
    probed [pre; post] w w' /\ first_memory_used l' = post - initial.
Proof.
  unfold repetition. rewrite probe_available.
  change (0 <? 0)%nat with false. cbv iota.
  intros H.
  apply bind_ok in H as (w1 & ? & H1 & H).
  pose proof (spec_call_ env not_probe EmptyCache I _ _ _ H1) as [G1 _].
  apply bind_ok in H as (w2 & ? & H2 & H).
  pose proof (spec_call_ env not_probe (Sleep (sleep_interval args)) I
                          _ _ _ H2) as [G2 _].
  apply bind_ok in H as (w3 & start & H3 & H).
  apply bind_ok in H3 as (w3' & pre & H3 & H3r).
  apply ret_ok in H3r as [-> ->].
  apply call_int_probe in H3.
  apply bind_ok in H as (w4 & m4 & H4 & H).
  pose proof (spec_get_model env not_probe mname with_args I _ _ _ H4) as [G4 _].
  apply bind_ok in H as (w5 & m5 & H5 & H).
  pose proof (spec_model_eval env not_probe m4 I _ _ _ H5) as [G5 _].
  apply bind_ok in H as (w6 & m6 & H6 & H).
  assert (G6 : calls_only not_probe w5 w6).
  { assert (S : spec (calls_only not_probe)
                     (if cuda_is_available env
                      then model <- model_cuda env m5 ;;
                           (if String.eqb dtype_str "fp16"
                            then model_half env model else ret model)
                      else ret m5) (fun _ => True)).
    { destruct (cuda_is_available env); [|apply fp_ret; auto].
      eapply fp_bind; [apply spec_model_cuda; exact I|]. intros m _.
      destruct (String.eqb dtype_str "fp16");
        [eapply spec_weaken; [apply spec_model_half; exact I | auto]
        | apply fp_ret; auto]. }
    apply (S _ _ _ H6). }
  apply bind_ok in H as (w7 & params & H7 & H).
  pose proof (spec_call_int env not_probe (CountParameters m6) I
                             _ _ _ H7) as [G7 _].
  apply bind_ok in H as (w8 & times & H8 & H).
  assert (G8 : calls_only not_probe w7 w8).
  { assert (S : spec (calls_only (timing_call env (model_name m6)))
                     (estimate_inference_time env args m6 input_size dtype_str)
                     (fun tv => List.length tv = Z.to_nat (num_samples args)))
      by (apply estimate_inference_time_spec; reflexivity).
    destruct (S _ _ _ H8) as [G _].
    eapply calls_only_weaken; [apply timing_not_probe | exact G]. }
  apply bind_ok in H as (w9 & mem & H9 & H).
  apply bind_ok in H9 as (w9' & post & H9 & H9r).
  apply call_int_probe in H9.
  apply bind_ok in H9r as (w9'' & start_used & H9s & H9r).
  apply lift_ok in H9s as [-> _].
  apply bind_ok in H9r as (w9'' & init & H9i & H9r).
  apply lift_ok in H9i as [-> Hinit]. simpl in Hinit. injection Hinit as <-.
  apply ret_ok in H9r as [-> ->].
  apply bind_ok in H as (w10 & ? & H10 & H).
  pose proof (spec_model_cpu env not_probe m6 I _ _ _ H10) as [G10 _].
  apply ret_ok in H as [-> ->]. simpl.
  exists pre, post. split; [|reflexivity].
  assert (Q : forall a b, calls_only not_probe a b -> probed [] a b)
    by (intros a b; apply probed_quiet; auto).
  apply Q in G1, G2, G4, G5, G6, G7, G8, G10.
  pose proof (probed_trans _ _ _ _ _ G1
               (probed_trans _ _ _ _ _ G2
                 (probed_trans _ _ _ _ _ H3
                   (probed_trans _ _ _ _ _ G4
                     (probed_trans _ _ _ _ _ G5
                       (probed_trans _ _ _ _ _ G6
                         (probed_trans _ _ _ _ _ G7
                           (probed_trans _ _ _ _ _ G8
                             (probed_trans _ _ _ _ _ H9 G10)))))))))
    as T.
  exact T.
Qed.

Lemma later_repetitions_keep_first (n : nat) (l0 : Locals) :
  spec (calls_only (repetition_call env (Some handle) mname))
       (for_each (seq 1 n)
                 (repetition env args (Some handle) (Some initial) with_args
                             mname input_size dtype_str)
                 l0)
       (fun l => first_memory_used l = first_memory_used l0).
Proof.
  eapply spec_weaken.
  - apply fp_for_each_seq
      with (I := fun (_ : nat) l => first_memory_used l = first_memory_used l0).
    + intros i l Hi Hl. eapply spec_weaken; [apply repetition_spec|].
      intros l' (_ & _ & Hf & _). rewrite Hf, Hl; [reflexivity | lia].
    + reflexivity.
  - auto.
Qed.

End FirstTouch.

(** [benchmark] reads the probe once, before the sweep, and every trial of
    the run gets this reading as [device_initial_used]. *)
Lemma benchmark_initial_reading
    (env : Env) (args : Args) (handle : nat) (w w' : World)
    (res : result DataFrame) :
  pynvml_imported env = true ->
  benchmark env args (Some handle) w = (w', res) ->
  (w' = w /\ res = Raise AssertionError)
  \/ (exists e, call_int env (NvmlMemoryInfoUsed handle) w = (w', Raise e)
                /\ res = Raise e)
  \/ (exists initial w0 names with_args excluded,
        call_int env (NvmlMemoryInfoUsed handle) w = (w0, Ok initial)
        /\ for_each (input_size_groups (input_size args))
             (fun input_size df =>
                for_each names
                  (model_step env args (Some handle) (Some initial) with_args
                              excluded input_size)
                  df)
             {| columns := initial_columns (datatypes args); rows := [] |} w0
           = (w', res)).
Proof.
  intros Hp. unfold benchmark. rewrite Hp.
  assert (Hav : forall names w1 w2 (r : result unit),
             assert_available env names w1 = (w2, r) ->
             w2 = w1 /\ (r = Ok tt \/ r = Raise AssertionError)).
  { unfold assert_available. induction names as [|n ns IH]; simpl; intros w1 w2 r H.
    - unfold ret in H. inversion H; auto.
    - unfold bind, assert in H.
      destruct (PyList.contains n (get_model_names env)).
      + unfold ret in H at 1. apply IH in H. exact H.
      + unfold raise in H. inversion H; auto. }
  intros H.
  apply bind_inv in H as [(w1 & names & Hn & H)|(e & Hn & ->)].
  - assert (Hw1 : w1 = w).
    { destruct (all_ args); [apply ret_ok in Hn; tauto|].
      destruct (select args) as [sel|]; [|apply ret_ok in Hn; tauto].
      destruct (0 <? List.length sel)%nat; [|apply ret_ok in Hn; tauto].
      apply bind_ok in Hn as (w1' & ? & Ha & Hr).
      apply Hav in Ha as [-> _]. apply ret_ok in Hr. tauto. }
    subst w1.
    apply bind_inv in H as [(w2 & excluded & He & H)|(e & He & ->)].
    + assert (Hw2 : w2 = w).
      { destruct (exclude args) as [ex|]; [|apply ret_ok in He; tauto].
        apply bind_ok in He as (w2' & ? & Ha & Hr).
        apply Hav in Ha as [-> _]. apply ret_ok in Hr. tauto. }
      subst w2.
      apply bind_inv in H as [(w3 & ? & Has & H)|(e & Has & ->)].
      * unfold assert in Has.
        destruct (List.length (input_size args) mod 2 =? 0)%nat;
          [|unfold raise in Has; discriminate].
        apply ret_ok in Has as [-> _].
        apply bind_inv in H as [(w4 & initial & Hi & H)|(e & Hi & ->)].
        -- apply bind_ok in Hi as (w4' & used & Hi & Hr).
           apply ret_ok in Hr as [-> ->].
           right; right. exists used, w4', (fst names), (snd names), excluded.
           split; [exact Hi | exact H].
        -- right; left. exists e. split; [|reflexivity].
           apply bind_inv in Hi as [(w4' & used & Hi & Hr)|(e' & Hi & E)].
           ++ unfold ret in Hr. discriminate.
           ++ injection E as <-. exact Hi.
      * left. unfold assert in Has.
        destruct (List.length (input_size args) mod 2 =? 0)%nat;
          [unfold ret in Has; discriminate|].
        unfold raise in Has. inversion Has; auto.
    + left. destruct (exclude args) as [ex|]; [|unfold ret in He; discriminate].
      apply bind_inv in He as [(w2' & ? & Ha & Hr)|(e' & Ha & E)].
      * unfold ret in Hr. discriminate.
      * injection E as <-. apply Hav in Ha as [-> [Ha|Ha]];
          [discriminate | inversion Ha; auto].
  - left. destruct (all_ args); [unfold ret in Hn; discriminate|].
    destruct (select args) as [sel|]; [|unfold ret in Hn; discriminate].
    destruct (0 <? List.length sel)%nat; [|unfold ret in Hn; discriminate].
    apply bind_inv in Hn as [(w2' & ? & Ha & Hr)|(e' & Ha & E)].
    + unfold ret in Hr. discriminate.
    + injection E as <-. apply Hav in Ha as [-> [Ha|Ha]];
        [discriminate | inversion Ha; auto].
Qed.

(** C1 (as amended). With a memory probe, the first-touch value a trial
    stores on the warm-up repetition is the reading taken after that
    repetition minus the reading taken once when [benchmark] started
    ([device_initial_used]), not minus the reading taken before the
    repetition. *)
Theorem first_touch_is_relative_to_initial_reading
    (env : Env) (args : Args) (handle : nat) (initial : Z) (with_args : bool)
    (mname : string) (input_size : list Z) (dtype_str : string)
    (w w' : World) (r : TrialResult) :
  pynvml_imported env = true ->
  trial env args (Some handle) (Some initial) with_args mname input_size
        dtype_str w = (w', Ok r) ->
  exists pre post later,
    probed (pre :: post :: later) w w'
    /\ tr_first_memory_used r = post - initial.
Proof.
  intros probe_available H.
  destruct (trial_spec env args (Some handle) (Some initial) with_args mname
                       input_size dtype_str _ _ _ H) as [_ HQ].
  destruct (HQ r eq_refl) as (_ & _ & Hpos & _).
  unfold trial in H.
  apply bind_ok in H as (w1 & l & Hreps & H).
  apply bind_ok in H as (w2 & flops & Hflops & H).
  apply bind_ok in H as (w3 & ft & Hft & H). apply lift_ok in Hft as [-> _].
  apply bind_ok in H as (w3 & fm & Hfm & H). apply lift_ok in Hfm as [-> _].
  apply ret_ok in H as [-> ->]. simpl.
  unfold repetitions, range in Hreps.
  destruct (Z.to_nat (num_trials args + 1)) as [|n] eqn:En; [lia|].
  simpl in Hreps.
  apply bind_ok in Hreps as (wa & l0 & Hwarm & Hrest).
  apply warm_up_repetition in Hwarm as (pre & post & Hp & Hfirst);
    [|exact probe_available].
  destruct (later_repetitions_keep_first env args handle initial with_args
              mname input_size dtype_str n l0 _ _ _ Hrest) as [Gr Hkeep].
  destruct (estimate_flops_spec env (Some handle) with_args mname input_size
                                dtype_str _ _ _ Hflops) as [Gf _].
  apply probed_any in Gr as (r1 & Gr).
  apply probed_any in Gf as (r2 & Gf).
  exists pre, post, (r1 ++ r2). split.
  - exact (probed_trans _ _ _ _ _ Hp (probed_trans _ _ _ _ _ Gr Gf)).
  - rewrite (Hkeep l eq_refl). exact Hfirst.
Qed.

Lemma first_touch_is_relative_to_initial_reading_witness :
  exists w' r pre post later,
    trial sample_env sample_args (Some O) (Some sample_initial_used) false
          "raft" [100; 200] "fp32" sample_started = (w', Ok r)
    /\ probed (pre :: post :: later) sample_started w'
    /\ tr_first_memory_used r = post - sample_initial_used.
Proof.
  destruct (trial sample_env sample_args (Some O) (Some sample_initial_used)
                  false "raft" [100; 200] "fp32" sample_started)
    as [w' [r|e]] eqn:E.
  - destruct (first_touch_is_relative_to_initial_reading
                sample_env sample_args O sample_initial_used false "raft"
                [100; 200] "fp32" sample_started w' r eq_refl E)
      as (pre & post & later & Hp & Hf).
    exists w', r, pre, post, later. auto.
  - vm_compute in E. discriminate.
Defined.

(** C1 as stated fails: on the sample machine the reading before the
    warm-up repetition is not the initial reading, and the stored value is
    not the difference of the two readings around the repetition. *)
Lemma first_touch_is_not_repetition_delta :
  exists w' r pre post later,
    trial sample_env sample_args (Some O) (Some sample_initial_used) false
          "raft" [100; 200] "fp32" sample_started = (w', Ok r)
    /\ probed (pre :: post :: later) sample_started w'
    /\ tr_first_memory_used r <> post - pre.
Proof.
  destruct (trial sample_env sample_args (Some O) (Some sample_initial_used)
                  false "raft" [100; 200] "fp32" sample_started)
    as [w' r] eqn:E.
  vm_compute in E. injection E as <- <-.
  do 2 eexists. exists (4 * 1024 ^ 3), (37 * 1024 ^ 3). eexists.
  split; [reflexivity|]. split.
  - eexists. split; vm_compute; reflexivity.
  - vm_compute. discriminate.
Qed.

(** ** C10: the datatype without CUDA *)

Lemma trial_call_no_half (env : Env) (device_handle : option nat)
    (mname : string) (c : Call) :
  cuda_is_available env = false ->
  trial_call env device_handle mname c -> ~ half_cast c.
Proof.
  intros Hc Ht Hh. destruct c; simpl in *; try contradiction;
    try (destruct Ht; congruence); congruence.
Qed.

(** On a machine with CUDA the two datatypes are told apart: on the sample
    machine the fp16 trial of "pwc" fails and the fp32 trial succeeds. *)
Lemma cuda_trial_depends_on_datatype :
  snd (trial sample_env sample_args None None false "pwc" [100; 200] "fp16"
             initial_world)
  <> snd (trial sample_env sample_args None None false "pwc" [100; 200] "fp32"
                initial_world).
Proof. vm_compute. discriminate. Qed.

(** C10. Without CUDA the half-precision cast is applied neither to the
    model nor to an input tensor, and the trial configured with fp16 is the
    trial configured with fp32: the same calls, the same replies, the same
    result, from every world. *)
Theorem cpu_trial_ignores_datatype
    (env : Env) (args : Args) (device_handle : option nat)
    (device_initial_used : option Z) (with_args : bool) (mname : string)
    (input_size : list Z) (w : World) :
  cuda_is_available env = false ->
  trial env args device_handle device_initial_used with_args mname input_size
        "fp16" w
  = trial env args device_handle device_initial_used with_args mname input_size
          "fp32" w
  /\ (forall dtype_str w' res,
        trial env args device_handle device_initial_used with_args mname
              input_size dtype_str w = (w', res) ->
        exists new, history w' = history w ++ new
                    /\ Forall (fun cr => ~ half_cast (fst cr)) new).
Proof.
  intros Hc. split.
  - destruct env as [cuda nvml names keys ans]. simpl in Hc. subst cuda.
    reflexivity.
  - intros dtype_str w' res H.
    destruct (trial_spec env args device_handle device_initial_used with_args
                         mname input_size dtype_str _ _ _ H)
      as [((new & E & F) & _) _].
    exists new. split; [exact E|].
    eapply Forall_impl; [|exact F].
    intros cr. apply trial_call_no_half, Hc.
Qed.

Lemma cpu_trial_ignores_datatype_witness :
  trial sample_cpu_env sample_args None None false "pwc" [100; 200] "fp16"
        initial_world
  = trial sample_cpu_env sample_args None None false "pwc" [100; 200] "fp32"
          initial_world.
Proof.
  apply (cpu_trial_ignores_datatype sample_cpu_env sample_args None None false
           "pwc" [100; 200] initial_world).
  reflexivity.
Defined.

(** ** C9: the occlusion refinement helper of ScopeFlow *)

(** C9. [_refine_occ] returns the forward occlusion continuation as its
    second and as its fourth component; neither depends on the backward
    continuation it was given, which is no component of the result; the
    caller therefore keeps its own [occ_cont_b]. *)
Theorem refine_occ_returns_forward_continuation_twice
    (tensor : Type) (div_flow : Q)
    (warping_layer : tensor -> tensor -> Z -> Z -> Q -> tensor)
    (refine_occ : tensor -> tensor -> tensor -> tensor)
    (detach : tensor -> tensor) (sub : tensor -> tensor -> tensor)
    (x1_1by1 x2_1by1 flow_f flow_b occ_cont_f occ_cont_b : tensor)
    (height_im width_im : Z) :
  let res := ScopeFlow._refine_occ div_flow warping_layer refine_occ detach sub
               x1_1by1 x2_1by1 flow_f flow_b occ_cont_f occ_cont_b
               height_im width_im in
  (snd (fst (fst res)) = occ_cont_f /\ snd res = occ_cont_f
   /\ snd (fst (fst res)) = snd res)
  /\ (forall other : tensor,
        let res' := ScopeFlow._refine_occ div_flow warping_layer refine_occ
                      detach sub x1_1by1 x2_1by1 flow_f flow_b occ_cont_f other
                      height_im width_im in
        snd (fst (fst res')) = snd (fst (fst res)) /\ snd res' = snd res
        /\ fst (fst (fst res')) = fst (fst (fst res)))
  /\ (let '(s0, s1, s2, s3) :=
        ScopeFlow.sym_refine_occ height_im width_im div_flow in
      ~ In (ScopeFlow.Input "occ_cont_b") [s0; s1; s2; s3]
      /\ s1 = ScopeFlow.Input "occ_cont_f"
      /\ s3 = ScopeFlow.Input "occ_cont_f")
  /\ ScopeFlow.refine_occ_outputs div_flow warping_layer refine_occ detach sub
       x1_1by1 x2_1by1 flow_f flow_b occ_cont_f occ_cont_b height_im width_im
     = [occ_cont_f; occ_cont_b; fst (fst (fst res)); snd (fst res)].
Proof.
  simpl. repeat split; try reflexivity.
  intros [H|[H|[H|[H|[]]]]]; discriminate.
Qed.

(** ** C5: the input sizes *)

Lemma range_step2_spec (fuel : nat) :
  forall start k,
    (k <= fuel)%nat ->
    PyList.range_step2 fuel start (start + 2 * k)
    = map (fun j => (start + 2 * j)%nat) (seq 0 k).
Proof.
  induction fuel as [|fuel IH]; intros start k Hk.
  - assert (k = O) by lia. subst k. reflexivity.
  - destruct k as [|k].
    + simpl. replace (start + 0)%nat with start by lia.
      rewrite Nat.ltb_irrefl. reflexivity.
    + cbn [PyList.range_step2].
      assert (Hlt : (start <? start + 2 * S k)%nat = true)
        by (apply Nat.ltb_lt; lia).
      rewrite Hlt. cbn [seq map]. f_equal; [lia|].
      replace (start + 2 * S k)%nat with ((start + 2) + 2 * k)%nat by lia.
      rewrite IH by lia. rewrite <- seq_shift, map_map.
      apply map_ext. intros j. lia.
Qed.

Lemma skipn_nth_error {A : Type} (xs : list A) :
  forall n x, nth_error xs n = Some x -> skipn n xs = x :: skipn (S n) xs.
Proof.
  induction xs as [|y ys IH]; intros [|n] x H; simpl in *; try discriminate.
  - injection H as ->. reflexivity.
  - apply IH, H.
Qed.

Lemma slice_pair {A : Type} (xs : list A) (lo : nat) :
  (lo + 1 < List.length xs)%nat ->
  exists h w, PyList.slice xs lo (lo + 2) = [h; w]
              /\ nth_error xs lo = Some h
              /\ nth_error xs (lo + 1) = Some w.
Proof.
  intros Hlen.
  destruct (nth_error xs lo) as [h|] eqn:Hh;
    [|apply nth_error_None in Hh; lia].
  destruct (nth_error xs (lo + 1)) as [w|] eqn:Hw;
    [|apply nth_error_None in Hw; lia].
  exists h, w. split; [|auto].
  unfold PyList.slice. replace (lo + 2 - lo)%nat with 2%nat by lia.
  rewrite (skipn_nth_error xs lo h Hh).
  replace (lo + 1)%nat with (S lo) in Hw by lia.
  rewrite (skipn_nth_error xs (S lo) w Hw). reflexivity.
Qed.

Lemma input_size_groups_even (sizes : list Z) (k : nat) :
  List.length sizes = (2 * k)%nat ->
  input_size_groups sizes
  = map (fun j => PyList.slice sizes (2 * j) (2 * j + 2)) (seq 0 k).
Proof.
  intros Hlen. unfold input_size_groups.
  rewrite Hlen.
  assert (Hr : PyList.range_step2 (2 * k) 0 (2 * k)
               = map (fun j => (2 * j)%nat) (seq 0 k)).
  { apply (range_step2_spec (2 * k) 0 k). lia. }
  rewrite Hr, map_map. reflexivity.
Qed.

Lemma assert_available_pure (env : Env) (names : list string) (w w' : World)
    (r : result unit) :
  assert_available env names w = (w', r) ->
  w' = w /\ (r = Ok tt \/ r = Raise AssertionError).
Proof.
  unfold assert_available. revert w w' r.
  induction names as [|n ns IH]; simpl; intros w w' r H.
  - unfold ret in H. inversion H; auto.
  - unfold bind, assert in H.
    destruct (PyList.contains n (get_model_names env)).
    + unfold ret in H at 1. apply IH in H. exact H.
    + unfold raise in H. inversion H; auto.
Qed.

(** With an odd number of input sizes [benchmark] fails an assertion
    before it calls anything. *)
Lemma benchmark_rejects_odd_sizes (env : Env) (args : Args)
    (device_handle : option nat) (w : World) :
  (List.length (input_size args) mod 2 =? 0)%nat = false ->
  benchmark env args device_handle w = (w, Raise AssertionError).
Proof.
  intros Hodd. unfold benchmark.
  set (names := if all_ args then _ else _).
  set (excl := match exclude args with None => _ | Some ex => _ end).
  assert (Hn : forall w1 w2 r, names w1 = (w2, r) ->
               w2 = w1 /\ (r = Raise AssertionError \/ exists a, r = Ok a)).
  { subst names. intros w1 w2 r H.
    destruct (all_ args); [inversion H; eauto|].
    destruct (select args) as [sel|]; [|inversion H; eauto].
    destruct (0 <? List.length sel)%nat; [|inversion H; eauto].
    apply bind_inv in H as [(w3 & ? & Ha & Hr)|(e & Ha & ->)].
    - apply assert_available_pure in Ha as [-> _].
      unfold ret in Hr. inversion Hr; eauto.
    - apply assert_available_pure in Ha as [-> [Ha|Ha]];
        [discriminate | inversion Ha; auto]. }
  assert (He : forall w1 w2 r, excl w1 = (w2, r) ->
               w2 = w1 /\ (r = Raise AssertionError \/ exists a, r = Ok a)).
  { subst excl. intros w1 w2 r H.
    destruct (exclude args) as [ex|]; [|inversion H; eauto].
    apply bind_inv in H as [(w3 & ? & Ha & Hr)|(e & Ha & ->)].
    - apply assert_available_pure in Ha as [-> _].
      unfold ret in Hr. inversion Hr; eauto.
    - apply assert_available_pure in Ha as [-> [Ha|Ha]];
        [discriminate | inversion Ha; auto]. }
  unfold bind at 1.
  destruct (names w) as [w1 r1] eqn:E1.
  apply Hn in E1 as [-> [->|[a ->]]]; [reflexivity|].
  unfold bind at 1.
  destruct (excl w) as [w2 r2] eqn:E2.
  apply He in E2 as [-> [->|[b ->]]]; [reflexivity|].
  unfold bind at 1. rewrite Hodd. reflexivity.
Qed.

(** C5. An input-size list of odd length fails the assertion of
    [benchmark] before anything is called, so before any trial; a list of
    2k integers is read two at a time, in order, into k (height, width)
    groups, over which the sweep iterates; [100, 200, 300, 400] gives the
    groups (100, 200) and (300, 400), and on the sample machine the rows of
    the table are those of these two sizes. *)
Theorem input_sizes_are_read_pairwise :
  (forall (env : Env) (args : Args) (device_handle : option nat) (w : World),
      Nat.odd (List.length (input_size args)) = true ->
      benchmark env args device_handle w = (w, Raise AssertionError))
  /\ (forall (sizes : list Z) (k : nat),
         List.length sizes = (2 * k)%nat ->
         List.length (input_size_groups sizes) = k
         /\ forall j, (j < k)%nat ->
              exists h w,
                nth_error (input_size_groups sizes) j = Some [h; w]
                /\ nth_error sizes (2 * j) = Some h
                /\ nth_error sizes (2 * j + 1) = Some w)
  /\ input_size_groups [100; 200; 300; 400] = [[100; 200]; [300; 400]]
  /\ (exists w' df,
         benchmark sample_env sample_args (Some O) initial_world = (w', Ok df)
         /\ row_sizes df
            = [(Num 100, Num 200); (Num 100, Num 200);
               (Num 300, Num 400); (Num 300, Num 400)]).
Proof.
  split; [|split; [|split]].
  - intros env args dh w Hodd. apply benchmark_rejects_odd_sizes.
    rewrite <- Nat.negb_even in Hodd. apply negb_true_iff in Hodd.
    apply Nat.eqb_neq. intros Hm.
    apply Nat.Div0.mod_divides in Hm as [c Hc].
    rewrite Hc, Nat.even_mul in Hodd. discriminate.
  - intros sizes k Hlen. rewrite (input_size_groups_even sizes k Hlen).
    split; [rewrite length_map, length_seq; reflexivity|].
    intros j Hj.
    destruct (slice_pair sizes (2 * j)) as (h & w & Hs & Hh & Hw); [lia|].
    exists h, w. split; [|auto].
    rewrite nth_error_map, nth_error_seq.
    destruct (j <? k)%nat eqn:Hjk; [|apply Nat.ltb_ge in Hjk; lia].
    unfold option_map. change (0 + j)%nat with j. rewrite Hs. reflexivity.
  - reflexivity.
  - destruct (benchmark sample_env sample_args (Some O) initial_world)
      as [w' r] eqn:E.
    vm_compute in E. injection E as <- <-.
    do 2 eexists. split; [reflexivity|]. vm_compute. reflexivity.
Qed.

Lemma input_sizes_are_read_pairwise_witness :
  benchmark sample_env
    {| all_ := false; select := None; exclude := None;
       model_class_path := "ptlflow.models.raft.raft";
       num_trials := 1; num_samples := 1; sleep_interval := 0;
       input_size := [100; 200; 300];
       output_path := "outputs/benchmark";
       final_speed_mode := "median"; final_memory_mode := "first";
       plot_axes := None; plot_log_x := false; plot_log_y := false;
       datatypes := ["fp32"]; batch_size := 1 |}
    (Some O) initial_world
  = (initial_world, Raise AssertionError)
  /\ List.length (input_size_groups [100; 200; 300; 400]) = 2%nat.
Proof.
  destruct input_sizes_are_read_pairwise as (Hodd & Heven & _).
  split.
  - apply Hodd. reflexivity.
  - apply (Heven [100; 200; 300; 400] 2%nat). reflexivity.
Defined.

(** ** C6: the rows of the plot *)








Lemma set_values_length (t : Indexed) (c : string) (series : list Cell) :
  List.length (irows (set_values t c series)) = List.length (irows t).
Proof.
  unfold set_values. destruct (index_of c (icolumns t)); simpl;
    apply length_map.
Qed.












(** ** C7: the FLOP estimate *)

Lemma profiled_app (a b : list (Call * Reply)) :
  profiled (a ++ b) = profiled a ++ profiled b.
Proof.
  induction a as [|[c r] a IH]; simpl; [reflexivity|].
  destruct c; try exact IH. simpl. rewrite IH. reflexivity.
Qed.

Lemma profiled_none (P : Call -> Prop) (h : list (Call * Reply)) :
  (forall m t, ~ P (ProfiledForward m t)) ->
  Forall (fun cr => P (fst cr)) h -> profiled h = [].
Proof.
  intros HP. induction 1 as [|[c r] h Hc _ IH]; simpl; [reflexivity|].
  destruct c; try exact IH. exfalso. eapply HP, Hc.
Qed.

Lemma fold_left_flops (ops : list Z) (acc : Z) :
  fold_left (fun flops k => flops + k) ops acc = acc + sum_Z ops.
Proof.
  revert acc. induction ops as [|k ops IH]; intros acc; simpl; [lia|].
  rewrite IH. lia.
Qed.

(** [count_flops] runs one profiled forward and adds up the FLOPs of the
    operators the profiler reports. *)
Lemma count_flops_ok (env : Env) (model : Model) (images : Tensor)
    (w w' : World) (flops : Z) :
  count_flops env model images w = (w', Ok flops) ->
  exists ops,
    answer env (history w) (ProfiledForward model images) = ReturnsInts ops
    /\ history w'
       = history w ++ [(ProfiledForward model images, ReturnsInts ops)]
    /\ flops = sum_Z ops.
Proof.
  unfold count_flops, call_ints. intros H.
  apply bind_ok in H as (w1 & ops & H & Hr). apply ret_ok in Hr as [-> ->].
  apply bind_ok in H as (w0 & r & Hc & Hr).
  apply call_history in Hc as (Hh & _ & _ & _ & Ha).
  specialize (Ha r eq_refl).
  destruct r; try (unfold raise in Hr; discriminate).
  apply ret_ok in Hr as [-> ->].
  exists zs. split; [symmetry; exact Ha|]. split.
  - rewrite Hh, <- Ha. reflexivity.
  - rewrite fold_left_flops. lia.
Qed.

Lemma flops_setup_no_profile (env : Env) (mname : string) (m : Model)
    (t : Tensor) :
  ~ flops_setup_call env mname (ProfiledForward m t).
Proof. simpl. tauto. Qed.

Lemma repetition_no_profile (env : Env) (device_handle : option nat)
    (mname : string) (m : Model) (t : Tensor) :
  ~ repetition_call env device_handle mname (ProfiledForward m t).
Proof. simpl. tauto. Qed.

Section FlopEstimate.

Variable env : Env.
Variable with_args : bool.
Variable mname : string.
Variable input_size : list Z.
Variable dtype_str : string.

(** The FLOP estimate builds a model of its own, draws an input of shape
    (1, 2, 3, h, w), moves and casts both as the datatype asks, and then
    makes its only profiled forward. *)
Lemma estimate_flops_ok (w w' : World) (flops : Z) :
  estimate_flops env with_args mname input_size dtype_str w = (w', Ok flops) ->
  exists h wd ops setup,
    PyList.getitem input_size 0 = Ok h
    /\ PyList.getitem input_size 1 = Ok wd
    /\ history w'
       = history w
         ++ (GetModel mname with_args,
             answer env (history w) (GetModel mname with_args))
         :: setup
         ++ [(ProfiledForward (profiled_model env mname dtype_str)
                              (profiled_input env h wd dtype_str),
              ReturnsInts ops)]
    /\ Forall (fun cr => flops_setup_call env mname (fst cr)) setup
    /\ answer env
         (history w
          ++ (GetModel mname with_args,
              answer env (history w) (GetModel mname with_args)) :: setup)
         (ProfiledForward (profiled_model env mname dtype_str)
                          (profiled_input env h wd dtype_str))
       = ReturnsInts ops
    /\ flops = sum_Z ops.
Proof.
  unfold estimate_flops. intros H.
  apply bind_ok in H as (w1 & m1 & H1 & H).
  assert (E1 : history w1
               = history w
                 ++ [(GetModel mname with_args,
                      answer env (history w) (GetModel mname with_args))]
               /\ m1 = {| model_name := mname; model_training := true;
                          model_device := Cpu; model_dtype := Float32 |}).
  { unfold get_model, call_ in H1.
    apply bind_ok in H1 as (w1' & ? & H1 & Hr). apply ret_ok in Hr as [-> ->].
    apply bind_ok in H1 as (w1'' & ? & H1 & Hr). apply ret_ok in Hr as [-> _].
    apply call_history in H1 as (Hh & _). auto. }
  destruct E1 as [Eh1 ->].
  apply bind_ok in H as (w2 & m2 & H2 & H).
  match type of H2 with
  | model_eval _ ?m _ = _ =>
      destruct (spec_model_eval env (flops_setup_call env mname) m eq_refl
                                _ _ _ H2) as [G2 Q2]
  end.
  specialize (Q2 m2 eq_refl). subst m2. simpl in *.
  apply bind_ok in H as (w3 & h & Hh & H). apply lift_ok in Hh as [-> Hh].
  apply bind_ok in H as (w3 & wd & Hw & H). apply lift_ok in Hw as [-> Hw].
  apply bind_ok in H as (w3 & images & H3 & H).
  assert (P3 : flops_setup_call env mname (Rand [1; 2; 3; h; wd]))
    by (simpl; eauto).
  destruct (spec_torch_rand env (flops_setup_call env mname)
                            [1; 2; 3; h; wd] P3 _ _ _ H3) as [G3 Q3].
  specialize (Q3 images eq_refl). subst images.
  apply bind_ok in H as (w4 & mi & H4 & H).
  assert (S4 : calls_only (flops_setup_call env mname) w3 w4
               /\ mi = (profiled_model env mname dtype_str,
                        profiled_input env h wd dtype_str)).
  { unfold profiled_model, profiled_input.
    destruct (cuda_is_available env) eqn:Hc; simpl.
    - apply bind_ok in H4 as (w5 & m5 & H5 & H4).
      match type of H5 with
      | model_cuda _ ?m _ = _ =>
          destruct (spec_model_cuda env (flops_setup_call env mname) m
                      (conj eq_refl Hc) _ _ _ H5) as [G5 Q5]
      end.
      specialize (Q5 m5 eq_refl). subst m5. simpl in *.
      apply bind_ok in H4 as (w6 & t6 & H6 & H4).
      match type of H6 with
      | tensor_cuda _ ?t _ = _ =>
          destruct (spec_tensor_cuda env (flops_setup_call env mname) t
                      Hc _ _ _ H6) as [G6 Q6]
      end.
      specialize (Q6 t6 eq_refl). subst t6. simpl in *.
      destruct (String.eqb dtype_str "fp16").
      + apply bind_ok in H4 as (w7 & m7 & H7 & H4).
        match type of H7 with
        | model_half _ ?m _ = _ =>
            destruct (spec_model_half env (flops_setup_call env mname) m
                        (conj eq_refl Hc) _ _ _ H7) as [G7 Q7]
        end.
        specialize (Q7 m7 eq_refl). subst m7. simpl in *.
        apply bind_ok in H4 as (w8 & t8 & H8 & H4).
        match type of H8 with
        | tensor_half _ ?t _ = _ =>
            destruct (spec_tensor_half env (flops_setup_call env mname) t
                        Hc _ _ _ H8) as [G8 Q8]
        end.
        specialize (Q8 t8 eq_refl). subst t8. simpl in *.
        apply ret_ok in H4 as [-> ->]. split; [|reflexivity].
        eauto using calls_only_trans.
      + apply ret_ok in H4 as [-> ->]. split; [|reflexivity].
        eauto using calls_only_trans.
    - apply ret_ok in H4 as [-> ->]. split; [|reflexivity].
      apply calls_only_refl. }
  destruct S4 as [G4 ->]. simpl in H.
  apply count_flops_ok in H as (ops & Ha & Hh' & ->).
  pose proof (calls_only_trans _ _ _ _ G2 (calls_only_trans _ _ _ _ G3 G4))
    as ((setup & Es & Fs) & _).
  exists h, wd, ops, setup.
  assert (Eh4 : history w4
                = history w
                  ++ (GetModel mname with_args,
                      answer env (history w) (GetModel mname with_args))
                  :: setup).
  { rewrite Es, Eh1, <- app_assoc. reflexivity. }
  split; [exact Hh|]. split; [exact Hw|]. split.
  - rewrite Hh', Eh4, <- app_assoc. reflexivity.
  - split; [exact Fs|]. split; [rewrite <- Eh4; exact Ha | reflexivity].
Qed.

End FlopEstimate.

(** C7. The FLOPs of a trial come from one profiled forward, on a model
    built for it after the repetitions and on an input of shape
    (1, 2, 3, height, width), and are the sum of the FLOPs of the operators
    reported; the batch size of the configuration does not enter: when the
    profiler answers from the model and the input, two trials that differ
    in their configuration (so in batch size) get the same FLOPs. *)
Theorem flops_come_from_one_forward_of_batch_one
    (env : Env) (args : Args) (device_handle : option nat)
    (device_initial_used : option Z) (with_args : bool) (mname : string)
    (input_size : list Z) (dtype_str : string) (w w' : World)
    (r : TrialResult) :
  trial env args device_handle device_initial_used with_args mname input_size
        dtype_str w = (w', Ok r) ->
  (exists height width ops repetitions_calls setup,
      PyList.getitem input_size 0 = Ok height
      /\ PyList.getitem input_size 1 = Ok width
      /\ history w'
         = history w ++ repetitions_calls
           ++ (GetModel mname with_args,
               answer env (history w ++ repetitions_calls)
                      (GetModel mname with_args))
           :: setup
           ++ [(ProfiledForward (profiled_model env mname dtype_str)
                                (profiled_input env height width dtype_str),
                ReturnsInts ops)]
      /\ Forall (fun cr => repetition_call env device_handle mname (fst cr))
                repetitions_calls
      /\ Forall (fun cr => flops_setup_call env mname (fst cr)) setup
      /\ (exists new,
            history w' = history w ++ new
            /\ profiled new
               = [(profiled_model env mname dtype_str,
                   profiled_input env height width dtype_str,
                   ReturnsInts ops)])
      /\ tensor_shape (profiled_input env height width dtype_str)
         = [1; 2; 3; height; width]
      /\ tr_flops r = sum_Z ops)
  /\ (profiler_is_static env ->
      forall (b : Z) (device_handle2 : option nat)
             (device_initial_used2 : option Z) (w2 w2' : World)
             (r2 : TrialResult),
        trial env (with_batch_size args b) device_handle2 device_initial_used2
              with_args mname input_size dtype_str w2 = (w2', Ok r2) ->
        tr_flops r2 = tr_flops r).
Proof.
  assert (Main : forall args0 dh diu w0 w0' r0,
             trial env args0 dh diu with_args mname input_size dtype_str w0
             = (w0', Ok r0) ->
             exists height width ops reps setup,
               PyList.getitem input_size 0 = Ok height
               /\ PyList.getitem input_size 1 = Ok width
               /\ history w0'
                  = history w0 ++ reps
                    ++ (GetModel mname with_args,
                        answer env (history w0 ++ reps)
                               (GetModel mname with_args))
                    :: setup
                    ++ [(ProfiledForward
                           (profiled_model env mname dtype_str)
                           (profiled_input env height width dtype_str),
                         ReturnsInts ops)]
               /\ Forall (fun cr => repetition_call env dh mname (fst cr)) reps
               /\ Forall (fun cr => flops_setup_call env mname (fst cr)) setup
               /\ answer env
                    (history w0 ++ reps
                     ++ (GetModel mname with_args,
                         answer env (history w0 ++ reps)
                                (GetModel mname with_args)) :: setup)
                    (ProfiledForward (profiled_model env mname dtype_str)
                       (profiled_input env height width dtype_str))
                  = ReturnsInts ops
               /\ tr_flops r0 = sum_Z ops).
  { intros args0 dh diu w0 w0' r0 H. unfold trial in H.
    apply bind_ok in H as (w1 & l & Hreps & H).
    apply bind_ok in H as (w2 & flops & Hflops & H).
    apply bind_ok in H as (w3 & ft & Hft & H). apply lift_ok in Hft as [-> _].
    apply bind_ok in H as (w3 & fm & Hfm & H). apply lift_ok in Hfm as [-> _].
    apply ret_ok in H as [-> ->]. simpl.
    destruct (repetitions_trial_spec env args0 dh diu with_args mname
                input_size dtype_str _ _ _ Hreps) as [((reps & Er & Fr) & _) _].
    apply estimate_flops_ok in Hflops
      as (h & wd & ops & setup & Hh & Hw & Eh & Fs & Ha & ->).
    exists h, wd, ops, reps, setup. rewrite Er in Eh, Ha.
    split; [exact Hh|]. split; [exact Hw|]. split.
    - rewrite Eh, <- app_assoc. reflexivity.
    - split; [exact Fr|]. split; [exact Fs|]. split; [|reflexivity].
      rewrite <- Ha. f_equal. rewrite <- app_assoc. reflexivity. }
  intros H. split.
  - destruct (Main _ _ _ _ _ _ H)
      as (h & wd & ops & reps & setup & Hh & Hw & Eh & Fr & Fs & _ & Hf).
    exists h, wd, ops, reps, setup.
    split; [exact Hh|]. split; [exact Hw|]. split; [exact Eh|].
    split; [exact Fr|]. split; [exact Fs|]. split; [|split; [reflexivity|exact Hf]].
    eexists. split; [exact Eh|].
    rewrite profiled_app.
    rewrite (profiled_none _ reps (repetition_no_profile env device_handle mname) Fr).
    simpl. rewrite profiled_app.
    rewrite (profiled_none _ setup (flops_setup_no_profile env mname) Fs).
    reflexivity.
  - intros Hstatic b dh2 diu2 w2 w2' r2 H2.
    destruct (Main _ _ _ _ _ _ H)
      as (h & wd & ops & reps & setup & Hh & Hw & _ & _ & _ & Ha & Hf).
    destruct (Main _ _ _ _ _ _ H2)
      as (h2 & wd2 & ops2 & reps2 & setup2 & Hh2 & Hw2 & _ & _ & _ & Ha2 & Hf2).
    rewrite Hh in Hh2. injection Hh2 as <-.
    rewrite Hw in Hw2. injection Hw2 as <-.
    rewrite Hf, Hf2.
    rewrite (Hstatic _ (history w ++ reps
                        ++ (GetModel mname with_args,
                            answer env (history w ++ reps)
                                   (GetModel mname with_args)) :: setup))
      in Ha2.
    rewrite Ha in Ha2. injection Ha2 as <-. reflexivity.
Qed.

Lemma flops_come_from_one_forward_of_batch_one_witness :
  exists w1 r1 w4 r4,
    trial sample_env sample_args (Some O) (Some sample_initial_used) false
          "raft" [100; 200] "fp16" sample_started = (w1, Ok r1)
    /\ trial sample_env (with_batch_size sample_args 4) (Some O)
             (Some sample_initial_used) false "raft" [100; 200] "fp16"
             sample_started = (w4, Ok r4)
    /\ tr_flops r4 = tr_flops r1.
Proof.
  destruct (trial sample_env sample_args (Some O) (Some sample_initial_used)
                  false "raft" [100; 200] "fp16" sample_started)
    as [w1 [r1|e]] eqn:E1; [|vm_compute in E1; discriminate].
  destruct (trial sample_env (with_batch_size sample_args 4) (Some O)
                  (Some sample_initial_used) false "raft" [100; 200] "fp16"
                  sample_started)
    as [w4 [r4|e]] eqn:E4; [|vm_compute in E4; discriminate].
  exists w1, r1, w4, r4. split; [reflexivity|]. split; [reflexivity|].
  destruct (flops_come_from_one_forward_of_batch_one _ _ _ _ _ _ _ _ _ _ _ E1)
    as [_ Hb].
  apply (Hb (fun _ _ _ _ => eq_refl) 4 _ _ _ _ _ E4).
Defined.

(** ** C8: excluded models *)

Section Untouched.

Variable mname : string.

Lemma untouched_refl (w : World) : untouched mname w w.
Proof.
  repeat split; exists []; rewrite app_nil_r; split; auto.
Qed.

Lemma untouched_trans (a b c : World) :
  untouched mname a b -> untouched mname b c -> untouched mname a c.
Proof.
  intros ((h1 & Eh1 & Fh1) & (x1 & Ex1 & Fx1) & (f1 & Ef1 & Ff1)
          & (p1 & Ep1 & Fp1))
         ((h2 & Eh2 & Fh2) & (x2 & Ex2 & Fx2) & (f2 & Ef2 & Ff2)
          & (p2 & Ep2 & Fp2)).
  repeat split.
  - exists (h1 ++ h2). rewrite Eh2, Eh1, app_assoc.
    split; [reflexivity | apply Forall_app; auto].
  - exists (x1 ++ x2). rewrite Ex2, Ex1, app_assoc.
    split; [reflexivity | apply Forall_app; auto].
  - exists (f1 ++ f2). rewrite Ef2, Ef1, app_assoc.
    split; [reflexivity | apply Forall_app; auto].
  - exists (p1 ++ p2). rewrite Ep2, Ep1, app_assoc.
    split; [reflexivity | apply Forall_app; auto].
Qed.

Lemma calls_only_untouched (P : Call -> Prop) (w w' : World) :
  (forall c, P c -> ~ mentions mname c) ->
  calls_only P w w' -> untouched mname w w'.
Proof.
  intros HP ((new & E & F) & Hw & Hf & Hp). repeat split.
  - exists new. split; [exact E|].
    eapply Forall_impl; [|exact F]. intros cr. apply HP.
  - exists []. rewrite app_nil_r. auto.
  - exists []. rewrite app_nil_r. auto.
  - exists []. rewrite app_nil_r. auto.
Qed.

Lemma ut_ret {A : Type} (a : A) (Q : A -> Prop) :
  Q a -> spec (untouched mname) (ret a) Q.
Proof. apply spec_ret, untouched_refl. Qed.

Lemma ut_raise {A : Type} (e : exn) (Q : A -> Prop) :
  spec (untouched mname) (raise e) Q.
Proof. apply spec_raise, untouched_refl. Qed.

Lemma ut_lift {A : Type} (r : result A) (Q : A -> Prop) :
  (forall a, r = Ok a -> Q a) -> spec (untouched mname) (lift r) Q.
Proof. apply spec_lift, untouched_refl. Qed.

Lemma ut_assert (b : bool) (Q : unit -> Prop) :
  (b = true -> Q tt) -> spec (untouched mname) (assert b) Q.
Proof. apply spec_assert, untouched_refl. Qed.

Lemma ut_bind {A B : Type} (c : M A) (k : A -> M B) (Q : A -> Prop)
    (R : B -> Prop) :
  spec (untouched mname) c Q ->
  (forall a, Q a -> spec (untouched mname) (k a) R) ->
  spec (untouched mname) (bind c k) R.
Proof.
  intros Hc Hk.
  eapply spec_bind; eauto using untouched_refl, untouched_trans.
Qed.

Lemma ut_for_each {A S : Type} (I : S -> Prop) (body : A -> S -> M S)
    (xs : list A) :
  (forall x s, In x xs -> I s -> spec (untouched mname) (body x s) I) ->
  forall s, I s -> spec (untouched mname) (for_each xs body s) I.
Proof.
  intros Hb s Hs.
  eapply spec_for_each; eauto using untouched_refl, untouched_trans.
Qed.

Lemma ut_calls {A : Type} (P : Call -> Prop) (c : M A) (Q : A -> Prop) :
  (forall x, P x -> ~ mentions mname x) ->
  spec (calls_only P) c Q -> spec (untouched mname) c Q.
Proof.
  intros HP. apply spec_guarantee. intros w w'.
  apply calls_only_untouched, HP.
Qed.

(** *** Tables without the name *)

Lemma in_firstn_in {A : Type} (n : nat) (l : list A) (x : A) :
  In x (firstn n l) -> In x l.
Proof.
  intros H. rewrite <- (firstn_skipn n l). apply in_or_app. left; exact H.
Qed.

Lemma in_skipn_in {A : Type} (n : nat) (l : list A) (x : A) :
  In x (skipn n l) -> In x l.
Proof.
  intros H. rewrite <- (firstn_skipn n l). apply in_or_app. right; exact H.
Qed.

Lemma cell_in_or_nan (cols : list string) (row : list Cell) (c : string) :
  cell cols row c = NaN \/ In (cell cols row c) row.
Proof.
  unfold cell. destruct (index_of c cols) as [i|]; [|left; reflexivity].
  destruct (nth_in_or_default i row NaN); auto.
Qed.

Lemma reindex_no_mention (from to : list string) (row : list Cell) :
  ~ In (Str mname) row -> ~ In (Str mname) (reindex from to row).
Proof.
  intros Hrow Hin. unfold reindex in Hin. apply in_map_iff in Hin
    as (c & Hc & _).
  destruct (cell_in_or_nan from row c) as [E|E].
  - rewrite E in Hc. discriminate.
  - rewrite Hc in E. contradiction.
Qed.

Lemma concat_no_mention (a b : DataFrame) :
  no_mention mname a -> no_mention mname b -> no_mention mname (concat a b).
Proof.
  unfold no_mention, concat. simpl. intros Ha Hb.
  apply Forall_app. split; apply Forall_map.
  - eapply Forall_impl; [|exact Ha]. intros row. apply reindex_no_mention.
  - eapply Forall_impl; [|exact Hb]. intros row. apply reindex_no_mention.
Qed.

Lemma round3_no_mention (df : DataFrame) :
  no_mention mname df -> no_mention mname (round3 df).
Proof.
  unfold no_mention, round3. simpl. intros H. apply Forall_map.
  eapply Forall_impl; [|exact H]. intros row Hrow Hin.
  apply in_map_iff in Hin as (c & Hc & Hin).
  destruct c; simpl in Hc; try discriminate.
  apply Hrow. rewrite <- Hc. exact Hin.
Qed.

Lemma of_dict_no_mention (d : PyDict.t Cell) :
  values_ok mname d -> no_mention mname (of_dict d).
Proof.
  unfold no_mention, of_dict, values_ok. simpl. intros H.
  constructor; [|constructor]. intros Hin.
  apply in_map_iff in Hin as (kv & Hkv & Hin).
  rewrite Forall_forall in H. apply (H kv Hin). exact Hkv.
Qed.

Lemma dropna_no_mention (df : DataFrame) :
  no_mention mname df -> no_mention mname (values (dropna_rows (copy df))).
Proof.
  unfold no_mention, values, dropna_rows, copy. cbn [rows irows]. intros H.
  rewrite Forall_forall in *. intros row Hin.
  apply in_map_iff in Hin as ([label row'] & <- & Hin).
  apply filter_In in Hin as [Hin _]. apply in_combine_r in Hin.
  apply H, Hin.
Qed.

Lemma log10_no_mention (df : DataFrame) (legend : string)
    (series : list Cell) (label : nat) :
  log10_of_column df legend = Ok series ->
  nth label series NaN <> Str mname.
Proof.
  unfold log10_of_column. destruct (has_column df legend); [|discriminate].
  destruct (existsb is_str _); [discriminate|].
  intros [= <-].
  destruct (nth_in_or_default label
              (map log10_cell
                 (map (fun row => cell (columns df) row legend) (rows df)))
              NaN) as [Hin|E]; [|rewrite E; discriminate].
  apply in_map_iff in Hin as (c & E & _). rewrite <- E.
  destruct c; discriminate.
Qed.

Lemma take_labels_no_mention (t : Indexed) (series : list Cell) :
  no_mention mname (values t) ->
  no_mention mname (values (take_labels t series)).
Proof.
  unfold take_labels. intros H.
  destruct (_ && _); [|exact H].
  unfold no_mention, values. cbn [rows irows]. rewrite map_map. cbn [snd].
  apply Forall_map, Forall_forall. intros label _ Hin.
  apply repeat_spec in Hin. discriminate.
Qed.

Lemma set_values_no_mention (t : Indexed) (c : string) (series : list Cell) :
  (forall label, nth label series NaN <> Str mname) ->
  no_mention mname (values t) ->
  no_mention mname (values (set_values t c series)).
Proof.
  unfold no_mention, values, set_values. intros Hs H.
  destruct (index_of c (icolumns t)) as [i|]; cbn [rows irows] in *;
    rewrite map_map; cbn [snd]; rewrite Forall_map in H;
    apply Forall_map; (eapply Forall_impl; [|exact H]);
    intros [label row] Hrow Hin; cbn [fst snd] in *.
  - apply in_app_or in Hin as [Hin|[Hin|Hin]].
    + apply Hrow. eapply in_firstn_in; exact Hin.
    + apply (Hs label). exact Hin.
    + apply Hrow. exact (in_skipn_in (S i) row _ Hin).
  - apply in_app_or in Hin as [Hin|[Hin|[]]].
    + apply Hrow, Hin.
    + apply (Hs label). exact Hin.
Qed.

(** *** Rows under construction without the name *)

Lemma set_values_ok (d : PyDict.t Cell) (k : string) (v : Cell) :
  values_ok mname d -> v <> Str mname -> values_ok mname (PyDict.set d k v).
Proof.
  unfold values_ok. intros Hd Hv.
  induction d as [|[k' v'] d IH]; simpl.
  - constructor; [exact Hv | constructor].
  - inversion Hd as [|? ? Hv' Hd']; subst.
    destruct (String.eqb k k'); constructor; auto.
Qed.

Lemma update_values_ok (kvs : list (string * Cell)) :
  forall d,
    values_ok mname d ->
    Forall (fun kv => snd kv <> Str mname) kvs ->
    values_ok mname (PyDict.update d kvs).
Proof.
  unfold PyDict.update.
  induction kvs as [|kv kvs IH]; intros d Hd Hk; simpl; [exact Hd|].
  inversion Hk as [|? ? Hv Hk']; subst.
  apply IH; [apply set_values_ok; assumption | exact Hk'].
Qed.

Lemma combine_values_ok (ks : list string) :
  forall vs,
    Forall (fun v => v <> Str mname) vs ->
    Forall (fun kv => snd kv <> Str mname) (combine ks vs).
Proof.
  induction ks as [|k ks IH]; intros vs Hvs; simpl; [constructor|].
  destruct vs as [|v vs]; [constructor|].
  inversion Hvs; subst. constructor; [assumption | apply IH; assumption].
Qed.

Lemma record_row_values_ok (df_columns : list string) (args : Args)
    (other : string) (input_size : list Z) (idtype : nat) (r : TrialResult)
    (d : PyDict.t Cell) :
  other <> mname ->
  values_ok mname d ->
  values_ok mname
    (fst (record_row df_columns args other input_size idtype r d)).
Proof.
  intros Hne Hd. unfold record_row.
  assert (Hstr : Str other <> Str mname) by congruence.
  set (common := if (List.length d =? 0)%nat then _ else _).
  assert (Hc : values_ok mname (fst common)).
  { subst common. destruct (List.length d =? 0)%nat; [|exact Hd].
    destruct (bound "model_params" (tr_model_params r)); [|exact Hd].
    destruct (PyList.getitem input_size 0); [|exact Hd].
    destruct (PyList.getitem input_size 1); [|exact Hd].
    simpl. apply update_values_ok; [exact Hd|].
    apply combine_values_ok.
    repeat (constructor; [first [exact Hstr | discriminate]|]).
    constructor. }
  destruct common as [d' [u|e]]; simpl in *; [|exact Hc].
  destruct (PyDict.getitem (tr_final_times r) (final_speed_mode args));
    [|exact Hc].
  destruct (PyDict.getitem (tr_final_memories r) (final_memory_mode args));
    [|exact Hc].
  simpl. apply update_values_ok; [exact Hc|].
  apply combine_values_ok.
  repeat (constructor; [discriminate|]). constructor.
Qed.

Lemma trial_call_other (env : Env) (device_handle : option nat)
    (other : string) (c : Call) :
  other <> mname ->
  trial_call env device_handle other c -> ~ mentions mname c.
Proof.
  intros Hne Ht Hm. destruct c; simpl in *; try contradiction;
    try destruct Ht; congruence.
Qed.

Lemma untouched_warn (other dtype_str : string) (e : exn) (w w' : World) :
  other <> mname ->
  untouched mname w w' -> untouched mname w (warn other dtype_str e w').
Proof.
  intros Hne (Hh & (x & Ex & Fx) & Hf & Hp).
  split; [exact Hh|]. split; [|split; [exact Hf | exact Hp]].
  exists (x ++ [(other, dtype_str, e)]). simpl. rewrite Ex, app_assoc.
  split; [reflexivity|]. apply Forall_app. split; [exact Fx|].
  constructor; [exact Hne | constructor].
Qed.

Section Sweep.

Variable env : Env.
Variable args : Args.
Variable device_handle : option nat.
Variable device_initial_used : option Z.
Variable with_args : bool.

Lemma precision_step_untouched (df_columns : list string) (other : string)
    (input_size : list Z) (it : nat * string) (d : PyDict.t Cell) :
  other <> mname ->
  values_ok mname d ->
  spec (untouched mname)
       (precision_step env df_columns args device_handle device_initial_used
                       with_args other input_size it d)
       (values_ok mname).
Proof.
  intros Hne Hd w w' r H. unfold precision_step in H.
  destruct (trial env args device_handle device_initial_used with_args other
                  input_size (snd it) w) as [w1 [tr|e]] eqn:Et.
  - destruct (trial_spec env args device_handle device_initial_used with_args
                         other input_size (snd it) _ _ _ Et) as [G _].
    apply calls_only_untouched with (w := w) (w' := w1) in G;
      [|intros c; apply trial_call_other, Hne].
    pose proof (record_row_values_ok df_columns args other input_size
                                     (fst it) tr d Hne Hd) as Hrow.
    destruct (record_row df_columns args other input_size (fst it) tr d)
      as [d' [u|e]]; simpl in Hrow; inversion H; subst.
    + split; [exact G|]. intros a Ha. inversion Ha; subst. exact Hrow.
    + split; [apply untouched_warn; assumption|].
      intros a Ha. inversion Ha; subst. exact Hrow.
  - destruct (trial_spec env args device_handle device_initial_used with_args
                         other input_size (snd it) _ _ _ Et) as [G _].
    apply calls_only_untouched with (w := w) (w' := w1) in G;
      [|intros c; apply trial_call_other, Hne].
    inversion H; subst.
    split; [apply untouched_warn; assumption|].
    intros a Ha. inversion Ha; subst. exact Hd.
Qed.

Lemma write_csv_untouched (path : string) (df : DataFrame) :
  no_mention mname df ->
  spec (untouched mname) (write_csv path df) (fun _ => True).
Proof.
  intros Hdf w w' r H. unfold write_csv in H. inversion H; subst.
  split; [|auto]. repeat split; simpl.
  - exists []. rewrite app_nil_r. auto.
  - exists []. rewrite app_nil_r. auto.
  - exists [(path, df)]. split; [reflexivity|]. constructor; [exact Hdf|constructor].
  - exists []. rewrite app_nil_r. auto.
Qed.

Lemma write_html_untouched (path : string) (fig : Figure) :
  no_mention mname (fig_data fig) ->
  spec (untouched mname) (write_html path fig) (fun _ => True).
Proof.
  intros Hdf w w' r H. unfold write_html in H. inversion H; subst.
  split; [|auto]. repeat split; simpl.
  - exists []. rewrite app_nil_r. auto.
  - exists []. rewrite app_nil_r. auto.
  - exists []. rewrite app_nil_r. auto.
  - exists [(path, fig)]. split; [reflexivity|]. constructor; [exact Hdf|constructor].
Qed.

Lemma add_log10_untouched (df : DataFrame) (df_tmp : Indexed)
    (legend : string) :
  no_mention mname (values df_tmp) ->
  spec (untouched mname) (add_log10 df df_tmp legend)
       (fun t => no_mention mname (values t)).
Proof.
  intros Hdf. unfold add_log10.
  eapply ut_bind; [apply ut_lift; intros a Ha; exact Ha|].
  intros series Hseries. apply ut_ret. unfold assign.
  apply set_values_no_mention.
  - intros label. exact (log10_no_mention _ _ _ label Hseries).
  - apply take_labels_no_mention, Hdf.
Qed.

Lemma save_plot_untouched (output_dir model_name : string) (df : DataFrame)
    (axes : option (list string)) (log_x log_y : bool) (datatype : string) :
  no_mention mname df ->
  spec (untouched mname)
       (save_plot output_dir model_name df axes log_x log_y datatype)
       (fun _ => True).
Proof.
  intros Hdf. unfold save_plot. destruct axes as [axes|]; [|apply ut_ret; auto].
  eapply ut_bind with (Q := fun _ => True); [apply ut_assert; auto|].
  intros _ _.
  eapply ut_bind; [apply ut_lift; intros; exact I|]. intros xkey _.
  eapply ut_bind; [apply ut_lift; intros; exact I|]. intros ykey _.
  eapply ut_bind with (Q := fun _ => True); [apply ut_assert; auto|].
  intros _ _.
  eapply ut_bind with (Q := fun _ => True); [apply ut_assert; auto|].
  intros _ _.
  eapply ut_bind; [apply ut_lift; intros; exact I|]. intros xlegend _.
  eapply ut_bind; [apply ut_lift; intros; exact I|]. intros ylegend _.
  eapply ut_bind with (Q := fun t => no_mention mname (values t)).
  { destruct log_x; [apply add_log10_untouched | apply ut_ret];
      apply dropna_no_mention, Hdf. }
  intros df1 H1.
  eapply ut_bind with (Q := fun t => no_mention mname (values t)).
  { destruct log_y; [apply add_log10_untouched | apply ut_ret]; exact H1. }
  intros df2 H2.
  eapply ut_bind with (Q := fun fig => no_mention mname (fig_data fig)).
  { unfold px_scatter.
    destruct (has_column (values df2) xlegend
              && has_column (values df2) ylegend
              && has_column (values df2) (nth 0 TABLE_LEGENDS EmptyString));
      [apply ut_ret; exact H2 | apply ut_raise]. }
  intros fig Hfig. apply write_html_untouched, Hfig.
Qed.

Lemma contains_In (x : string) (xs : list string) :
  In x xs -> PyList.contains x xs = true.
Proof.
  intros H. unfold PyList.contains. apply existsb_exists.
  exists x. split; [exact H | apply String.eqb_refl].
Qed.

Lemma model_step_untouched (excluded : list string) (input_size : list Z)
    (other : string) (df : DataFrame) :
  In mname excluded ->
  no_mention mname df ->
  spec (untouched mname)
       (model_step env args device_handle device_initial_used with_args
                   excluded input_size other df)
       (no_mention mname).
Proof.
  intros Hex Hdf. unfold model_step.
  destruct (PyList.contains other excluded) eqn:Hc; [apply ut_ret, Hdf|].
  assert (Hne : other <> mname).
  { intros ->. rewrite (contains_In _ _ Hex) in Hc. discriminate. }
  eapply ut_bind.
  { apply ut_for_each with (I := values_ok mname).
    - intros it d _ Hd. apply precision_step_untouched; assumption.
    - constructor. }
  intros d Hd.
  destruct (0 <? List.length d)%nat; [|apply ut_ret, Hdf].
  assert (Hnew : no_mention mname (round3 (concat df (of_dict d)))).
  { apply round3_no_mention, concat_no_mention;
      [exact Hdf | apply of_dict_no_mention, Hd]. }
  eapply ut_bind; [apply write_csv_untouched, Hnew|]. intros _ _.
  eapply ut_bind; [apply ut_lift; intros; exact I|]. intros datatype _.
  eapply ut_bind; [apply save_plot_untouched, Hnew|]. intros _ _.
  apply ut_ret, Hnew.
Qed.

End Sweep.

Lemma benchmark_untouched (env : Env) (args : Args)
    (device_handle : option nat) (ex : list string) :
  exclude args = Some ex ->
  In mname ex ->
  spec (untouched mname) (benchmark env args device_handle)
       (no_mention mname).
Proof.
  intros Hex Hin. unfold benchmark. rewrite Hex.
  assert (Hav : forall names,
             spec (untouched mname) (assert_available env names)
                  (fun _ => True)).
  { intros names. unfold assert_available.
    apply ut_for_each with (I := fun _ => True); [|exact I].
    intros. apply ut_assert. auto. }
  eapply ut_bind with (Q := fun _ => True).
  { destruct (all_ args); [apply ut_ret; exact I|].
    destruct (select args) as [sel|]; [|apply ut_ret; exact I].
    destruct (0 <? List.length sel)%nat; [|apply ut_ret; exact I].
    eapply ut_bind; [apply Hav|]. intros. apply ut_ret. exact I. }
  intros names _.
  eapply ut_bind with (Q := fun excluded => excluded = ex).
  { eapply ut_bind; [apply Hav|]. intros. apply ut_ret. reflexivity. }
  intros excluded ->.
  eapply ut_bind with (Q := fun _ => True); [apply ut_assert; auto|].
  intros _ _.
  eapply ut_bind with (Q := fun _ => True).
  { destruct (pynvml_imported env); [|apply ut_ret; exact I].
    destruct device_handle as [handle|]; [|apply ut_ret; exact I].
    eapply ut_bind with (Q := fun _ => True); [|intros; apply ut_ret; exact I].
    apply ut_calls with (P := fun c => ~ mentions mname c); [auto|].
    apply spec_call_int. simpl. tauto. }
  intros initial _.
  apply ut_for_each with (I := no_mention mname); [|constructor].
  intros input_size df _ Hdf.
  apply ut_for_each with (I := no_mention mname); [|exact Hdf].
  intros other df' _ Hdf'.
  apply model_step_untouched; assumption.
Qed.

End Untouched.

(** C8. A model named in the exclusion list (whether or not it is also in
    the selection list) is skipped by the whole sweep: at every input size
    and datatype no call is made to build or run it, no warning names it,
    and no row of it is in any table or plot written or in the table
    returned. *)
Theorem excluded_model_is_skipped
    (env : Env) (args : Args) (device_handle : option nat) (mname : string)
    (sel ex : list string) (w w' : World) (res : result DataFrame) :
  select args = Some sel -> In mname sel ->
  exclude args = Some ex -> In mname ex ->
  benchmark env args device_handle w = (w', res) ->
  (exists new, history w' = history w ++ new
               /\ Forall (fun cr => ~ mentions mname (fst cr)) new)
  /\ (exists new, files w' = files w ++ new
                  /\ Forall (fun pf => no_mention mname (snd pf)) new)
  /\ (exists new, plots w' = plots w ++ new
                  /\ Forall (fun pf => no_mention mname (fig_data (snd pf)))
                            new)
  /\ (forall df, res = Ok df -> no_mention mname df).
Proof.
  intros _ _ Hex Hin H.
  destruct (benchmark_untouched mname env args device_handle ex Hex Hin
                                _ _ _ H) as [(Hh & _ & Hf & Hp) Hdf].
  auto.
Qed.

Lemma excluded_model_is_skipped_witness :
  exists w' df,
    benchmark sample_env sample_args_excluding_pwc (Some O) initial_world
    = (w', Ok df)
    /\ no_mention "pwc" df
    /\ List.length (rows df) = 2%nat
    /\ List.length (files w') = 2%nat.
Proof.
  destruct (benchmark sample_env sample_args_excluding_pwc (Some O)
                      initial_world) as [w' [df|e]] eqn:E.
  - exists w', df. split; [reflexivity|].
    destruct (excluded_model_is_skipped sample_env sample_args_excluding_pwc
                (Some O) "pwc" ["raft"; "pwc"] ["pwc"] initial_world w'
                (Ok df) eq_refl (or_intror (or_introl eq_refl)) eq_refl
                (or_introl eq_refl) E) as (_ & _ & _ & Hdf).
    split; [apply Hdf; reflexivity|].
    vm_compute in E. injection E as <- <-. split; reflexivity.
  - vm_compute in E. discriminate.
Defined.

(** ** C4: a failing datatype *)

Lemma plots_only_refl (w : World) : plots_only w w.
Proof. repeat split. Qed.

Lemma plots_only_trans (a b c : World) :
  plots_only a b -> plots_only b c -> plots_only a c.
Proof. intros (? & ? & ?) (? & ? & ?). repeat split; congruence. Qed.

Lemma save_plot_plots_only (output_dir model_name : string) (df : DataFrame)
    (axes : option (list string)) (log_x log_y : bool) (datatype : string) :
  spec plots_only
       (save_plot output_dir model_name df axes log_x log_y datatype)
       (fun _ => True).
Proof.
  assert (R : forall (A : Type) (a : A), spec plots_only (ret a) (fun _ => True))
    by (intros; apply spec_ret; [apply plots_only_refl | exact I]).
  assert (E : forall (A : Type) (e : exn),
             spec plots_only (@raise A e) (fun _ => True))
    by (intros; apply spec_raise, plots_only_refl).
  assert (L : forall (A : Type) (r : result A),
             spec plots_only (lift r) (fun _ => True))
    by (intros; apply spec_lift; [apply plots_only_refl | auto]).
  assert (S : forall b, spec plots_only (assert b) (fun _ => True))
    by (intros; apply spec_assert; [apply plots_only_refl | auto]).
  assert (B : forall (A B : Type) (c : M A) (k : A -> M B),
             spec plots_only c (fun _ => True) ->
             (forall a, spec plots_only (k a) (fun _ => True)) ->
             spec plots_only (bind c k) (fun _ => True)).
  { intros A B c k Hc Hk.
    eapply spec_bind; eauto using plots_only_refl, plots_only_trans. }
  assert (Lg : forall d1 d2 l, spec plots_only (add_log10 d1 d2 l)
                                    (fun _ => True)).
  { intros. unfold add_log10. apply B; auto. }
  unfold save_plot. destruct axes as [axes|]; [|apply R].
  repeat (apply B; [solve [auto]|intros]).
  apply B; [destruct log_x; auto|intros].
  apply B; [destruct log_y; auto|intros].
  apply B.
  - unfold px_scatter.
    destruct (has_column _ _ && has_column _ _ && has_column _ _); auto.
  - intros fig w w' r H. unfold write_html in H. inversion H; subst.
    split; [repeat split | auto].
Qed.

Lemma final_times_keys (ts : list Q) (d : PyDict.t Q) (mode : string) :
  Reduce.final_times ts = Ok d ->
  In mode speed_choices ->
  exists t, PyDict.getitem d mode = Ok t /\ PyDict.get d mode = Some t.
Proof.
  intros H Hin.
  destruct (final_times_ok ts (final_times_nonempty _ _ H))
    as (x2 & x100 & x20 & x10 & E & _).
  rewrite E in H. injection H as <-.
  unfold PyDict.getitem.
  simpl in Hin.
  destruct Hin as [<-|[<-|[<-|[<-|[<-|[]]]]]]; simpl; eauto.
Qed.

Lemma final_memories_keys (ms : list Z) (first : Z) (d : PyDict.t Q)
    (mode : string) :
  Reduce.final_memories ms first = Ok d ->
  In mode memory_choices ->
  exists m, PyDict.getitem d mode = Ok m /\ PyDict.get d mode = Some m.
Proof.
  intros H Hin.
  assert (Hne : ms <> []) by (intros ->; discriminate).
  destruct (final_memories_ok ms first Hne)
    as (x2 & x100 & x20 & x10 & E & _).
  rewrite E in H. injection H as <-.
  unfold PyDict.getitem.
  simpl in Hin.
  destruct Hin as [<-|[<-|[<-|[<-|[<-|[<-|[]]]]]]]; simpl; eauto.
Qed.

Section FailingDatatype.

Variable env : Env.
Variable args : Args.
Variable device_handle : option nat.
Variable device_initial_used : option Z.
Variable with_args : bool.
Variable mname : string.
Variable input_size : list Z.

(** The handler: an exception of the trial becomes a warning with the
    model and the datatype, the row under construction is left as it was,
    and the loop over the datatypes goes on. *)
Lemma precision_step_catches (df_columns : list string) (it : nat * string)
    (d : PyDict.t Cell) (w w1 : World) (e : exn) :
  trial env args device_handle device_initial_used with_args mname input_size
        (snd it) w = (w1, Raise e) ->
  precision_step env df_columns args device_handle device_initial_used
                 with_args mname input_size it d w
  = (warn mname (snd it) e w1, Ok d)
  /\ warnings (warn mname (snd it) e w1)
     = warnings w ++ [(mname, snd it, e)]
  /\ files (warn mname (snd it) e w1) = files w
  /\ plots (warn mname (snd it) e w1) = plots w.
Proof.
  intros H. unfold precision_step. rewrite H. split; [reflexivity|].
  destruct (trial_spec env args device_handle device_initial_used with_args
                       mname input_size (snd it) _ _ _ H)
    as [(_ & Hw & Hf & Hp) _].
  simpl. rewrite Hw. auto.
Qed.

(** The row of a successful trial, written into an empty dictionary for
    the datatype at position [idtype]. *)
Lemma record_row_fresh (df_columns : list string) (idtype : nat)
    (r : TrialResult) :
  trial_post args device_handle input_size r ->
  In (final_speed_mode args) speed_choices ->
  In (final_memory_mode args) memory_choices ->
  exists params h wd t m,
    tr_model_params r = Some params
    /\ PyList.getitem input_size 0 = Ok h
    /\ PyList.getitem input_size 1 = Ok wd
    /\ PyDict.get (tr_final_times r) (final_speed_mode args) = Some t
    /\ PyDict.get (tr_final_memories r) (final_memory_mode args) = Some m
    /\ record_row df_columns args mname input_size idtype r []
       = (PyDict.update
            (PyDict.update []
               (combine (firstn NUM_COMMON_COLUMNS df_columns)
                  [Str mname; Num (inject_Z params / 1000000)%Q;
                   Num (inject_Z (tr_flops r) / 1000000000)%Q;
                   Num (inject_Z h); Num (inject_Z wd);
                   Num (inject_Z (h * wd))]))
            (combine (PyList.slice df_columns
                        (NUM_COMMON_COLUMNS + 2 * idtype)
                        (NUM_COMMON_COLUMNS + 2 * (idtype + 1)))
               [Num (t * 1000)%Q; Num (m / inject_Z (1024 ^ 3))%Q]),
          Ok tt).
Proof.
  intros (_ & _ & _ & Hp & (h & wd & Hh & Hw) & Hft & Hfm & _) Hs Hm.
  destruct (tr_model_params r) as [params|] eqn:Ep; [|congruence].
  destruct (final_times_keys _ _ _ Hft Hs) as (t & Ht & Ht').
  destruct (final_memories_keys _ _ _ _ Hfm Hm) as (m & Hm1 & Hm').
  exists params, h, wd, t, m.
  repeat (split; [assumption || reflexivity|]).
  unfold record_row. rewrite Ep, Hh, Hw, Ht, Hm1. reflexivity.
Qed.

Lemma bind_eq {A B : Type} (c : M A) (k : A -> M B) (w w1 : World) (a : A) :
  c w = (w1, Ok a) -> bind c k w = k a w1.
Proof. intros H. unfold bind. rewrite H. reflexivity. Qed.

Lemma precision_step_records (df_columns : list string) (it : nat * string)
    (d d' : PyDict.t Cell) (w w1 : World) (r : TrialResult) :
  trial env args device_handle device_initial_used with_args mname input_size
        (snd it) w = (w1, Ok r) ->
  record_row df_columns args mname input_size (fst it) r d = (d', Ok tt) ->
  precision_step env df_columns args device_handle device_initial_used
                 with_args mname input_size it d w
  = (w1, Ok d').
Proof.
  intros H Hr. unfold precision_step. rewrite H, Hr. reflexivity.
Qed.

(** What [model_step] does once the rows of the datatypes are collected in
    a dictionary that is not empty. *)
Lemma model_step_emits (excluded : list string) (df : DataFrame)
    (d : PyDict.t Cell) (first_dtype : string) (rest : list string)
    (w w1 : World) :
  PyList.contains mname excluded = false ->
  datatypes args = first_dtype :: rest ->
  for_each (PyList.enumerate (datatypes args))
           (precision_step env (columns df) args device_handle
                           device_initial_used with_args mname input_size)
           [] w = (w1, Ok d) ->
  (0 <? List.length d)%nat = true ->
  let table := round3 (concat df (of_dict d)) in
  exists w2 res,
    model_step env args device_handle device_initial_used with_args excluded
               input_size mname df w = (w2, res)
    /\ warnings w2 = warnings w1
    /\ files w2
       = files w1
         ++ [((output_path args ++ "/model_benchmark-" ++ mname ++ ".csv")%string,
              table)]
    /\ (forall df', res = Ok df' -> df' = table)
    /\ (plot_axes args = None -> res = Ok table).
Proof.
  intros Hex Hdt Hfor Hlen table. unfold model_step.
  rewrite Hex, (bind_eq _ _ _ _ _ Hfor), Hlen.
  unfold write_csv at 1. unfold bind at 1.
  rewrite Hdt. unfold lift at 1. unfold bind at 1. cbn [PyList.getitem nth_error].
  fold table.
  set (w1' := {| history := history w1; warnings := warnings w1;
                 files := files w1 ++ [(_, table)]; plots := plots w1 |}).
  destruct (save_plot (output_path args) mname table (plot_axes args)
                      (plot_log_x args) (plot_log_y args) first_dtype w1')
    as [w2 res0] eqn:Ep.
  destruct (save_plot_plots_only _ _ _ _ _ _ _ _ _ _ Ep) as [(Hh & Hw & Hf) _].
  exists w2.
  exists (match res0 with Ok _ => Ok table | Raise e => Raise e end).
  split.
  { unfold bind. rewrite Ep. destruct res0; reflexivity. }
  split; [rewrite Hw; reflexivity|].
  split; [rewrite Hf; reflexivity|].
  split.
  - intros df' E. destruct res0; inversion E; reflexivity.
  - intros Hnone. rewrite Hnone in Ep. unfold save_plot, ret in Ep.
    injection Ep as <- <-. reflexivity.
Qed.

End FailingDatatype.

Section SameRow.

Variable env : Env.
Variable args : Args.
Variable device_handle : option nat.
Variable device_initial_used : option Z.
Variable with_args : bool.
Variable mname : string.
Variable input_size : list Z.
Variable excluded : list string.

Hypothesis not_excluded : PyList.contains mname excluded = false.
Hypothesis speed_mode_ok : In (final_speed_mode args) speed_choices.
Hypothesis memory_mode_ok : In (final_memory_mode args) memory_choices.

(** The fp16 trial comes first and fails, the fp32 trial succeeds. *)
Lemma fp16_first_fails (df : DataFrame) (w w1 w2 : World) (e : exn)
    (r : TrialResult) :
  datatypes args = ["fp16"; "fp32"] ->
  columns df = initial_columns ["fp16"; "fp32"] ->
  trial env args device_handle device_initial_used with_args mname input_size
        "fp16" w = (w1, Raise e) ->
  trial env args device_handle device_initial_used with_args mname input_size
        "fp32" (warn mname "fp16" e w1) = (w2, Ok r) ->
  exists w3 res,
    model_step env args device_handle device_initial_used with_args excluded
               input_size mname df w = (w3, res)
    /\ fp32_row_recorded args mname df r e w w3 res.
Proof.
  intros Hdt Hcols H16 H32.
  destruct df as [cols rows0]. cbn [columns] in Hcols. subst cols.
  set (df := {| columns := initial_columns ["fp16"; "fp32"]; rows := rows0 |}).
  destruct (trial_spec env args device_handle device_initial_used with_args
                       mname input_size "fp32" _ _ _ H32)
    as [(_ & Hw32 & Hf32 & _) Hpost].
  specialize (Hpost r eq_refl).
  destruct (record_row_fresh args device_handle mname input_size (columns df)
                             1 r Hpost speed_mode_ok memory_mode_ok)
    as (params & h & wd & t & m & _ & _ & _ & Ht & Hm & Hrow).
  destruct (precision_step_catches env args device_handle device_initial_used
              with_args mname input_size (columns df) (O, "fp16") [] w w1 e H16)
    as (Hstep16 & Hw16 & Hf16 & _).
  pose proof (precision_step_records env args device_handle
                device_initial_used with_args mname input_size (columns df)
                (1%nat, "fp32") [] _ _ _ r H32 Hrow) as Hstep32.
  cbn [fst snd] in *.
  match type of Hstep32 with _ = (_, Ok ?d) => set (d8 := d) in * end.
  assert (Hfor : for_each (PyList.enumerate (datatypes args))
                   (precision_step env (columns df) args device_handle
                      device_initial_used with_args mname input_size)
                   [] w = (w2, Ok d8)).
  { rewrite Hdt. cbn [PyList.enumerate PyList.enumerate_from for_each].
    rewrite (bind_eq _ _ _ _ _ Hstep16), (bind_eq _ _ _ _ _ Hstep32).
    reflexivity. }
  assert (Hlen : (0 <? List.length d8)%nat = true) by reflexivity.
  destruct (model_step_emits env args device_handle device_initial_used
              with_args mname input_size excluded df d8 "fp16" ["fp32"]
              w w2 not_excluded Hdt Hfor Hlen)
    as (w3 & res & Hstep & Hw3 & Hf3 & Hres & Hnone).
  exists w3, res. split; [exact Hstep|].
  exists (round3 (concat df (of_dict d8))).
  exists (map (map round_cell)
              (map (reindex (columns df) (columns df)) rows0)).
  eexists. exists t, m.
  split; [rewrite Hw3, Hw32; exact Hw16|].
  split; [rewrite Hf3, Hf32, Hf16; reflexivity|].
  split; [reflexivity|].
  split.
  { unfold round3, concat. cbn [rows columns df map]. rewrite map_app.
    reflexivity. }
  split; [rewrite !length_map; reflexivity|].
  split; [exact Ht|]. split; [exact Hm|].
  repeat split; try reflexivity; assumption.
Qed.

(** The fp32 trial comes first and succeeds, the fp16 trial fails. *)
Lemma fp16_last_fails (df : DataFrame) (w w1 w2 : World) (e : exn)
    (r : TrialResult) :
  datatypes args = ["fp32"; "fp16"] ->
  columns df = initial_columns ["fp32"; "fp16"] ->
  trial env args device_handle device_initial_used with_args mname input_size
        "fp32" w = (w1, Ok r) ->
  trial env args device_handle device_initial_used with_args mname input_size
        "fp16" w1 = (w2, Raise e) ->
  exists w3 res,
    model_step env args device_handle device_initial_used with_args excluded
               input_size mname df w = (w3, res)
    /\ fp32_row_recorded args mname df r e w w3 res.
Proof.
  intros Hdt Hcols H32 H16.
  destruct df as [cols rows0]. cbn [columns] in Hcols. subst cols.
  set (df := {| columns := initial_columns ["fp32"; "fp16"]; rows := rows0 |}).
  destruct (trial_spec env args device_handle device_initial_used with_args
                       mname input_size "fp32" _ _ _ H32)
    as [(_ & Hw32 & Hf32 & _) Hpost].
  specialize (Hpost r eq_refl).
  destruct (record_row_fresh args device_handle mname input_size (columns df)
                             0 r Hpost speed_mode_ok memory_mode_ok)
    as (params & h & wd & t & m & _ & _ & _ & Ht & Hm & Hrow).
  pose proof (precision_step_records env args device_handle
                device_initial_used with_args mname input_size (columns df)
                (O, "fp32") [] _ _ _ r H32 Hrow) as Hstep32.
  cbn [fst snd] in *.
  match type of Hstep32 with _ = (_, Ok ?d) => set (d8 := d) in * end.
  destruct (precision_step_catches env args device_handle device_initial_used
              with_args mname input_size (columns df) (1%nat, "fp16") d8
              w1 w2 e H16)
    as (Hstep16 & Hw16 & Hf16 & _).
  cbn [fst snd] in *.
  assert (Hfor : for_each (PyList.enumerate (datatypes args))
                   (precision_step env (columns df) args device_handle
                      device_initial_used with_args mname input_size)
                   [] w = (warn mname "fp16" e w2, Ok d8)).
  { rewrite Hdt. cbn [PyList.enumerate PyList.enumerate_from for_each].
    rewrite (bind_eq _ _ _ _ _ Hstep32), (bind_eq _ _ _ _ _ Hstep16).
    reflexivity. }
  assert (Hlen : (0 <? List.length d8)%nat = true) by reflexivity.
  destruct (model_step_emits env args device_handle device_initial_used
              with_args mname input_size excluded df d8 "fp32" ["fp16"]
              w _ not_excluded Hdt Hfor Hlen)
    as (w3 & res & Hstep & Hw3 & Hf3 & Hres & Hnone).
  exists w3, res. split; [exact Hstep|].
  exists (round3 (concat df (of_dict d8))).
  exists (map (map round_cell)
              (map (reindex (columns df) (columns df)) rows0)).
  eexists. exists t, m.
  split; [rewrite Hw3, Hw16, Hw32; reflexivity|].
  split; [rewrite Hf3, Hf16, Hf32; reflexivity|].
  split; [reflexivity|].
  split.
  { unfold round3, concat. cbn [rows columns df map]. rewrite map_app.
    reflexivity. }
  split; [rewrite !length_map; reflexivity|].
  split; [exact Ht|]. split; [exact Hm|].
  repeat split; try reflexivity; assumption.
Qed.

End SameRow.

(** C4. An exception of the trial of one datatype is caught in the loop
    over the datatypes: a warning with the model and the datatype is
    logged, the row under construction is left without the cells of this
    pair, and the loop goes on. When the fp16 trial of a model fails and
    its fp32 trial succeeds, in either order of the two datatypes, the row
    of the model is written with the fp32 time and memory and with nothing
    in the fp16 cells. *)
Theorem failing_datatype_leaves_the_others_in_the_row :
  (forall (env : Env) (args : Args) (device_handle : option nat)
          (device_initial_used : option Z) (with_args : bool)
          (mname : string) (input_size : list Z) (df_columns : list string)
          (idtype : nat) (dtype_str : string) (new_df_dict : PyDict.t Cell)
          (w w1 : World) (e : exn),
      trial env args device_handle device_initial_used with_args mname
            input_size dtype_str w = (w1, Raise e) ->
      exists w',
        precision_step env df_columns args device_handle device_initial_used
                       with_args mname input_size (idtype, dtype_str)
                       new_df_dict w
        = (w', Ok new_df_dict)
        /\ warnings w' = warnings w ++ [(mname, dtype_str, e)]
        /\ history w' = history w1
        /\ files w' = files w
        /\ plots w' = plots w)
  /\ (forall (env : Env) (args : Args) (device_handle : option nat)
             (device_initial_used : option Z) (with_args : bool)
             (mname : string) (input_size : list Z) (excluded : list string)
             (df : DataFrame) (w w1 w2 : World) (e : exn) (r : TrialResult),
         PyList.contains mname excluded = false ->
         In (final_speed_mode args) speed_choices ->
         In (final_memory_mode args) memory_choices ->
         datatypes args = ["fp16"; "fp32"] ->
         columns df = initial_columns ["fp16"; "fp32"] ->
         trial env args device_handle device_initial_used with_args mname
               input_size "fp16" w = (w1, Raise e) ->
         trial env args device_handle device_initial_used with_args mname
               input_size "fp32" (warn mname "fp16" e w1) = (w2, Ok r) ->
         exists w3 res,
           model_step env args device_handle device_initial_used with_args
                      excluded input_size mname df w = (w3, res)
           /\ fp32_row_recorded args mname df r e w w3 res)
  /\ (forall (env : Env) (args : Args) (device_handle : option nat)
             (device_initial_used : option Z) (with_args : bool)
             (mname : string) (input_size : list Z) (excluded : list string)
             (df : DataFrame) (w w1 w2 : World) (e : exn) (r : TrialResult),
         PyList.contains mname excluded = false ->
         In (final_speed_mode args) speed_choices ->
         In (final_memory_mode args) memory_choices ->
         datatypes args = ["fp32"; "fp16"] ->
         columns df = initial_columns ["fp32"; "fp16"] ->
         trial env args device_handle device_initial_used with_args mname
               input_size "fp32" w = (w1, Ok r) ->
         trial env args device_handle device_initial_used with_args mname
               input_size "fp16" w1 = (w2, Raise e) ->
         exists w3 res,
           model_step env args device_handle device_initial_used with_args
                      excluded input_size mname df w = (w3, res)
           /\ fp32_row_recorded args mname df r e w w3 res).
Proof.
  split; [|split].
  - intros env args dh diu wa mname isz cols idtype dtype_str d w w1 e H.
    destruct (precision_step_catches env args dh diu wa mname isz cols
                (idtype, dtype_str) d w w1 e H) as (Hs & Hw & Hf & Hp).
    exists (warn mname dtype_str e w1). repeat split; assumption.
  - intros. eapply fp16_first_fails; eassumption.
  - intros. eapply fp16_last_fails; eassumption.
Qed.

Lemma failing_datatype_leaves_the_others_in_the_row_witness :
  exists w1 e w2 r w3 res,
    trial sample_env sample_args (Some O) (Some sample_initial_used) false
          "pwc" [100; 200] "fp16" sample_started = (w1, Raise e)
    /\ trial sample_env sample_args (Some O) (Some sample_initial_used) false
             "pwc" [100; 200] "fp32" (warn "pwc" "fp16" e w1) = (w2, Ok r)
    /\ model_step sample_env sample_args (Some O) (Some sample_initial_used)
                  false [] [100; 200] "pwc"
                  {| columns := initial_columns ["fp16"; "fp32"]; rows := [] |}
                  sample_started = (w3, res)
    /\ fp32_row_recorded sample_args "pwc"
         {| columns := initial_columns ["fp16"; "fp32"]; rows := [] |}
         r e sample_started w3 res.
Proof.
  destruct (trial sample_env sample_args (Some O) (Some sample_initial_used)
                  false "pwc" [100; 200] "fp16" sample_started)
    as [w1 [r0|e]] eqn:E16; [vm_compute in E16; discriminate|].
  destruct (trial sample_env sample_args (Some O) (Some sample_initial_used)
                  false "pwc" [100; 200] "fp32" (warn "pwc" "fp16" e w1))
    as [w2 [r|e']] eqn:E32.
  - destruct failing_datatype_leaves_the_others_in_the_row as (_ & Hrow & _).
    destruct (Hrow sample_env sample_args (Some O) (Some sample_initial_used)
                   false "pwc" [100; 200] []
                   {| columns := initial_columns ["fp16"; "fp32"]; rows := [] |}
                   sample_started w1 w2 e r eq_refl
                   (or_intror (or_introl eq_refl))
                   (or_intror (or_intror (or_intror (or_intror
                      (or_intror (or_introl eq_refl))))))
                   eq_refl eq_refl E16 E32)
      as (w3 & res & Hstep & Hrec).
    exists w1, e, w2, r, w3, res. auto.
  - vm_compute in E16. injection E16 as <- <-.
    vm_compute in E32. discriminate.
Defined.

(** * Further properties of the harness *)

(** ** The reductions are ordered *)

Section SortedNth.

Context {A : Type} (le : A -> A -> Prop).
Hypothesis le_refl : forall x, le x x.
Hypothesis le_trans : forall x y z, le x y -> le y z -> le x z.

Lemma sorted_nth_error_le (s : list A) :
  Sorted le s ->
  forall i j a b,
    (i <= j)%nat -> nth_error s i = Some a -> nth_error s j = Some b ->
    le a b.
Proof.
  intros Hs. apply Sorted_StronglySorted in Hs; [|exact le_trans].
  induction Hs as [|x s Hs IH Hall]; intros i j a b Hij Ha Hb.
  - destruct i; discriminate.
  - destruct i as [|i], j as [|j]; simpl in *.
    + injection Ha as <-. injection Hb as <-. apply le_refl.
    + injection Ha as <-. rewrite Forall_forall in Hall.
      apply Hall. eapply nth_error_In; exact Hb.
    + lia.
    + eapply IH; [|exact Ha | exact Hb]. lia.
Qed.

End SortedNth.

Lemma div_le_mono_divisor (L a b : nat) :
  (0 < b <= a)%nat -> (L / a <= L / b)%nat.
Proof. intros H. apply Nat.div_le_compat_l. exact H. Qed.

(** X1. For every non-empty sequence of latency samples the reported
    percentiles and the median are ordered,
    perc1 <= perc5 <= perc10 <= median, and each of them is one of the
    samples. *)
Theorem latency_reductions_are_ordered (all_times : list Q) :
  all_times <> [] ->
  exists d perc1 perc5 perc10 median,
    Reduce.final_times (Reduce.Qsort all_times) = Ok d
    /\ PyDict.get d "perc1" = Some perc1
    /\ PyDict.get d "perc5" = Some perc5
    /\ PyDict.get d "perc10" = Some perc10
    /\ PyDict.get d "median" = Some median
    /\ (perc1 <= perc5)%Q /\ (perc5 <= perc10)%Q /\ (perc10 <= median)%Q
    /\ In perc1 all_times /\ In perc5 all_times
    /\ In perc10 all_times /\ In median all_times.
Proof.
  intros Hne.
  set (s := Reduce.Qsort all_times).
  assert (Hs : s <> []).
  { intros E. pose proof (Qsort_length all_times) as Hl. fold s in Hl.
    rewrite E in Hl. destruct all_times; [congruence | discriminate]. }
  destruct (final_times_ok s Hs)
    as (x2 & x100 & x20 & x10 & E & H2 & H100 & H20 & H10).
  pose proof (Qsort_sorted all_times) as Hsorted. fold s in Hsorted.
  assert (Hle : forall i j a b, (i <= j)%nat ->
                  nth_error s i = Some a -> nth_error s j = Some b ->
                  (a <= b)%Q).
  { apply sorted_nth_error_le; [apply Qle_refl | apply Qle_trans | exact Hsorted]. }
  assert (Hin : forall x, In x s -> In x all_times).
  { intros x Hx. eapply Permutation_in; [apply Qsort_perm | exact Hx]. }
  exists [("avg", Reduce.mean s); ("median", x2); ("perc1", x100);
          ("perc5", x20); ("perc10", x10)], x100, x20, x10, x2.
  split; [exact E|]. repeat (split; [reflexivity|]).
  split; [eapply Hle; [apply div_le_mono_divisor | exact H100 | exact H20]; lia|].
  split; [eapply Hle; [apply div_le_mono_divisor | exact H20 | exact H10]; lia|].
  split; [eapply Hle; [apply div_le_mono_divisor | exact H10 | exact H2]; lia|].
  split; [apply Hin; eapply nth_error_In; exact H100|].
  split; [apply Hin; eapply nth_error_In; exact H20|].
  split; [apply Hin; eapply nth_error_In; exact H10|].
  apply Hin; eapply nth_error_In; exact H2.
Qed.

Lemma latency_reductions_are_ordered_witness :
  exists d perc1 median,
    Reduce.final_times (Reduce.Qsort [3; 1; 2]%Q) = Ok d
    /\ PyDict.get d "perc1" = Some perc1
    /\ PyDict.get d "median" = Some median
    /\ (perc1 <= median)%Q.
Proof.
  destruct (latency_reductions_are_ordered [3; 1; 2]%Q)
    as (d & p1 & p5 & p10 & med & E & H1 & _ & _ & Hm
        & H15 & H510 & H10m & _).
  - discriminate.
  - exists d, p1, med. repeat (split; [assumption|]).
    eapply Qle_trans; [exact H15|]. eapply Qle_trans; eassumption.
Defined.

(** ** Rounding the table *)

Lemma rint_comp (p q : Q) : (p == q)%Q -> rint p = rint q.
Proof.
  intros E. unfold rint. rewrite (Qfloor_comp _ _ E).
  assert (C : ((p - inject_Z (Qfloor q)) ?= (1 # 2))%Q
              = ((q - inject_Z (Qfloor q)) ?= (1 # 2))%Q).
  { apply Qcompare_comp; [rewrite E|]; reflexivity. }
  rewrite C. reflexivity.
Qed.

Lemma rint_Z (k : Z) : rint (inject_Z k) = k.
Proof.
  unfold rint. rewrite Qfloor_Z.
  assert (C : ((inject_Z k - inject_Z k) ?= (1 # 2))%Q = Lt).
  { apply Qlt_alt. setoid_replace (inject_Z k - inject_Z k)%Q with 0%Q by ring.
    reflexivity. }
  rewrite C. reflexivity.
Qed.

Lemma Qred_inject_Z (z : Z) : Qred (inject_Z z) = inject_Z z.
Proof.
  unfold Qred, inject_Z.
  pose proof (Z.ggcd_gcd z 1) as Hg.
  pose proof (Z.ggcd_correct_divisors z 1) as Hd.
  destruct (Z.ggcd z 1) as [g [a b]]. simpl in *.
  rewrite Z.gcd_1_r in Hg. subst g. destruct Hd as [Ha Hb].
  rewrite Z.mul_1_l in Ha, Hb. subst. reflexivity.
Qed.

Lemma round_cell_idempotent (c : Cell) :
  round_cell (round_cell c) = round_cell c.
Proof.
  destruct c as [| |q|]; try reflexivity. cbn [round_cell].
  f_equal. apply Qred_complete.
  assert (E : (Qred (inject_Z (rint (q * 1000)) / 1000) * 1000
               == inject_Z (rint (q * 1000)))%Q).
  { rewrite Qred_correct. field. }
  rewrite (rint_comp _ _ E), rint_Z. reflexivity.
Qed.

(** X2. Rounding to three decimals is idempotent: [df.round(3)], which the
    sweep applies to the whole table after every model, changes no row that
    was rounded before, and a whole number of the table stays as it is. *)
Theorem rounding_the_table_again_changes_nothing (df : DataFrame) :
  round3 (round3 df) = round3 df
  /\ (forall z : Z, round_cell (Num (inject_Z z)) = Num (inject_Z z))
  /\ (forall q : Q,
         exists k : Z,
           round_cell (Num q) = Num (Qred (inject_Z k / 1000))
           /\ (Qabs (inject_Z k - q * 1000) <= 1 # 2)%Q).
Proof.
  split; [|split].
  - unfold round3. cbn [columns rows]. f_equal. rewrite map_map.
    apply map_ext. intros row. rewrite map_map. apply map_ext.
    apply round_cell_idempotent.
  - intros z. cbn [round_cell]. f_equal.
    assert (E : (inject_Z z * 1000 == inject_Z (z * 1000))%Q)
      by (rewrite inject_Z_mult; reflexivity).
    rewrite (rint_comp _ _ E), rint_Z.
    rewrite <- (Qred_inject_Z z).
    apply Qred_complete. rewrite inject_Z_mult. field.
  - intros q. exists (rint (q * 1000)). split; [reflexivity|].
    unfold rint. set (x := (q * 1000)%Q). set (f := Qfloor x).
    assert (Hlo : (inject_Z f <= x)%Q) by apply Qfloor_le.
    assert (Hhi : (x < inject_Z (f + 1))%Q) by apply Qlt_floor.
    rewrite inject_Z_plus in Hhi.
    destruct ((x - inject_Z f) ?= (1 # 2))%Q eqn:C;
      [apply Qeq_alt in C | apply Qlt_alt in C | apply Qgt_alt in C];
      try destruct (Z.even f); try rewrite inject_Z_plus;
      change (inject_Z 1) with 1%Q in *;
      apply Qabs_Qle_condition; split; lra.
Qed.

(** ** Triples *)

Lemma triple_ret {A : Type} (a : A) (Q : A -> World -> Prop)
    (E : exn -> World -> Prop) :
  triple (Q a) (ret a) Q E.
Proof. intros w w' r HP H. unfold ret in H. inversion H; subst. exact HP. Qed.

Lemma triple_bind {A B : Type} (P : World -> Prop) (c : M A) (k : A -> M B)
    (Q : A -> World -> Prop) (R : B -> World -> Prop)
    (E : exn -> World -> Prop) :
  triple P c Q E -> (forall a, triple (Q a) (k a) R E) ->
  triple P (bind c k) R E.
Proof.
  intros Hc Hk w w' r HP H.
  apply bind_inv in H as [(w1 & a & Hc1 & Hk1)|(e & Hc1 & ->)].
  - eapply Hk; [|exact Hk1]. exact (Hc _ _ _ HP Hc1).
  - exact (Hc _ _ _ HP Hc1).
Qed.

Lemma triple_for_each {A S : Type} (I : S -> World -> Prop)
    (E : exn -> World -> Prop) (body : A -> S -> M S) (xs : list A) :
  (forall x s, In x xs -> triple (I s) (body x s) I E) ->
  forall s, triple (I s) (for_each xs body s) I E.
Proof.
  induction xs as [|x xs IH]; intros Hb s; simpl.
  - apply triple_ret.
  - eapply triple_bind.
    + apply Hb. left; reflexivity.
    + intros s'. apply IH. intros y t Hy. apply Hb. right; exact Hy.
Qed.

(** ** The columns of the table *)

Lemma keys_set {V : Type} (d : PyDict.t V) (k : string) (v : V) :
  PyDict.keys (PyDict.set d k v)
  = if PyList.contains k (PyDict.keys d) then PyDict.keys d
    else PyDict.keys d ++ [k].
Proof.
  induction d as [|[k' v'] d IH]; simpl; [reflexivity|].
  destruct (String.eqb k k') eqn:E; simpl; [reflexivity|].
  rewrite IH. unfold PyDict.keys.
  destruct (PyList.contains k (map fst d)); reflexivity.
Qed.

Lemma contains_true_iff (x : string) (xs : list string) :
  PyList.contains x xs = true <-> In x xs.
Proof.
  unfold PyList.contains. rewrite existsb_exists. split.
  - intros (y & Hy & E). apply String.eqb_eq in E. subst. exact Hy.
  - intros H. exists x. split; [exact H | apply String.eqb_refl].
Qed.

Lemma contains_false_iff (x : string) (xs : list string) :
  PyList.contains x xs = false <-> ~ In x xs.
Proof.
  rewrite <- contains_true_iff. destruct (PyList.contains x xs); split;
    intros H; try reflexivity; try discriminate; try congruence.
Qed.

Lemma keys_set_In {V : Type} (d : PyDict.t V) (k k' : string) (v : V) :
  In k' (PyDict.keys (PyDict.set d k v)) <-> In k' (PyDict.keys d) \/ k' = k.
Proof.
  rewrite keys_set. destruct (PyList.contains k (PyDict.keys d)) eqn:C.
  - apply contains_true_iff in C. split; [auto|].
    intros [H| ->]; assumption.
  - rewrite in_app_iff. simpl. split.
    + intros [H|[H|[]]]; auto.
    + intros [H|H]; auto.
Qed.

Lemma keys_set_NoDup {V : Type} (d : PyDict.t V) (k : string) (v : V) :
  NoDup (PyDict.keys d) -> NoDup (PyDict.keys (PyDict.set d k v)).
Proof.
  intros H. rewrite keys_set.
  destruct (PyList.contains k (PyDict.keys d)) eqn:C; [exact H|].
  apply contains_false_iff in C.
  apply NoDup_app; [exact H | repeat constructor; intros [] |].
  intros x Hx [<-|[]]. contradiction.
Qed.

Lemma keys_update {V : Type} (kvs : list (string * V)) :
  forall d : PyDict.t V,
    (NoDup (PyDict.keys d) -> NoDup (PyDict.keys (PyDict.update d kvs)))
    /\ (forall k, In k (PyDict.keys (PyDict.update d kvs))
                  <-> In k (PyDict.keys d) \/ In k (map fst kvs)).
Proof.
  unfold PyDict.update.
  induction kvs as [|[k v] kvs IH]; intros d; simpl.
  - split; [auto|]. intros k. tauto.
  - destruct (IH (PyDict.set d k v)) as [IH1 IH2]. split.
    + intros H. apply IH1, keys_set_NoDup, H.
    + intros k'. rewrite IH2, keys_set_In. split.
      * intros [[H|H]|H]; auto.
      * intros [H|[H|H]]; auto.
Qed.

Lemma get_set {V : Type} (d : PyDict.t V) (k k' : string) (v : V) :
  PyDict.get (PyDict.set d k v) k'
  = if String.eqb k' k then Some v else PyDict.get d k'.
Proof.
  induction d as [|[k0 v0] d IH]; simpl.
  - reflexivity.
  - destruct (String.eqb k k0) eqn:E; simpl.
    + apply String.eqb_eq in E. subst k0.
      destruct (String.eqb k' k); reflexivity.
    + rewrite IH. destruct (String.eqb k' k0) eqn:E0; [|reflexivity].
      apply String.eqb_eq in E0. subst k0.
      destruct (String.eqb k' k) eqn:E1; [|reflexivity].
      apply String.eqb_eq in E1. subst k'. rewrite String.eqb_refl in E.
      discriminate.
Qed.

Lemma initial_columns_facts (dts : list string) :
  NoDup (initial_columns dts)
  /\ (forall c, In c (firstn 6 TABLE_LEGENDS) -> In c (initial_columns dts))
  /\ firstn NUM_COMMON_COLUMNS (initial_columns dts) = firstn 6 TABLE_LEGENDS
  /\ (forall d, In d dts ->
        In ("Time(ms)-" ++ d)%string (initial_columns dts)
        /\ In ("Memory(GB)-" ++ d)%string (initial_columns dts)).
Proof.
  unfold initial_columns.
  match goal with
  | |- context [fold_left ?f _ _] => set (step := f)
  end.
  assert (G : forall (dts : list string) (d0 : PyDict.t unit),
             NoDup (PyDict.keys d0) ->
             NoDup (PyDict.keys (fold_left step dts d0))
             /\ (forall c, In c (PyDict.keys d0) ->
                           In c (PyDict.keys (fold_left step dts d0)))
             /\ (exists more, PyDict.keys (fold_left step dts d0)
                              = PyDict.keys d0 ++ more)
             /\ (forall d, In d dts ->
                   In ("Time(ms)-" ++ d)%string
                      (PyDict.keys (fold_left step dts d0))
                   /\ In ("Memory(GB)-" ++ d)%string
                         (PyDict.keys (fold_left step dts d0)))).
  { clear dts. induction dts as [|d dts IH]; intros d0 Hnd; simpl.
    - split; [exact Hnd|]. split; [auto|]. split; [exists []; symmetry; apply app_nil_r|].
      intros d [].
    - assert (Hnd' : NoDup (PyDict.keys (step d0 d)))
        by (unfold step; apply keys_set_NoDup, keys_set_NoDup, Hnd).
      destruct (IH (step d0 d) Hnd') as (H1 & H2 & (more & H3) & H4).
      assert (Hin : forall c, In c (PyDict.keys d0) ->
                              In c (PyDict.keys (step d0 d))).
      { intros c Hc. unfold step. apply keys_set_In. left.
        apply keys_set_In. left. exact Hc. }
      split; [exact H1|]. split; [intros c Hc; apply H2, Hin, Hc|].
      split.
      { rewrite H3. unfold step. rewrite !keys_set.
        destruct (PyList.contains _ (PyDict.keys d0)).
        - destruct (PyList.contains _ (PyDict.keys d0));
            [exists more; reflexivity|].
          eexists. rewrite <- app_assoc. reflexivity.
        - destruct (PyList.contains _ (PyDict.keys d0 ++ _));
            eexists; rewrite <- ?app_assoc; reflexivity. }
      intros d' [<-|Hd']; [|apply H4, Hd'].
      split; apply H2; unfold step.
      + apply keys_set_In. left. apply keys_set_In. right. reflexivity.
      + apply keys_set_In. right. reflexivity. }
  set (d0 := map (fun legend : string => (legend, tt)) (firstn 6 TABLE_LEGENDS)).
  assert (K0 : PyDict.keys d0 = firstn 6 TABLE_LEGENDS) by reflexivity.
  assert (Hnd0 : NoDup (PyDict.keys d0)).
  { rewrite K0. cbv [firstn TABLE_LEGENDS TABLE_KEYS TABLE_KEYS_LEGENDS
                     PyDict.keys PyDict.get map fst].
    simpl. repeat constructor; simpl; intuition discriminate. }
  destruct (G dts d0 Hnd0) as (H1 & H2 & (more & H3) & H4).
  split; [exact H1|]. split; [intros c Hc; apply H2; rewrite K0; exact Hc|].
  split; [|exact H4].
  rewrite H3, K0. unfold NUM_COMMON_COLUMNS.
  rewrite firstn_app. replace (6 - List.length (firstn 6 TABLE_LEGENDS))%nat
    with O by reflexivity.
  rewrite firstn_firstn. simpl. reflexivity.
Qed.

(** ** The row of a model *)

Lemma row_keys_update (cols : list string) (d : PyDict.t Cell)
    (kvs : list (string * Cell)) :
  row_keys_ok cols d ->
  (forall k, In k (map fst kvs) -> In k cols) ->
  row_keys_ok cols (PyDict.update d kvs).
Proof.
  intros [Hnd Hin] Hk. destruct (keys_update kvs d) as [H1 H2].
  split; [apply H1, Hnd|].
  intros k Hk'. apply H2 in Hk' as [Hk'|Hk']; auto.
Qed.

Lemma combine_keys_in {B : Type} (ks : list string) (vs : list B) (k : string) :
  In k (map fst (combine ks vs)) -> In k ks.
Proof.
  intros H. apply in_map_iff in H as ([k' v] & <- & H).
  apply in_combine_l in H. exact H.
Qed.

Lemma slice_in {A : Type} (xs : list A) (lo hi : nat) (x : A) :
  In x (PyList.slice xs lo hi) -> In x xs.
Proof.
  unfold PyList.slice. intros H.
  apply in_firstn_in in H. apply in_skipn_in in H. exact H.
Qed.

Lemma record_row_keys (cols : list string) (args : Args) (mname : string)
    (input_size : list Z) (idtype : nat) (r : TrialResult)
    (d d' : PyDict.t Cell) (res : result unit) :
  row_keys_ok cols d ->
  record_row cols args mname input_size idtype r d = (d', res) ->
  row_keys_ok cols d'.
Proof.
  intros Hd H. unfold record_row in H.
  assert (Hcommon : forall vs : list Cell,
             row_keys_ok cols
               (PyDict.update d (combine (firstn NUM_COMMON_COLUMNS cols) vs))).
  { intros vs. apply row_keys_update; [exact Hd|].
    intros k Hk. apply combine_keys_in in Hk.
    apply in_firstn_in in Hk. exact Hk. }
  assert (Hown : forall (d0 : PyDict.t Cell) (vs : list Cell),
             row_keys_ok cols d0 ->
             row_keys_ok cols
               (PyDict.update d0
                  (combine (PyList.slice cols
                              (NUM_COMMON_COLUMNS + 2 * idtype)
                              (NUM_COMMON_COLUMNS + 2 * (idtype + 1))) vs))).
  { intros d0 vs Hd0. apply row_keys_update; [exact Hd0|].
    intros k Hk. apply combine_keys_in in Hk.
    apply slice_in in Hk. exact Hk. }
  destruct (List.length d =? 0)%nat;
    repeat (cbv beta iota zeta in H;
            match type of H with
            | context [match bound ?a ?b with _ => _ end] =>
                destruct (bound a b)
            | context [match PyList.getitem ?a ?b with _ => _ end] =>
                destruct (PyList.getitem a b)
            | context [match PyDict.getitem ?a ?b with _ => _ end] =>
                destruct (PyDict.getitem a b)
            end);
    cbv beta iota zeta in H; inversion H; subst; auto.
Qed.

Section Rows.

Variable env : Env.
Variable args : Args.
Variable device_handle : option nat.
Variable device_initial_used : option Z.
Variable with_args : bool.
Variable input_size : list Z.

(** The loop over the datatypes of a model always comes to its end: what
    a trial raises is caught. It writes no file and no plot, and the keys
    of the row it builds are columns of the table. *)
Lemma precision_steps_outcome (cols : list string) (mname : string)
    (its : list (nat * string)) :
  forall (d : PyDict.t Cell) (w : World),
    row_keys_ok cols d ->
    exists w1 d1,
      for_each its
        (precision_step env cols args device_handle device_initial_used
                        with_args mname input_size) d w
      = (w1, Ok d1)
      /\ row_keys_ok cols d1
      /\ files w1 = files w
      /\ plots w1 = plots w
      /\ (its = [] -> d1 = d).
Proof.
  induction its as [|it its IH]; intros d w Hd; simpl.
  - exists w, d. repeat split; auto; apply Hd.
  - assert (Hstep : exists w0 d0,
               precision_step env cols args device_handle device_initial_used
                              with_args mname input_size it d w = (w0, Ok d0)
               /\ row_keys_ok cols d0
               /\ files w0 = files w /\ plots w0 = plots w).
    { unfold precision_step.
      destruct (trial env args device_handle device_initial_used with_args
                      mname input_size (snd it) w) as [w0 [r|e]] eqn:Ht;
        destruct (trial_spec env args device_handle device_initial_used
                    with_args mname input_size (snd it) _ _ _ Ht)
          as [(_ & _ & Hf & Hp) _].
      - destruct (record_row cols args mname input_size (fst it) r d)
          as [d0 [u|e]] eqn:Hr;
          pose proof (record_row_keys _ _ _ _ _ _ _ _ _ Hd Hr) as Hd0.
        + exists w0, d0. auto.
        + exists (warn mname (snd it) e w0), d0. auto.
      - exists (warn mname (snd it) e w0), d. auto. }
    destruct Hstep as (w0 & d0 & Hs & Hd0 & Hf0 & Hp0).
    destruct (IH d0 w0 Hd0) as (w1 & d1 & Hfor & Hd1 & Hf1 & Hp1 & _).
    exists w1, d1. unfold bind. rewrite Hs, Hfor.
    repeat split; try apply Hd1; try congruence.
Qed.

End Rows.

(** ** Appending the row to the table *)

Lemma index_of_nth (cols : list string) (i : nat) :
  NoDup cols -> (i < List.length cols)%nat ->
  index_of (nth i cols EmptyString) cols = Some i.
Proof.
  revert i. induction cols as [|c cols IH]; intros i Hnd Hi; simpl in *.
  - lia.
  - inversion Hnd as [|? ? Hnotin Hnd']; subst.
    destruct i as [|i].
    + rewrite String.eqb_refl. reflexivity.
    + destruct (String.eqb (nth i cols EmptyString) c) eqn:E.
      * apply String.eqb_eq in E. exfalso. apply Hnotin. rewrite <- E.
        apply nth_In. lia.
      * rewrite IH; [reflexivity | exact Hnd' | lia].
Qed.

Lemma reindex_same (cols : list string) (row : list Cell) :
  NoDup cols -> List.length row = List.length cols ->
  reindex cols cols row = row.
Proof.
  intros Hnd Hlen. unfold reindex.
  apply nth_ext with (d := cell cols row EmptyString) (d' := NaN).
  - rewrite length_map. symmetry. exact Hlen.
  - intros n Hn. rewrite length_map in Hn.
    rewrite map_nth. unfold cell. rewrite index_of_nth by assumption.
    reflexivity.
Qed.

Lemma concat_appends_row (df : DataFrame) (d : PyDict.t Cell) :
  NoDup (columns df) ->
  Forall (fun row => List.length row = List.length (columns df)) (rows df) ->
  row_keys_ok (columns df) d ->
  concat df (of_dict d)
  = {| columns := columns df;
       rows := rows df
               ++ [reindex (PyDict.keys d) (columns df) (map snd d)] |}.
Proof.
  intros Hnd Hrows [_ Hin]. unfold concat, of_dict. cbn [columns rows].
  assert (F : filter (fun c => negb (PyList.contains c (columns df)))
                     (PyDict.keys d) = []).
  { induction (PyDict.keys d) as [|k ks IH]; simpl; [reflexivity|].
    rewrite (contains_In k (columns df)) by (apply Hin; left; reflexivity).
    simpl. apply IH. intros k' Hk'. apply Hin. right. exact Hk'. }
  rewrite F, app_nil_r. f_equal. simpl. f_equal.
  induction Hrows as [|row rs Hrow _ IH]; simpl; [reflexivity|].
  rewrite reindex_same by assumption. f_equal. exact IH.
Qed.


(** ** The model and the input size in a row *)

Lemma get_update_other {V : Type} (kvs : list (string * V)) :
  forall (d : PyDict.t V) (k : string),
    ~ In k (map fst kvs) ->
    PyDict.get (PyDict.update d kvs) k = PyDict.get d k.
Proof.
  unfold PyDict.update.
  induction kvs as [|[k0 v0] kvs IH]; intros d k Hk; simpl; [reflexivity|].
  rewrite IH by (intros H; apply Hk; right; exact H).
  rewrite get_set. cbn [fst snd].
  destruct (String.eqb_spec k k0) as [->|_]; [|reflexivity].
  exfalso. apply Hk. left. reflexivity.
Qed.

Lemma NoDup_app_disjoint {A : Type} (l l' : list A) (a : A) :
  NoDup (l ++ l') -> In a l -> ~ In a l'.
Proof.
  induction l as [|x l IH]; simpl; intros Hnd Hin; [contradiction|].
  inversion Hnd as [|? ? Hnot Hnd']; subst.
  destruct Hin as [->|Hin]; [|apply IH; assumption].
  intros H. apply Hnot. apply in_or_app. right. exact H.
Qed.

Lemma slice_beyond_common (cols : list string) (j hi : nat) (k : string) :
  NoDup cols ->
  In k (firstn NUM_COMMON_COLUMNS cols) ->
  ~ In k (PyList.slice cols (NUM_COMMON_COLUMNS + j) hi).
Proof.
  intros Hnd Hk Hin. unfold PyList.slice in Hin.
  apply in_firstn_in in Hin.
  rewrite Nat.add_comm, <- skipn_skipn in Hin.
  apply in_skipn_in in Hin.
  rewrite <- (firstn_skipn NUM_COMMON_COLUMNS cols) in Hnd.
  exact (NoDup_app_disjoint _ _ _ Hnd Hk Hin).
Qed.

Lemma record_row_common (dts : list string) (args : Args) (mname : string)
    (input_size : list Z) (idtype : nat) (r : TrialResult)
    (d d' : PyDict.t Cell) (res : result unit) :
  row_common mname input_size d ->
  record_row (initial_columns dts) args mname input_size idtype r d
  = (d', res) ->
  row_common mname input_size d'.
Proof.
  intros Hd H.
  destruct (initial_columns_facts dts) as (Hnd & Hcommon & Hfirst & _).
  assert (Hown : forall (d0 : PyDict.t Cell) (vs : list Cell),
             row_common mname input_size d0 -> d0 <> [] ->
             row_common mname input_size
               (PyDict.update d0
                  (combine (PyList.slice (initial_columns dts)
                              (NUM_COMMON_COLUMNS + 2 * idtype)
                              (NUM_COMMON_COLUMNS + 2 * (idtype + 1))) vs))).
  { intros d0 vs [->|(h & wd & Hh & Hw & G1 & G2 & G3 & G4)] Hne;
      [contradiction|].
    right. exists h, wd. split; [exact Hh|]. split; [exact Hw|].
    assert (K : forall k, In k (firstn 6 TABLE_LEGENDS) ->
                  ~ In k (map fst
                            (combine
                               (PyList.slice (initial_columns dts)
                                  (NUM_COMMON_COLUMNS + 2 * idtype)
                                  (NUM_COMMON_COLUMNS + 2 * (idtype + 1)))
                               vs))).
    { intros k Hk Hin. apply combine_keys_in in Hin.
      rewrite <- Hfirst in Hk.
      exact (slice_beyond_common _ _ _ _ Hnd Hk Hin). }
    rewrite !get_update_other by (apply K; cbv; tauto).
    auto. }
  unfold record_row in H.
  destruct (List.length d =? 0)%nat eqn:Hlen.
  - apply Nat.eqb_eq in Hlen. apply length_zero_iff_nil in Hlen. subst d.
    destruct (bound "model_params" (tr_model_params r)) as [params|e];
      [|inversion H; subst; left; reflexivity].
    destruct (PyList.getitem input_size 0) as [h|e] eqn:Hh;
      [|inversion H; subst; left; reflexivity].
    destruct (PyList.getitem input_size 1) as [wd|e] eqn:Hw;
      [|inversion H; subst; left; reflexivity].
    cbv beta iota zeta in H. rewrite Hfirst in H.
    match type of H with
    | context [PyDict.update [] ?kvs] =>
        set (d1 := PyDict.update [] kvs) in H
    end.
    assert (Hd1 : row_common mname input_size d1).
    { right. exists h, wd. rewrite Hh, Hw. repeat split; reflexivity. }
    assert (Hne : d1 <> []) by discriminate.
    destruct (PyDict.getitem (tr_final_times r) (final_speed_mode args));
      [|inversion H; subst; exact Hd1].
    destruct (PyDict.getitem (tr_final_memories r) (final_memory_mode args));
      [|inversion H; subst; exact Hd1].
    inversion H; subst. apply Hown; assumption.
  - cbv beta iota zeta in H.
    assert (Hne : d <> []).
    { intros ->. discriminate. }
    destruct (PyDict.getitem (tr_final_times r) (final_speed_mode args));
      [|inversion H; subst; exact Hd].
    destruct (PyDict.getitem (tr_final_memories r) (final_memory_mode args));
      [|inversion H; subst; exact Hd].
    inversion H; subst. apply Hown; assumption.
Qed.

Lemma precision_steps_common (env : Env) (dts : list string) (args : Args)
    (device_handle : option nat) (device_initial_used : option Z)
    (with_args : bool) (mname : string) (input_size : list Z)
    (its : list (nat * string)) :
  forall (d d1 : PyDict.t Cell) (w w1 : World),
    row_common mname input_size d ->
    for_each its
      (precision_step env (initial_columns dts) args device_handle
                      device_initial_used with_args mname input_size) d w
    = (w1, Ok d1) ->
    row_common mname input_size d1.
Proof.
  induction its as [|it its IH]; intros d d1 w w1 Hd H; simpl in H.
  - inversion H; subst. exact Hd.
  - apply bind_ok in H as (w0 & d0 & Hs & H).
    apply (IH d0 d1 w0 w1); [|exact H].
    unfold precision_step in Hs.
    destruct (trial env args device_handle device_initial_used with_args
                    mname input_size (snd it) w) as [w2 [r|e]];
      [|inversion Hs; subst; exact Hd].
    destruct (record_row (initial_columns dts) args mname input_size (fst it)
                         r d) as [d2 res] eqn:Hr.
    pose proof (record_row_common _ _ _ _ _ _ _ _ _ Hd Hr) as Hd2.
    destruct res; inversion Hs; subst; exact Hd2.
Qed.

Lemma cell_keys_get (d : PyDict.t Cell) (c : string) :
  cell (PyDict.keys d) (map snd d) c
  = match PyDict.get d c with
    | Some v => v
    | None => NaN
    end.
Proof.
  unfold cell, PyDict.keys.
  induction d as [|[k v] d IH]; simpl; [reflexivity|].
  destruct (String.eqb c k); [reflexivity|].
  destruct (index_of c (map fst d)); simpl; exact IH.
Qed.

Lemma cell_map (cols : list string) (f : string -> Cell) (c : string) :
  In c cols -> cell cols (map f cols) c = f c.
Proof.
  unfold cell. induction cols as [|c0 cols IH]; intros Hin; [contradiction|].
  simpl. destruct (String.eqb_spec c c0) as [->|Hne]; [reflexivity|].
  destruct Hin as [->|Hin]; [contradiction|].
  specialize (IH Hin).
  destruct (index_of c cols); simpl; exact IH.
Qed.

Lemma appended_row_cell (df : DataFrame) (d : PyDict.t Cell) (c : string) :
  In c (columns df) ->
  cell (columns df) (appended_row df d) c
  = round_cell match PyDict.get d c with
               | Some v => v
               | None => NaN
               end.
Proof.
  intros Hin. unfold appended_row, reindex. rewrite map_map.
  rewrite (cell_map (columns df)
             (fun x => round_cell (cell (PyDict.keys d) (map snd d) x)) c Hin).
  rewrite cell_keys_get. reflexivity.
Qed.

Lemma round_cell_whole (z : Z) :
  round_cell (Num (inject_Z z)) = Num (inject_Z z).
Proof.
  cbn [round_cell]. f_equal.
  assert (E : (inject_Z z * 1000 == inject_Z (z * 1000))%Q)
    by (rewrite inject_Z_mult; reflexivity).
  rewrite (rint_comp _ _ E), rint_Z.
  rewrite <- (Qred_inject_Z z).
  apply Qred_complete. rewrite inject_Z_mult. field.
Qed.

Lemma appended_row_of (dts : list string) (df : DataFrame)
    (d : PyDict.t Cell) (mname : string) (input_size : list Z) :
  columns df = initial_columns dts ->
  row_common mname input_size d ->
  d <> [] ->
  exists h w,
    PyList.getitem input_size 0 = Ok h
    /\ PyList.getitem input_size 1 = Ok w
    /\ row_of (columns df) (appended_row df d) mname h w.
Proof.
  intros Hcols [->|(h & wd & Hh & Hw & G1 & G2 & G3 & G4)] Hne;
    [contradiction|].
  exists h, wd. split; [exact Hh|]. split; [exact Hw|].
  destruct (initial_columns_facts dts) as (_ & Hcommon & _).
  assert (Hin : forall c, In c (firstn 6 TABLE_LEGENDS) -> In c (columns df)).
  { intros c Hc. rewrite Hcols. apply Hcommon, Hc. }
  unfold row_of.
  rewrite !appended_row_cell by (apply Hin; cbv; tauto).
  rewrite G1, G2, G3, G4, !round_cell_whole. auto.
Qed.

(** *** The strings of a row *)

Lemma set_strings_ok (d : PyDict.t Cell) (k : string) (v : Cell) :
  row_strings_ok d ->
  (is_str v = true -> k = "Model") ->
  row_strings_ok (PyDict.set d k v).
Proof.
  intros Hd Hv k' v' Hget Hstr. rewrite get_set in Hget.
  destruct (String.eqb_spec k' k) as [->|_].
  - injection Hget as <-. apply Hv, Hstr.
  - exact (Hd _ _ Hget Hstr).
Qed.

Lemma update_strings_ok (kvs : list (string * Cell)) :
  forall d : PyDict.t Cell,
    row_strings_ok d ->
    Forall (fun kv => is_str (snd kv) = true -> fst kv = "Model") kvs ->
    row_strings_ok (PyDict.update d kvs).
Proof.
  unfold PyDict.update.
  induction kvs as [|[k v] kvs IH]; intros d Hd Hkvs; simpl; [exact Hd|].
  inversion Hkvs as [|? ? Hkv Hrest]; subst.
  apply IH; [|exact Hrest]. apply set_strings_ok; assumption.
Qed.

Lemma record_row_strings (dts : list string) (args : Args) (mname : string)
    (input_size : list Z) (idtype : nat) (r : TrialResult)
    (d d' : PyDict.t Cell) (res : result unit) :
  row_strings_ok d ->
  record_row (initial_columns dts) args mname input_size idtype r d
  = (d', res) ->
  row_strings_ok d'.
Proof.
  intros Hd H.
  destruct (initial_columns_facts dts) as (_ & _ & Hfirst & _).
  assert (Hown : forall (d0 : PyDict.t Cell) (t m : Q),
             row_strings_ok d0 ->
             row_strings_ok
               (PyDict.update d0
                  (combine (PyList.slice (initial_columns dts)
                              (NUM_COMMON_COLUMNS + 2 * idtype)
                              (NUM_COMMON_COLUMNS + 2 * (idtype + 1)))
                           [Num (t * 1000)%Q;
                            Num (m / inject_Z (1024 ^ 3))%Q]))).
  { intros d0 t m Hd0. apply update_strings_ok; [exact Hd0|].
    apply Forall_forall. intros [k v] Hin Hstr. apply in_combine_r in Hin.
    cbn [snd] in Hstr.
    destruct Hin as [<-|[<-|[]]]; discriminate. }
  assert (Hcommon : forall (d0 : PyDict.t Cell) (v1 v2 v3 v4 v5 : Q),
             row_strings_ok d0 ->
             row_strings_ok
               (PyDict.update d0
                  (combine (firstn 6 TABLE_LEGENDS)
                           [Str mname; Num v1; Num v2; Num v3; Num v4;
                            Num v5]))).
  { intros d0 v1 v2 v3 v4 v5 Hd0. apply update_strings_ok; [exact Hd0|].
    cbv [firstn TABLE_LEGENDS TABLE_KEYS TABLE_KEYS_LEGENDS PyDict.keys
         PyDict.get map fst combine].
    cbn. repeat constructor; cbn [fst snd is_str]; intros;
      try reflexivity; discriminate. }
  unfold record_row in H.
  destruct (List.length d =? 0)%nat.
  - destruct (bound "model_params" (tr_model_params r)) as [params|e];
      [|inversion H; subst; exact Hd].
    destruct (PyList.getitem input_size 0) as [h|e];
      [|inversion H; subst; exact Hd].
    destruct (PyList.getitem input_size 1) as [wd|e];
      [|inversion H; subst; exact Hd].
    cbv beta iota zeta in H. rewrite Hfirst in H.
    destruct (PyDict.getitem (tr_final_times r) (final_speed_mode args));
      [|inversion H; subst; apply Hcommon, Hd].
    destruct (PyDict.getitem (tr_final_memories r) (final_memory_mode args));
      [|inversion H; subst; apply Hcommon, Hd].
    inversion H; subst. apply Hown, Hcommon, Hd.
  - cbv beta iota zeta in H.
    destruct (PyDict.getitem (tr_final_times r) (final_speed_mode args));
      [|inversion H; subst; exact Hd].
    destruct (PyDict.getitem (tr_final_memories r) (final_memory_mode args));
      [|inversion H; subst; exact Hd].
    inversion H; subst. apply Hown, Hd.
Qed.

Lemma precision_steps_strings (env : Env) (dts : list string) (args : Args)
    (device_handle : option nat) (device_initial_used : option Z)
    (with_args : bool) (mname : string) (input_size : list Z)
    (its : list (nat * string)) :
  forall (d d1 : PyDict.t Cell) (w w1 : World),
    row_strings_ok d ->
    for_each its
      (precision_step env (initial_columns dts) args device_handle
                      device_initial_used with_args mname input_size) d w
    = (w1, Ok d1) ->
    row_strings_ok d1.
Proof.
  induction its as [|it its IH]; intros d d1 w w1 Hd H; simpl in H.
  - inversion H; subst. exact Hd.
  - apply bind_ok in H as (w0 & d0 & Hs & H).
    apply (IH d0 d1 w0 w1); [|exact H].
    unfold precision_step in Hs.
    destruct (trial env args device_handle device_initial_used with_args
                    mname input_size (snd it) w) as [w2 [r|e]];
      [|inversion Hs; subst; exact Hd].
    destruct (record_row (initial_columns dts) args mname input_size (fst it)
                         r d) as [d2 res] eqn:Hr.
    pose proof (record_row_strings _ _ _ _ _ _ _ _ _ Hd Hr) as Hd2.
    destruct res; inversion Hs; subst; exact Hd2.
Qed.

Lemma is_str_round_cell (c : Cell) : is_str (round_cell c) = is_str c.
Proof. destruct c; reflexivity. Qed.

Lemma appended_row_strings (df : DataFrame) (d : PyDict.t Cell) (c : string) :
  row_strings_ok d ->
  c <> "Model" ->
  is_str (cell (columns df) (appended_row df d) c) = false.
Proof.
  intros Hd Hc.
  destruct (PyList.contains c (columns df)) eqn:C.
  - apply contains_true_iff in C. rewrite (appended_row_cell df d c C).
    rewrite is_str_round_cell.
    destruct (PyDict.get d c) as [v|] eqn:G; [|reflexivity].
    destruct (is_str v) eqn:S; [|reflexivity].
    exfalso. apply Hc. exact (Hd _ _ G S).
  - unfold cell.
    assert (E : index_of c (columns df) = None).
    { clear -C. induction (columns df) as [|c0 cols IH]; [reflexivity|].
      simpl in *. apply orb_false_iff in C as [C0 C]. rewrite C0.
      rewrite (IH C). reflexivity. }
    rewrite E. reflexivity.
Qed.

Lemma table_ok_append (dts : list string) (df : DataFrame)
    (d : PyDict.t Cell) :
  table_ok dts df ->
  row_keys_ok (columns df) d ->
  row_strings_ok d ->
  round3 (concat df (of_dict d))
  = {| columns := columns df; rows := rows df ++ [appended_row df d] |}
  /\ table_ok dts {| columns := columns df;
                     rows := rows df ++ [appended_row df d] |}.
Proof.
  intros [Hcols Hrows] Hd Hstr.
  assert (Hnd : NoDup (columns df))
    by (rewrite Hcols; apply initial_columns_facts).
  assert (Hlen : Forall (fun row => List.length row = List.length (columns df))
                        (rows df))
    by (eapply Forall_impl; [|exact Hrows]; intros row [H _]; exact H).
  rewrite (concat_appends_row df d Hnd Hlen Hd).
  assert (Hold : map (map round_cell) (rows df) = rows df).
  { clear Hlen. induction Hrows as [|row rs (_ & Hrow & _) _ IH]; simpl;
      [reflexivity|]. rewrite Hrow, IH. reflexivity. }
  split.
  - unfold round3, appended_row. cbn [columns rows].
    rewrite map_app, Hold. reflexivity.
  - split; [exact Hcols|]. cbn [columns rows].
    apply Forall_app. split; [exact Hrows|].
    constructor; [|constructor]. split; [|split].
    + unfold appended_row, reindex. rewrite !length_map. reflexivity.
    + unfold appended_row. rewrite map_map. apply map_ext.
      intros c. apply round_cell_idempotent.
    + intros c Hc. apply appended_row_strings; assumption.
Qed.

(** ** The plot of a table of the sweep *)

Lemma axis_legend_column (dts : list string) (key datatype : string) :
  PyList.contains key TABLE_KEYS = true ->
  In datatype dts ->
  exists legend,
    axis_legend key datatype = Ok legend
    /\ In legend (initial_columns dts)
    /\ (key <> "model" -> legend <> "Model").
Proof.
  intros Hkey Hdt. apply contains_true_iff in Hkey.
  destruct (initial_columns_facts dts) as (_ & Hcommon & _ & Hown).
  destruct (Hown _ Hdt) as [Htime Hmem].
  cbv [TABLE_KEYS TABLE_KEYS_LEGENDS PyDict.keys map fst In] in Hkey.
  destruct Hkey as [<-|[<-|[<-|[<-|[<-|[<-|[<-|[<-|[]]]]]]]]];
    (eexists; split; [reflexivity|]);
    (split; [|first [intros H; exfalso; apply H; reflexivity
                    | intros _; discriminate]]);
    try (apply Hcommon; cbv; tauto).
  - exact Htime.
  - exact Hmem.
Qed.

Lemma set_values_keeps_columns (t : Indexed) (c c' : string)
    (series : list Cell) :
  In c (icolumns t) -> In c (icolumns (set_values t c' series)).
Proof.
  intros H. unfold set_values. destruct (index_of c' (icolumns t)); simpl.
  - exact H.
  - apply in_or_app. left. exact H.
Qed.

Lemma take_labels_columns (t : Indexed) (series : list Cell) :
  icolumns (take_labels t series) = icolumns t.
Proof. unfold take_labels. destruct (_ && _); reflexivity. Qed.

Lemma assign_keeps_columns (t : Indexed) (c c' : string)
    (series : list Cell) :
  In c (icolumns t) -> In c (icolumns (assign t c' series)).
Proof.
  intros H. unfold assign. apply set_values_keeps_columns.
  rewrite take_labels_columns. exact H.
Qed.

Lemma take_labels_length (t : Indexed) (series : list Cell) :
  List.length (irows (take_labels t series))
  = if (List.length (irows t) =? 0)%nat then List.length series
    else List.length (irows t).
Proof.
  unfold take_labels.
  destruct (List.length (irows t) =? 0)%nat eqn:E; cbn [andb];
    [|reflexivity].
  destruct (0 <? List.length series)%nat eqn:S.
  - cbn [irows]. rewrite length_map, length_seq. reflexivity.
  - apply Nat.eqb_eq in E. apply Nat.ltb_ge in S. lia.
Qed.

(** A column without a string has a logarithm. *)
Lemma log10_of_column_ok (df : DataFrame) (legend : string) :
  In legend (columns df) ->
  Forall (fun row => is_str (cell (columns df) row legend) = false)
         (rows df) ->
  exists series,
    log10_of_column df legend = Ok series
    /\ List.length series = List.length (rows df).
Proof.
  intros Hin Hrows. unfold log10_of_column, has_column.
  rewrite (contains_In _ _ Hin).
  assert (E : existsb is_str
                (map (fun row => cell (columns df) row legend) (rows df))
              = false).
  { induction Hrows as [|row rs Hrow _ IH]; simpl; [reflexivity|].
    rewrite Hrow, IH. reflexivity. }
  rewrite E. eexists. split; [reflexivity|]. rewrite !length_map. reflexivity.
Qed.


Lemma add_log10_runs (df : DataFrame) (t : Indexed) (legend : string)
    (flag : bool) (w : World) :
  In legend (columns df) ->
  (flag = true ->
   Forall (fun row => is_str (cell (columns df) row legend) = false)
          (rows df)) ->
  (forall c, In c (columns df) -> In c (icolumns t)) ->
  exists t',
    (if flag then add_log10 df t legend else ret t) w = (w, Ok t')
    /\ (forall c, In c (columns df) -> In c (icolumns t'))
    /\ List.length (irows t')
       = if flag && (List.length (irows t) =? 0)%nat
         then List.length (rows df) else List.length (irows t).
Proof.
  intros Hl Hnum Hsub. destruct flag; cbn [andb].
  - destruct (log10_of_column_ok df legend Hl (Hnum eq_refl))
      as (series & Hs & Hlen).
    unfold add_log10. rewrite Hs. unfold bind, lift, ret.
    eexists. split; [reflexivity|]. split.
    + intros c Hc. apply assign_keeps_columns, Hsub, Hc.
    + unfold assign. rewrite set_values_length, take_labels_length, Hlen.
      reflexivity.
  - exists t. split; [reflexivity|]. auto.
Qed.

Lemma table_ok_numbers (dts : list string) (df : DataFrame)
    (legend : string) :
  table_ok dts df ->
  legend <> "Model" ->
  Forall (fun row => is_str (cell (columns df) row legend) = false)
         (rows df).
Proof.
  intros [_ Hrows] Hl. eapply Forall_impl; [|exact Hrows].
  intros row (_ & _ & H). apply H, Hl.
Qed.

Lemma save_plot_in_sweep (dts : list string) (output_dir model_name : string)
    (df : DataFrame) (axes : option (list string)) (log_x log_y : bool)
    (datatype : string) (w : World) :
  table_ok dts df ->
  In datatype dts ->
  match axes with
  | None => True
  | Some axes => axes_valid axes log_x log_y
  end ->
  exists w',
    save_plot output_dir model_name df axes log_x log_y datatype w
    = (w', Ok tt).
Proof.
  intros Hok Hdt Haxes. destruct axes as [axes|]; [|exists w; reflexivity].
  destruct Haxes as (xkey & ykey & -> & Hx & Hy & Hlx & Hly).
  assert (Hcols : columns df = initial_columns dts) by apply Hok.
  destruct (axis_legend_column dts xkey datatype Hx Hdt)
    as (xl & Hxl & Hxin & Hxm).
  destruct (axis_legend_column dts ykey datatype Hy Hdt)
    as (yl & Hyl & Hyin & Hym).
  rewrite <- Hcols in Hxin, Hyin.
  assert (Hmodel : In (nth 0 TABLE_LEGENDS EmptyString) (columns df)).
  { rewrite Hcols. apply initial_columns_facts. cbv. tauto. }
  destruct (add_log10_runs df (dropna_rows (copy df)) xl log_x w Hxin)
    as (t1 & H1 & Hsub1 & _).
  { intros E. apply (table_ok_numbers dts); [exact Hok | apply Hxm, Hlx, E]. }
  { intros c Hc; exact Hc. }
  destruct (add_log10_runs df t1 yl log_y w Hyin) as (t2 & H2 & Hsub2 & _).
  { intros E. apply (table_ok_numbers dts); [exact Hok | apply Hym, Hly, E]. }
  { exact Hsub1. }
  unfold save_plot. cbn [List.length Nat.eqb].
  erewrite bind_eq by reflexivity.
  erewrite bind_eq by reflexivity.
  erewrite bind_eq by reflexivity.
  erewrite bind_eq by (rewrite Hx; reflexivity).
  erewrite bind_eq by (rewrite Hy; reflexivity).
  cbv zeta.
  erewrite bind_eq by (rewrite Hxl; reflexivity).
  erewrite bind_eq by (rewrite Hyl; reflexivity).
  erewrite bind_eq by exact H1.
  erewrite bind_eq by exact H2.
  unfold px_scatter, has_column. cbn [values columns].
  rewrite (contains_In _ _ (Hsub2 _ Hxin)), (contains_In _ _ (Hsub2 _ Hyin)),
    (contains_In _ _ (Hsub2 _ Hmodel)).
  cbn [andb]. erewrite bind_eq by reflexivity.
  unfold write_html. eexists. reflexivity.
Qed.

(** ** One model of the sweep *)

Lemma enumerate_nil {A : Type} (xs : list A) :
  PyList.enumerate xs = [] -> xs = [].
Proof. destruct xs; [reflexivity | discriminate]. Qed.

Lemma enumerate_length {A : Type} (xs : list A) :
  List.length (PyList.enumerate xs) = List.length xs.
Proof.
  unfold PyList.enumerate. generalize 0%nat.
  induction xs as [|x xs IH]; intros n; simpl;
    [reflexivity | rewrite IH; reflexivity].
Qed.

Section ModelStep.

Variable env : Env.
Variable args : Args.
Variable device_handle : option nat.
Variable device_initial_used : option Z.
Variable with_args : bool.
Variable excluded : list string.
Variable input_size : list Z.

(** What [model_step] does to a table of the sweep: it leaves the table
    and the files as they are, or it appends one row and writes the new
    table under the name of the model; only the plot can make it raise. *)
Lemma model_step_outcome (mname : string) (df : DataFrame) (w : World) :
  table_ok (datatypes args) df ->
  exists w' res,
    model_step env args device_handle device_initial_used with_args excluded
               input_size mname df w = (w', res)
    /\ ((res = Ok df /\ files w' = files w)
        \/ exists row,
             let df' := {| columns := columns df;
                           rows := rows df ++ [row] |} in
             table_ok (datatypes args) df'
             /\ files w' = files w ++ [(csv_path_of args mname, df')]
             /\ (forall df'', res = Ok df'' -> df'' = df')
             /\ (plot_axes_valid args -> res = Ok df')
             /\ PyList.contains mname excluded = false
             /\ exists h wd,
                  PyList.getitem input_size 0 = Ok h
                  /\ PyList.getitem input_size 1 = Ok wd
                  /\ row_of (columns df) row mname h wd).
Proof.
  intros Hok. unfold model_step.
  destruct (PyList.contains mname excluded) eqn:Hexcl.
  { exists w, (Ok df). split; [reflexivity|]. left. auto. }
  assert (Hnil : row_keys_ok (columns df) ([] : PyDict.t Cell)).
  { split; [constructor | intros k []]. }
  destruct (precision_steps_outcome env args device_handle device_initial_used
              with_args input_size (columns df) mname
              (PyList.enumerate (datatypes args)) [] w Hnil)
    as (w1 & d1 & Hfor & Hd1 & Hf1 & _ & Hempty).
  unfold bind at 1. rewrite Hfor.
  destruct (0 <? List.length d1)%nat eqn:Hlen.
  2:{ exists w1, (Ok df). split; [reflexivity|]. left. auto. }
  assert (Hstr : row_strings_ok d1).
  { destruct Hok as [Hcols _]. rewrite Hcols in Hfor.
    eapply precision_steps_strings; [|exact Hfor]. intros k v [=]. }
  destruct (table_ok_append _ df d1 Hok Hd1 Hstr) as [Heq Hok'].
  rewrite Heq.
  assert (Hrow : exists h wd,
             PyList.getitem input_size 0 = Ok h
             /\ PyList.getitem input_size 1 = Ok wd
             /\ row_of (columns df) (appended_row df d1) mname h wd).
  { destruct Hok as [Hcols _]. rewrite Hcols in Hfor.
    apply (appended_row_of (datatypes args)); [exact Hcols | |].
    - eapply precision_steps_common; [|exact Hfor]. left. reflexivity.
    - intros ->. discriminate. }
  set (row := appended_row df d1) in *.
  set (df' := {| columns := columns df; rows := rows df ++ [row] |}) in *.
  destruct (datatypes args) as [|dt rest] eqn:Hdts.
  { rewrite (Hempty eq_refl) in Hlen. discriminate. }
  unfold bind at 1. unfold write_csv at 1.
  unfold bind at 1. cbn [PyList.getitem nth_error lift].
  set (w2 := {| history := history w1; warnings := warnings w1;
                files := files w1 ++ [(_, df')]; plots := plots w1 |}).
  destruct (save_plot (output_path args) mname df' (plot_axes args)
              (plot_log_x args) (plot_log_y args) dt w2)
    as [w3 r3] eqn:Hplot.
  destruct (save_plot_plots_only _ _ _ _ _ _ _ _ _ _ Hplot)
    as [(_ & _ & Hf3) _].
  exists w3. unfold bind. rewrite Hplot.
  destruct r3 as [[]|e].
  - eexists. split; [reflexivity|]. right. exists row.
    split; [exact Hok'|]. split; [rewrite Hf3, <- Hf1; reflexivity|].
    split; [intros ? [= <-]; reflexivity|]. split; [reflexivity|].
    split; [reflexivity | exact Hrow].
  - eexists. split; [reflexivity|]. right. exists row.
    split; [exact Hok'|]. split; [rewrite Hf3, <- Hf1; reflexivity|].
    split; [intros ? [=]|].
    split; [|split; [reflexivity | exact Hrow]].
    intros Hvalid. exfalso.
    destruct (save_plot_in_sweep (dt :: rest) (output_path args) mname df'
                (plot_axes args) (plot_log_x args) (plot_log_y args) dt w2)
      as (w4 & H4).
    + exact Hok'.
    + left. reflexivity.
    + exact Hvalid.
    + rewrite H4 in Hplot. discriminate.
Qed.

End ModelStep.

(** ** The sweep *)

Lemma prefix_tables_append (df : DataFrame) (row : list Cell) :
  prefix_tables {| columns := columns df; rows := rows df ++ [row] |}
  = prefix_tables df
    ++ [{| columns := columns df; rows := rows df ++ [row] |}].
Proof.
  unfold prefix_tables. cbn [columns rows].
  rewrite length_app. cbn [List.length].
  rewrite seq_app, map_app. cbn [seq map]. f_equal.
  - apply map_ext_in. intros k Hk. apply in_seq in Hk.
    rewrite firstn_app.
    replace (k - List.length (rows df))%nat with O by lia.
    rewrite firstn_O, app_nil_r. reflexivity.
  - f_equal. f_equal. replace (1 + List.length (rows df))%nat
      with (List.length (rows df ++ [row]))
      by (rewrite length_app; simpl; lia).
    apply firstn_all.
Qed.

Section Sweep.

Variable env : Env.
Variable args : Args.
Variable device_handle : option nat.
Variable device_initial_used : option Z.
Variable with_args : bool.
Variable excluded : list string.
Variable w0 : World.

Lemma model_step_triple (input_size : list Z) (mname : string)
    (df : DataFrame) :
  triple (sweep_inv (datatypes args) w0 df)
         (model_step env args device_handle device_initial_used with_args
                     excluded input_size mname df)
         (sweep_inv (datatypes args) w0)
         (fun _ _ => ~ plot_axes_valid args).
Proof.
  intros w w' r [Hok (fs & Hfs & Hsnd)] H.
  destruct (model_step_outcome env args device_handle device_initial_used
              with_args excluded input_size mname df w Hok)
    as (w1 & res & H1 & Hcase).
  rewrite H in H1. injection H1 as <- <-.
  destruct Hcase as [[-> Hf]|(row & Hok' & Hf & Honly & Hvalid & _)].
  - split; [exact Hok|]. exists fs. rewrite Hf. auto.
  - destruct r as [df''|e].
    + rewrite (Honly _ eq_refl). split; [exact Hok'|].
      exists (fs ++ [(csv_path_of args mname,
                      {| columns := columns df; rows := rows df ++ [row] |})]).
      split.
      * rewrite Hf, Hfs, app_assoc. reflexivity.
      * rewrite map_app, Hsnd, prefix_tables_append. reflexivity.
    + intros Hv. specialize (Hvalid Hv). discriminate.
Qed.

Lemma sweep_triple (names : list string) (groups : list (list Z))
    (df : DataFrame) :
  triple (sweep_inv (datatypes args) w0 df)
         (for_each groups
            (fun input_size df =>
               for_each names
                 (model_step env args device_handle device_initial_used
                             with_args excluded input_size)
                 df)
            df)
         (sweep_inv (datatypes args) w0)
         (fun _ _ => ~ plot_axes_valid args).
Proof.
  apply triple_for_each with (I := sweep_inv (datatypes args) w0).
  intros input_size df1 _.
  apply triple_for_each with (I := sweep_inv (datatypes args) w0).
  intros mname df2 _. apply model_step_triple.
Qed.

End Sweep.

Lemma empty_table_ok (dts : list string) :
  table_ok dts {| columns := initial_columns dts; rows := [] |}.
Proof. split; [reflexivity | constructor]. Qed.

Lemma sweep_inv_start (dts : list string) (w0 w : World) :
  files w = files w0 ->
  sweep_inv dts w0 {| columns := initial_columns dts; rows := [] |} w.
Proof.
  intros Hf. split; [apply empty_table_ok|].
  exists []. rewrite app_nil_r. split; [exact Hf | reflexivity].
Qed.

Lemma assert_available_ok (env : Env) (names : list string) (w : World) :
  Forall (fun name => PyList.contains name (get_model_names env) = true) names ->
  assert_available env names w = (w, Ok tt).
Proof.
  unfold assert_available.
  induction 1 as [|name names Hname _ IH]; simpl; [reflexivity|].
  unfold bind. rewrite Hname. cbn [assert ret]. exact IH.
Qed.

(** The part of [benchmark] before the sweep, when it does not raise:
    the names, the excluded names and the initial reading, got without
    writing a file. *)
Lemma benchmark_prelude (env : Env) (args : Args) (device_handle : option nat)
    (w w' : World) (res : result DataFrame) :
  benchmark env args device_handle w = (w', res) ->
  (exists e, res = Raise e /\ files w' = files w /\ plots w' = plots w)
  \/ exists names with_args excluded device_initial_used w1,
       (names = swept_names env args /\ excluded = excluded_names args)
       /\ (files w1 = files w /\ plots w1 = plots w)
       /\ warnings w1 = warnings w
       /\ for_each (input_size_groups (input_size args))
            (fun input_size df =>
               for_each names
                 (model_step env args device_handle device_initial_used
                             with_args excluded input_size)
                 df)
            {| columns := initial_columns (datatypes args); rows := [] |} w1
          = (w', res).
Proof.
  unfold benchmark. intros H.
  apply bind_inv in H as [(w1 & names & Hn & H)|(e & Hn & ->)].
  2:{ left. exists e. split; [reflexivity|].
      destruct (all_ args); [discriminate|].
      destruct (select args) as [sel|]; [|discriminate].
      destruct (0 <? List.length sel)%nat; [|discriminate].
      apply bind_inv in Hn as [(w2 & [] & Ha & Hr)|(e' & Ha & _)].
      - discriminate.
      - apply assert_available_pure in Ha as [-> _]. auto. }
  assert (Hw1 : w1 = w /\ fst names = swept_names env args).
  { unfold swept_names.
    destruct (all_ args); [inversion Hn; split; reflexivity|].
    destruct (select args) as [sel|]; [|inversion Hn; split; reflexivity].
    destruct (0 <? List.length sel)%nat;
      [|inversion Hn; split; reflexivity].
    apply bind_inv in Hn as [(w2 & [] & Ha & Hr)|(e' & Ha & [=])].
    apply assert_available_pure in Ha as [-> _].
    inversion Hr. split; reflexivity. }
  destruct Hw1 as [-> Hnames].
  apply bind_inv in H as [(w1 & ex & He & H)|(e & He & ->)].
  2:{ left. exists e. split; [reflexivity|].
      destruct (exclude args) as [ex|]; [|discriminate].
      apply bind_inv in He as [(w2 & [] & Ha & Hr)|(e' & Ha & _)].
      - discriminate.
      - apply assert_available_pure in Ha as [-> _]. auto. }
  assert (Hw1 : w1 = w /\ ex = excluded_names args).
  { unfold excluded_names.
    destruct (exclude args) as [ex0|]; [|inversion He; split; reflexivity].
    apply bind_inv in He as [(w2 & [] & Ha & Hr)|(e' & Ha & [=])].
    apply assert_available_pure in Ha as [-> _].
    inversion Hr. split; reflexivity. }
  destruct Hw1 as [-> Hex].
  apply bind_inv in H as [(w1 & [] & Ha & H)|(e & Ha & ->)].
  2:{ left. exists e. split; [reflexivity|].
      unfold assert in Ha. destruct (_ =? 0)%nat; inversion Ha; auto. }
  assert (Hw1 : w1 = w).
  { unfold assert in Ha. destruct (_ =? 0)%nat; inversion Ha; reflexivity. }
  subst w1.
  apply bind_inv in H as [(w1 & diu & Hd & H)|(e & Hd & ->)].
  - right. exists (fst names), (snd names), ex, diu, w1.
    split; [split; assumption|].
    assert (Hw : (files w1 = files w /\ plots w1 = plots w)
                 /\ warnings w1 = warnings w);
      [|destruct Hw as [Hw Hw']; split; [exact Hw|]; split; [exact Hw'|];
        exact H].
    destruct (pynvml_imported env); [|inversion Hd; auto].
    destruct device_handle as [handle|]; [|inversion Hd; auto].
    apply bind_inv in Hd as [(w2 & used & Hc & Hr)|(e' & Hc & [=])].
    inversion Hr; subst.
    destruct (spec_call_int env (fun _ => True) _ I _ _ _ Hc)
      as [(_ & Hwarn & Hf & Hp) _].
    auto.
  - left. exists e. split; [reflexivity|].
    destruct (pynvml_imported env); [|discriminate].
    destruct device_handle as [handle|]; [|discriminate].
    apply bind_inv in Hd as [(w2 & used & Hc & Hr)|(e' & Hc & _)];
      [discriminate|].
    destruct (spec_call_int env (fun _ => True) _ I _ _ _ Hc)
      as [(_ & _ & Hf & Hp) _].
    auto.
Qed.

Lemma written_tables_cumulative_aux (env : Env) (args : Args)
    (device_handle : option nat) (w w' : World) (df : DataFrame) :
  benchmark env args device_handle w = (w', Ok df) ->
  exists fs,
    files w' = files w ++ fs
    /\ List.length fs = List.length (rows df).
Proof.
  intros H.
  apply benchmark_prelude in H
    as [(e & [=] & _)|(names & wa & ex & diu & w1 & _ & [Hf _] & _ & H)].
  pose proof (sweep_triple env args device_handle diu wa ex w names
                (input_size_groups (input_size args)) _ w1 w' (Ok df)
                (sweep_inv_start _ _ _ Hf) H)
    as [Hok (fs & Hfs & Hsnd)].
  exists fs. split; [exact Hfs|].
  rewrite <- (length_map snd fs), Hsnd. unfold prefix_tables.
  rewrite length_map, length_seq. reflexivity.
Qed.

(** X3. The tables [benchmark] writes are cumulative. When [benchmark]
    returns, it has written one table per row of the table it returns, in
    the order of the rows, and nothing else: the k-th file holds the first
    k rows of the returned table, under the columns the sweep started with
    (the six common columns, then a time and a memory column per
    datatype). Every row has a cell for every column, rounded to three
    decimals. So no file written earlier holds a row the last one lacks,
    and the last file written is the returned table. *)
Theorem written_tables_are_cumulative (env : Env) (args : Args)
    (device_handle : option nat) (w w' : World) (df : DataFrame) :
  benchmark env args device_handle w = (w', Ok df) ->
  table_ok (datatypes args) df
  /\ exists fs,
       files w' = files w ++ fs
       /\ List.length fs = List.length (rows df)
       /\ (forall k path table,
             nth_error fs k = Some (path, table) ->
             columns table = initial_columns (datatypes args)
             /\ rows table = firstn (S k) (rows df))
       /\ (rows df <> [] -> exists older path, fs = older ++ [(path, df)]).
Proof.
  intros H.
  apply benchmark_prelude in H
    as [(e & [=] & _)|(names & wa & ex & diu & w1 & _ & [Hf _] & _ & H)].
  pose proof (sweep_triple env args device_handle diu wa ex w names
                (input_size_groups (input_size args)) _ w1 w' (Ok df)
                (sweep_inv_start _ _ _ Hf) H)
    as [Hok (fs & Hfs & Hsnd)].
  split; [exact Hok|]. exists fs. split; [exact Hfs|].
  assert (Hlen : List.length fs = List.length (rows df)).
  { rewrite <- (length_map snd fs), Hsnd. unfold prefix_tables.
    rewrite length_map, length_seq. reflexivity. }
  split; [exact Hlen|].
  assert (Hnth : forall k path table,
             nth_error fs k = Some (path, table) ->
             table = {| columns := columns df;
                        rows := firstn (S k) (rows df) |}).
  { intros k path table Hk.
    assert (Hk' : nth_error (map snd fs) k = Some table)
      by (rewrite nth_error_map, Hk; reflexivity).
    rewrite Hsnd in Hk'. unfold prefix_tables in Hk'.
    rewrite nth_error_map in Hk'.
    destruct (nth_error (seq 1 (List.length (rows df))) k) as [j|] eqn:Hj;
      [|discriminate].
    assert (Hklt : (k < List.length (rows df))%nat).
    { assert (Hlt : (k < List.length (seq 1 (List.length (rows df))))%nat)
        by (apply nth_error_Some; rewrite Hj; discriminate).
      rewrite length_seq in Hlt. exact Hlt. }
    rewrite nth_error_seq in Hj.
    destruct (Nat.ltb_spec k (List.length (rows df))); [|lia].
    injection Hj as <-. injection Hk' as <-. reflexivity. }
  split.
  - intros k path table Hk. rewrite (Hnth _ _ _ Hk). cbn [columns rows].
    split; [apply Hok | reflexivity].
  - intros Hne. destruct (rev fs) as [|[path table] rfs] eqn:Hrev.
    + apply (f_equal (@List.length _)) in Hrev. rewrite length_rev in Hrev.
      destruct (rows df); [contradiction | simpl in *; lia].
    + assert (Hfs' : fs = rev rfs ++ [(path, table)]).
      { rewrite <- (rev_involutive fs), Hrev. reflexivity. }
      assert (Hk : nth_error fs (List.length (rev rfs)) = Some (path, table)).
      { rewrite Hfs', nth_error_app2 by lia.
        rewrite Nat.sub_diag. reflexivity. }
      pose proof (Hnth _ _ _ Hk) as Ht.
      assert (Hn : S (List.length (rev rfs)) = List.length (rows df)).
      { rewrite <- Hlen, Hfs', length_app. simpl. lia. }
      rewrite Hn, firstn_all in Ht.
      exists (rev rfs), path. rewrite Hfs', Ht. destruct df; reflexivity.
Qed.

(** ** A batch of size zero *)

Ltac bind_step H := apply bind_ok in H as (? & ? & _ & H).

Lemma timed_forward_empty_batch (env : Env) (args : Args) (model : Model)
    (input_size : list Z) (dtype_str : string) (i : nat)
    (time_vals tv : list Q) (w w' : World) :
  batch_size args = 0 ->
  (0 < i)%nat ->
  timed_forward env args model input_size dtype_str i time_vals w
  <> (w', Ok tv).
Proof.
  intros Hb Hi H. unfold timed_forward in H.
  do 6 bind_step H.
  apply Nat.ltb_lt in Hi. rewrite Hi in H.
  bind_step H.
  apply bind_ok in H as (w1 & t & Ht & _).
  apply lift_ok in Ht as [_ Ht]. rewrite Hb in Ht. discriminate.
Qed.

Lemma estimate_inference_time_empty_batch (env : Env) (args : Args)
    (model : Model) (input_size : list Z) (dtype_str : string)
    (tv : list Q) (w w' : World) :
  batch_size args = 0 ->
  1 <= num_samples args ->
  estimate_inference_time env args model input_size dtype_str w
  <> (w', Ok tv).
Proof.
  intros Hb Hn H. unfold estimate_inference_time, range in H.
  destruct (Z.to_nat (num_samples args + 1)) as [|[|k]] eqn:E; try lia.
  cbn [seq for_each] in H.
  apply bind_ok in H as (w1 & tv1 & _ & H).
  apply bind_ok in H as (w2 & tv2 & H2 & _).
  exact (timed_forward_empty_batch _ _ _ _ _ _ _ _ _ _ Hb Nat.lt_0_1 H2).
Qed.

Lemma trial_fails_with_empty_batch (env : Env) (args : Args)
    (device_handle : option nat) (device_initial_used : option Z)
    (with_args : bool) (mname : string) (input_size : list Z)
    (dtype_str : string) (w w' : World) (r : TrialResult) :
  batch_size args = 0 ->
  trial env args device_handle device_initial_used with_args mname input_size
        dtype_str w <> (w', Ok r).
Proof.
  intros Hb Ht.
  destruct (trial_spec env args device_handle device_initial_used with_args
              mname input_size dtype_str _ _ _ Ht) as [_ Hpost].
  destruct (Hpost r eq_refl) as (_ & _ & Hpos & _).
  assert (Hs : 1 <= num_samples args) by nia.
  assert (Hn : 1 <= num_trials args) by nia.
  unfold trial in Ht.
  apply bind_ok in Ht as (w1 & l & Hl & _).
  unfold repetitions, range in Hl.
  destruct (Z.to_nat (num_trials args + 1)) as [|k] eqn:E; [lia|].
  cbn [seq for_each] in Hl.
  apply bind_ok in Hl as (w2 & l1 & Hrep & _).
  unfold repetition in Hrep.
  do 7 bind_step Hrep.
  apply bind_ok in Hrep as (w3 & times & He & _).
  exact (estimate_inference_time_empty_batch _ _ _ _ _ _ _ _ Hb Hs He).
Qed.

(** X3, on the sample machine. *)
Lemma written_tables_are_cumulative_witness :
  exists w' df,
    benchmark sample_env sample_args (Some O) initial_world = (w', Ok df)
    /\ table_ok (datatypes sample_args) df
    /\ exists fs,
         files w' = files initial_world ++ fs
         /\ List.length fs = List.length (rows df)
         /\ (forall k path table,
               nth_error fs k = Some (path, table) ->
               columns table = initial_columns (datatypes sample_args)
               /\ rows table = firstn (S k) (rows df))
         /\ (rows df <> [] -> exists older path, fs = older ++ [(path, df)]).
Proof.
  destruct (benchmark sample_env sample_args (Some O) initial_world)
    as [w' [df|e]] eqn:E.
  - exists w', df. split; [reflexivity|].
    exact (written_tables_are_cumulative sample_env sample_args (Some O)
             initial_world w' df E).
  - vm_compute in E. discriminate.
Defined.

(** X4. Under a valid configuration [benchmark] returns a table, whatever
    exception derived from [Exception] the models, the libraries and the
    probe raise during the trials. The configuration is valid when the
    selected and the excluded names are registered, the input sizes come
    in pairs, the plot axes are absent or two known keys, the model names
    not being on a logarithmic axis, and the probe, if there is one,
    answers the one reading taken before the sweep. Everything a trial
    raises is caught and logged, the table, the file and the plot are made
    from columns that exist, and a logarithm is only taken of a column of
    numbers. *)
Theorem benchmark_returns_under_a_valid_configuration (env : Env)
    (args : Args) (device_handle : option nat) (w : World) :
  names_valid env args ->
  (List.length (input_size args) mod 2 = 0)%nat ->
  plot_axes_valid args ->
  initial_reading_ok env device_handle w ->
  exists w' df,
    benchmark env args device_handle w = (w', Ok df)
    /\ (List.length (files w')
        = List.length (files w) + List.length (rows df))%nat.
Proof.
  intros [Hsel Hex] Heven Hplot Hprobe.
  destruct (benchmark env args device_handle w) as [w' res] eqn:H.
  assert (Hres : exists df, res = Ok df).
  { revert H. unfold benchmark.
    set (df0 := {| columns := initial_columns (datatypes args); rows := [] |}).
    assert (Hnames : exists names,
               (if all_ args then ret (models_dict_keys env, false)
                else
                  match select args with
                  | Some sel =>
                      if (0 <? List.length sel)%nat then
                        assert_available env sel ;;; ret (sel, false)
                      else ret ([last_segment (model_class_path args)
                                   EmptyString], true)
                  | None => ret ([last_segment (model_class_path args)
                                    EmptyString], true)
                  end) w = (w, Ok names)).
    { destruct (all_ args); [eexists; reflexivity|].
      destruct Hsel as [[=]|Hsel].
      destruct (select args) as [sel|]; [|eexists; reflexivity].
      destruct (0 <? List.length sel)%nat; [|eexists; reflexivity].
      eexists. erewrite bind_eq by (apply assert_available_ok, Hsel).
      reflexivity. }
    destruct Hnames as (names & Hnames).
    rewrite (bind_eq _ _ _ _ _ Hnames).
    assert (Hexcl : exists ex,
               (match exclude args with
                | None => ret []
                | Some ex => assert_available env ex ;;; ret ex
                end) w = (w, Ok ex)).
    { destruct (exclude args) as [ex|]; [|eexists; reflexivity].
      eexists. erewrite bind_eq by (apply assert_available_ok, Hex).
      reflexivity. }
    destruct Hexcl as (ex & Hexcl).
    rewrite (bind_eq _ _ _ _ _ Hexcl).
    rewrite Heven. erewrite bind_eq by reflexivity.
    assert (Hdiu : exists diu w1,
               (match pynvml_imported env, device_handle with
                | true, Some handle =>
                    used <- call_int env (NvmlMemoryInfoUsed handle) ;;
                    ret (Some used)
                | _, _ => ret None
                end) w = (w1, Ok diu)).
    { unfold initial_reading_ok in Hprobe.
      destruct (pynvml_imported env); [|do 2 eexists; reflexivity].
      destruct device_handle as [handle|]; [|do 2 eexists; reflexivity].
      destruct Hprobe as (used & Hused).
      do 2 eexists. unfold call_int, call, bind. rewrite Hused. reflexivity. }
    destruct Hdiu as (diu & w1 & Hdiu).
    rewrite (bind_eq _ _ _ _ _ Hdiu).
    intros Hsweep.
    pose proof (sweep_triple env args device_handle diu (snd names) ex w1
                  (fst names) (input_size_groups (input_size args)) df0
                  w1 w' res (sweep_inv_start _ _ _ eq_refl) Hsweep) as Hr.
    destruct res as [df|e]; [exists df; reflexivity|].
    exfalso. exact (Hr Hplot). }
  destruct Hres as (df & ->).
  exists w', df. split; [reflexivity|].
  destruct (written_tables_cumulative_aux env args device_handle w w' df H)
    as (fs & Hfs & Hlen).
  rewrite Hfs, length_app, <- Hlen. lia.
Qed.

(** X4, on the sample machine, with a plot of the time over the
    parameters. *)
Lemma benchmark_returns_under_a_valid_configuration_witness :
  exists w' df,
    benchmark sample_env sample_args_excluding_pwc (Some O) initial_world
    = (w', Ok df)
    /\ (List.length (files w')
        = List.length (files initial_world) + List.length (rows df))%nat.
Proof.
  apply (benchmark_returns_under_a_valid_configuration sample_env
           sample_args_excluding_pwc (Some O) initial_world).
  - split; [right|]; simpl; repeat constructor.
  - reflexivity.
  - exists "params", "time". repeat split; intros; discriminate.
  - simpl. eexists. reflexivity.
Defined.

(** Outside these configurations the sweep can stop: with the model names
    on a logarithmic axis the table of the first model is written, then
    the plot raises and [benchmark] with it. *)
Example model_names_on_a_log_axis_stop_the_sweep :
  let args := with_plot_axes sample_args ["model"; "time"] true false in
  exists w',
    benchmark sample_env args (Some O) initial_world = (w', Raise TypeError)
    /\ map fst (files w') = ["outputs/benchmark/model_benchmark-raft.csv"]
    /\ plots w' = [].
Proof.
  intros args. eexists. split; [vm_compute; reflexivity|].
  split; reflexivity.
Qed.

(** ** Configurations that measure nothing *)

Section NothingToMeasure.

Variable env : Env.
Variable args : Args.
Variable device_handle : option nat.
Variable device_initial_used : option Z.
Variable with_args : bool.
Variable excluded : list string.

Hypothesis degenerate : nothing_to_measure args.

Lemma trial_fails_without_samples (mname : string) (input_size : list Z)
    (dtype_str : string) (w w' : World) (r : TrialResult) :
  (num_trials args <= 0 \/ num_samples args <= 0 \/ batch_size args = 0) ->
  trial env args device_handle device_initial_used with_args mname input_size
        dtype_str w <> (w', Ok r).
Proof.
  intros Hle Ht.
  destruct (trial_spec env args device_handle device_initial_used with_args
              mname input_size dtype_str _ _ _ Ht) as [_ Hpost].
  destruct (Hpost r eq_refl) as (_ & _ & Hpos & _).
  destruct Hle as [Hle|[Hle|Hb]].
  - replace (Z.to_nat (num_trials args)) with O in Hpos by lia.
    simpl in Hpos. lia.
  - replace (Z.to_nat (num_samples args)) with O in Hpos by lia.
    rewrite Nat.mul_0_r in Hpos. lia.
  - exact (trial_fails_with_empty_batch _ _ _ _ _ _ _ _ _ _ _ Hb Ht).
Qed.

Lemma precision_steps_record_nothing (cols : list string) (mname : string)
    (input_size : list Z) (its : list (nat * string)) :
  (its = [] \/ num_trials args <= 0 \/ num_samples args <= 0
   \/ batch_size args = 0) ->
  forall w, exists w1,
    for_each its
      (precision_step env cols args device_handle device_initial_used
                      with_args mname input_size) [] w
    = (w1, Ok [])
    /\ files w1 = files w
    /\ plots w1 = plots w
    /\ List.length (warnings w1)
       = (List.length (warnings w) + List.length its)%nat.
Proof.
  intros [->|Hle]; [intros w; exists w; simpl; auto|].
  induction its as [|it its IH]; intros w; simpl.
  - exists w. auto.
  - unfold bind, precision_step.
    destruct (trial env args device_handle device_initial_used with_args
                    mname input_size (snd it) w) as [w0 [r|e]] eqn:Ht.
    + exfalso. exact (trial_fails_without_samples _ _ _ _ _ _ Hle Ht).
    + destruct (trial_spec env args device_handle device_initial_used
                  with_args mname input_size (snd it) _ _ _ Ht)
        as [(_ & Hwarn & Hf & Hp) _].
      destruct (IH (warn mname (snd it) e w0))
        as (w1 & Hfor & Hf1 & Hp1 & Hw1).
      exists w1. split; [exact Hfor|]. simpl in Hf1, Hp1, Hw1.
      split; [congruence|]. split; [congruence|].
      rewrite Hw1, length_app, Hwarn. simpl. lia.
Qed.

Lemma model_step_records_nothing (input_size : list Z) (mname : string)
    (df : DataFrame) (w : World) :
  exists w',
    model_step env args device_handle device_initial_used with_args excluded
               input_size mname df w = (w', Ok df)
    /\ files w' = files w
    /\ plots w' = plots w
    /\ List.length (warnings w')
       = (List.length (warnings w)
          + if PyList.contains mname excluded then 0
            else List.length (datatypes args))%nat.
Proof.
  unfold model_step.
  destruct (PyList.contains mname excluded).
  { exists w. repeat split; auto. }
  destruct (precision_steps_record_nothing (columns df) mname input_size
              (PyList.enumerate (datatypes args))) with (w := w)
    as (w1 & Hfor & Hf1 & Hp1 & Hw1).
  { destruct degenerate as [->|Hle]; [left; reflexivity | right; exact Hle]. }
  rewrite (bind_eq _ _ _ _ _ Hfor). exists w1. simpl.
  repeat split; auto.
  rewrite Hw1, enumerate_length. reflexivity.
Qed.

Lemma models_loop_records_nothing (input_size : list Z) (df : DataFrame)
    (names : list string) :
  forall w, exists w',
    for_each names
      (model_step env args device_handle device_initial_used with_args
                  excluded input_size) df w = (w', Ok df)
    /\ files w' = files w
    /\ plots w' = plots w
    /\ List.length (warnings w')
       = (List.length (warnings w)
          + List.length
              (filter (fun name => negb (PyList.contains name excluded))
                      names)
            * List.length (datatypes args))%nat.
Proof.
  induction names as [|mname names IH]; intros w; simpl.
  - exists w. repeat split; auto.
  - destruct (model_step_records_nothing input_size mname df w)
      as (w1 & Hstep & Hf1 & Hp1 & Hw1).
    destruct (IH w1) as (w2 & Hfor & Hf2 & Hp2 & Hw2).
    exists w2. rewrite (bind_eq _ _ _ _ _ Hstep).
    split; [exact Hfor|]. split; [congruence|]. split; [congruence|].
    rewrite Hw2, Hw1.
    destruct (PyList.contains mname excluded); simpl; lia.
Qed.

Lemma sweep_records_nothing (df : DataFrame) (names : list string)
    (groups : list (list Z)) :
  forall w, exists w',
    for_each groups
      (fun input_size df =>
         for_each names
           (model_step env args device_handle device_initial_used with_args
                       excluded input_size) df) df w = (w', Ok df)
    /\ files w' = files w
    /\ plots w' = plots w
    /\ List.length (warnings w')
       = (List.length (warnings w)
          + List.length groups
            * (List.length
                 (filter (fun name => negb (PyList.contains name excluded))
                         names)
               * List.length (datatypes args)))%nat.
Proof.
  induction groups as [|size groups IH]; intros w; simpl.
  - exists w. repeat split; auto.
  - destruct (models_loop_records_nothing size df names w)
      as (w1 & Hstep & Hf1 & Hp1 & Hw1).
    destruct (IH w1) as (w2 & Hfor & Hf2 & Hp2 & Hw2).
    exists w2. rewrite (bind_eq _ _ _ _ _ Hstep).
    split; [exact Hfor|]. split; [congruence|]. split; [congruence|].
    rewrite Hw2, Hw1. lia.
Qed.

End NothingToMeasure.

(** X5. A configuration with nothing to measure writes no table and no
    plot. If the list of datatypes is empty, or [num_trials] is not
    positive, or [num_samples] is not positive, or [batch_size] is zero
    (the timing of a sample is divided by it), then no trial ever
    completes; [benchmark], which has created the output directory by
    then, still walks the whole sweep and logs one warning for every input
    size, model that is not excluded and datatype, but it writes no table
    and no plot into the directory, and when it returns, the table is the
    empty one it started with. *)
Theorem degenerate_configuration_writes_no_table (env : Env) (args : Args)
    (device_handle : option nat) (w w' : World) (res : result DataFrame) :
  nothing_to_measure args ->
  benchmark env args device_handle w = (w', res) ->
  files w' = files w
  /\ plots w' = plots w
  /\ (forall df, res = Ok df ->
        df = {| columns := initial_columns (datatypes args); rows := [] |}
        /\ List.length (warnings w')
           = (List.length (warnings w)
              + List.length (input_size_groups (input_size args))
                * (List.length
                     (filter (fun name =>
                                negb (PyList.contains name
                                        (excluded_names args)))
                             (swept_names env args))
                   * List.length (datatypes args)))%nat).
Proof.
  intros Hdeg H.
  apply benchmark_prelude in H
    as [(e & -> & Hf & Hp)
       |(names & wa & ex & diu & w1 & [-> ->] & [Hf Hp] & Hw & H)].
  { split; [exact Hf|]. split; [exact Hp|]. intros df [=]. }
  destruct (sweep_records_nothing env args device_handle diu wa
              (excluded_names args) Hdeg
              {| columns := initial_columns (datatypes args); rows := [] |}
              (swept_names env args) (input_size_groups (input_size args))
              w1) as (w2 & Hsweep & Hf2 & Hp2 & Hw2).
  rewrite Hsweep in H. injection H as <- <-.
  split; [congruence|]. split; [congruence|].
  intros df [= <-]. split; [reflexivity|].
  rewrite Hw2, Hw. reflexivity.
Qed.

(** X5, on the sample machine asked for no repetition that counts. *)
Lemma degenerate_configuration_writes_no_table_witness :
  let args := with_num_trials sample_args 0 in
  files (fst (benchmark sample_env args (Some O) initial_world)) = []
  /\ plots (fst (benchmark sample_env args (Some O) initial_world)) = []
  /\ (forall df,
        snd (benchmark sample_env args (Some O) initial_world) = Ok df ->
        df = {| columns := initial_columns (datatypes args); rows := [] |}
        /\ List.length
             (warnings (fst (benchmark sample_env args (Some O)
                               initial_world)))
           = 8%nat).
Proof.
  intros args.
  apply (degenerate_configuration_writes_no_table sample_env args (Some O)
           initial_world).
  - right. left. simpl. lia.
  - apply surjective_pairing.
Defined.

(** ** A trial without the device-memory probe *)

Section WithoutProbe.

Variable env : Env.
Variable args : Args.
Variable device_initial_used : option Z.
Variable with_args : bool.
Variable mname : string.
Variable input_size : list Z.
Variable dtype_str : string.

Lemma repetition_without_probe (irep : nat) (l : Locals) :
  spec (calls_only (repetition_call env None mname))
       (repetition env args None device_initial_used with_args mname
                   input_size dtype_str irep l)
       (fun l' => all_memories l' = all_memories l
                  /\ first_memory_used l' = first_memory_used l).
Proof.
  unfold repetition.
  eapply fp_bind; [apply spec_call_; exact I|]. intros _ _.
  eapply fp_bind; [apply spec_call_; exact I|]. intros _ _.
  eapply fp_bind with (Q := fun _ => True).
  { destruct (pynvml_imported env); apply fp_ret; auto. }
  intros start _.
  eapply fp_bind; [apply spec_get_model; reflexivity|]. intros m ->.
  eapply fp_bind; [apply spec_model_eval; reflexivity|]. intros m ->. simpl.
  eapply fp_bind with (Q := fun m => model_name m = mname).
  { destruct (cuda_is_available env) eqn:Hc; [|apply fp_ret; reflexivity].
    eapply fp_bind; [apply spec_model_cuda; simpl; auto|]. intros m ->.
    destruct (String.eqb dtype_str "fp16").
    - eapply spec_weaken; [apply spec_model_half; simpl; auto|].
      intros m ->. reflexivity.
    - apply fp_ret. reflexivity. }
  intros model Hn.
  eapply fp_bind; [apply spec_call_int; exact Hn|]. intros params _.
  eapply fp_bind with (Q := fun _ => True).
  { eapply fp_weaken; [apply timing_is_repetition_call|].
    eapply spec_weaken; [apply estimate_inference_time_spec, Hn | auto]. }
  intros repetition_times _.
  eapply fp_bind
    with (Q := fun mem => mem = (all_memories l, first_memory_used l)).
  { apply fp_ret. reflexivity. }
  intros mem ->.
  eapply fp_bind; [apply spec_model_cpu; exact Hn|]. intros _ _.
  apply fp_ret. simpl. auto.
Qed.

Lemma repetitions_without_probe :
  spec (calls_only (repetition_call env None mname))
       (repetitions env args None device_initial_used with_args mname
                    input_size dtype_str)
       (fun l => all_memories l = [] /\ first_memory_used l = 0).
Proof.
  unfold repetitions.
  apply fp_for_each
    with (I := fun l => all_memories l = [] /\ first_memory_used l = 0).
  - intros irep l _ [Hm Hf].
    eapply spec_weaken; [apply repetition_without_probe|].
    intros l' [Hm' Hf']. split; congruence.
  - split; reflexivity.
Qed.

End WithoutProbe.

(** X6. Without a probe every memory figure of a trial is zero. When
    [benchmark] is given no device handle, a trial that completes has
    never read the device memory: its list of memory samples is the
    placeholder [0], the first-touch figure keeps its initial value 0, and
    every entry of [final_memories] (the mean, the median, the three
    percentiles and "first") is 0, whatever the model used. *)
Theorem without_a_probe_every_memory_figure_is_zero (env : Env) (args : Args)
    (device_initial_used : option Z) (with_args : bool) (mname : string)
    (input_size : list Z) (dtype_str : string) (w w' : World)
    (r : TrialResult) :
  trial env args None device_initial_used with_args mname input_size
        dtype_str w = (w', Ok r) ->
  tr_all_memories r = [0]
  /\ tr_first_memory_used r = 0
  /\ map fst (tr_final_memories r) = memory_choices
  /\ (forall mode m,
        PyDict.get (tr_final_memories r) mode = Some m -> (m == 0)%Q)
  /\ exists new,
       history w' = history w ++ new
       /\ forall handle reply, ~ In (NvmlMemoryInfoUsed handle, reply) new.
Proof.
  intros H.
  destruct (trial_spec env args None device_initial_used with_args mname
              input_size dtype_str _ _ _ H) as [((new & Hh & Hnew) & _) _].
  assert (Hprobe : forall handle reply,
             ~ In (NvmlMemoryInfoUsed handle, reply) new).
  { intros handle reply Hin. rewrite Forall_forall in Hnew.
    apply Hnew in Hin. simpl in Hin. destruct Hin as [[=] _]. }
  unfold trial in H.
  apply bind_ok in H as (w1 & l & Hl & H).
  destruct (repetitions_without_probe env args device_initial_used with_args
              mname input_size dtype_str _ _ _ Hl) as [_ Hinv].
  destruct (Hinv l eq_refl) as [Hm Hf].
  apply bind_ok in H as (w2 & flops & _ & H).
  apply bind_ok in H as (w3 & ft & _ & H).
  apply bind_ok in H as (w4 & fm & Hfm & H).
  apply lift_ok in Hfm as [_ Hfm].
  apply ret_ok in H as [_ ->]. cbn [tr_all_memories tr_first_memory_used
                                    tr_final_memories].
  rewrite Hm, Hf in Hfm. rewrite Hm. cbn in Hfm. injection Hfm as <-.
  split; [reflexivity|]. split; [exact Hf|]. split; [reflexivity|].
  split; [|exists new; auto].
  intros mode m Hget. cbn in Hget.
  repeat match type of Hget with
         | (if ?b then _ else _) = _ => destruct b
         end;
    try discriminate; injection Hget as <-; reflexivity.
Qed.

(** X6, on the sample machine run without a probe. *)
Lemma without_a_probe_every_memory_figure_is_zero_witness :
  exists w' r,
    trial sample_env sample_args None None false "raft" [100; 200] "fp32"
          initial_world = (w', Ok r)
    /\ tr_all_memories r = [0]
    /\ tr_first_memory_used r = 0.
Proof.
  destruct (trial sample_env sample_args None None false "raft" [100; 200]
                  "fp32" initial_world) as [w' [r|e]] eqn:E.
  - exists w', r. split; [reflexivity|].
    destruct (without_a_probe_every_memory_figure_is_zero _ _ _ _ _ _ _ _ _ _ E)
      as (Hm & Hf & _).
    split; assumption.
  - vm_compute in E. discriminate.
Defined.

(** ** ScopeFlow: the parameter groups *)

Section ParamGroups.

Import ScopeFlowParams.

Lemma pgroups_get (ps : Params) (keys : list string) :
  forall (d : PyDict.t (list string)) (k : string),
    PyDict.get
      (fold_left (fun pgroups substr =>
                    PyDict.set pgroups substr (group_of ps substr)) keys d) k
    = if PyList.contains k keys then Some (group_of ps k)
      else PyDict.get d k.
Proof.
  induction keys as [|k0 keys IH]; intros d k; simpl; [reflexivity|].
  rewrite IH, get_set.
  destruct (PyList.contains k keys) eqn:C.
  - rewrite orb_true_r. reflexivity.
  - rewrite orb_false_r. destruct (String.eqb k k0) eqn:E; [|reflexivity].
    apply String.eqb_eq in E. subst. reflexivity.
Qed.

Lemma group_members_all (ps : Params) (pg : PyDict.t (list string))
    (keys : list string) :
  (forall k, In k keys -> PyDict.get pg k = Some (group_of ps k)) ->
  group_members pg keys = Ok (flat_map (group_of ps) keys).
Proof.
  induction keys as [|k keys IH]; intros H; simpl; [reflexivity|].
  unfold PyDict.getitem. rewrite (H k (or_introl eq_refl)).
  rewrite IH by (intros k' Hk'; apply H; right; exact Hk'). reflexivity.
Qed.

Lemma members_are_names (ps : Params) (keys : list string) (name : string) :
  In name (flat_map (group_of ps) keys)
  <-> In name (names ps) /\ exists k, In k keys /\ is_in k name = true.
Proof.
  rewrite in_flat_map. unfold group_of. split.
  - intros (k & Hk & Hin). apply filter_In in Hin as [Hn Hc].
    split; [exact Hn|]. exists k. auto.
  - intros (Hn & k & Hk & Hc). exists k. split; [exact Hk|].
    apply filter_In. auto.
Qed.

Lemma len_set_names (ps : Params) (members : list string) :
  (forall name, In name members -> In name (names ps)) ->
  (len_set members =? List.length ps)%nat = true
  <-> NoDup (names ps) /\ forall name, In name (names ps) -> In name members.
Proof.
  intros Hsub. unfold len_set. rewrite Nat.eqb_eq.
  assert (Hnd : NoDup (nodup string_dec members)) by apply NoDup_nodup.
  assert (Hincl : incl (nodup string_dec members) (names ps)).
  { intros x Hx. apply nodup_In in Hx. apply Hsub, Hx. }
  assert (Hlen : List.length (names ps) = List.length ps)
    by apply length_map.
  split.
  - intros Heq.
    assert (Hback : incl (names ps) (nodup string_dec members)).
    { apply NoDup_length_incl; [exact Hnd | lia | exact Hincl]. }
    split.
    + apply NoDup_incl_NoDup with (l := nodup string_dec members);
        [exact Hnd | lia | exact Hincl].
    + intros name Hn. apply Hback in Hn. apply nodup_In in Hn. exact Hn.
  - intros [Hnames Hall]. rewrite <- Hlen.
    apply Nat.le_antisymm.
    + apply NoDup_incl_length; assumption.
    + apply NoDup_incl_length; [exact Hnames|].
      intros x Hx. apply nodup_In, Hall, Hx.
Qed.

(** X7. The size check of [_get_param_groups] is a coverage check. The
    call returns exactly when the parameter names are distinct and every
    one of them contains at least one of the keys as a substring; the
    dictionary it returns maps each key to the names that contain it. In
    every other case it raises [AssertionError], and nothing else. *)
Theorem param_groups_cover_every_parameter (ps : Params)
    (keys : list string) :
  (forall pgroups,
     _get_param_groups ps keys = Ok pgroups ->
     NoDup (names ps)
     /\ (forall name, In name (names ps) ->
           exists k, In k keys /\ is_in k name = true)
     /\ (forall k, In k keys -> PyDict.get pgroups k = Some (group_of ps k))
     /\ (forall k, PyDict.get pgroups k <> None -> In k keys))
  /\ (NoDup (names ps) ->
      (forall name, In name (names ps) ->
         exists k, In k keys /\ is_in k name = true) ->
      exists pgroups, _get_param_groups ps keys = Ok pgroups)
  /\ (forall e, _get_param_groups ps keys = Raise e -> e = AssertionError).
Proof.
  unfold _get_param_groups.
  match goal with
  | |- context [fold_left ?f keys []] => set (pg := fold_left f keys [])
  end.
  assert (Hget : forall k, In k keys -> PyDict.get pg k = Some (group_of ps k)).
  { intros k Hk. unfold pg. rewrite pgroups_get.
    rewrite (contains_In _ _ Hk). reflexivity. }
  assert (Hkeys : forall k, PyDict.get pg k <> None -> In k keys).
  { intros k Hk. unfold pg in Hk. rewrite pgroups_get in Hk.
    destruct (PyList.contains k keys) eqn:C.
    - apply contains_true_iff. exact C.
    - simpl in Hk. contradiction. }
  rewrite (group_members_all ps pg keys Hget).
  pose proof (len_set_names ps (flat_map (group_of ps) keys)
                (fun name H => proj1 (proj1 (members_are_names _ _ _) H)))
    as Hiff.
  destruct (len_set (flat_map (group_of ps) keys) =? List.length ps)%nat.
  - destruct (proj1 Hiff eq_refl) as [Hnd Hall].
    split; [|split].
    + intros pgroups [= <-]. split; [exact Hnd|]. split; [|auto].
      intros name Hn. apply Hall in Hn. apply members_are_names in Hn.
      apply Hn.
    + intros _ _. exists pg. reflexivity.
    + intros e [=].
  - split; [|split].
    + intros pgroups [=].
    + intros Hnd Hall. exfalso.
      assert (Ht : false = true); [|discriminate].
      apply Hiff. split; [exact Hnd|].
      intros name Hn. apply members_are_names. split; [exact Hn|].
      apply Hall, Hn.
    + intros e [= <-]. reflexivity.
Qed.

Lemma param_groups_cover_aux (ps : Params) (keys : list string) :
  NoDup (names ps) ->
  (forall name, In name (names ps) ->
     exists k, In k keys /\ is_in k name = true) ->
  exists pgroups,
    _get_param_groups ps keys = Ok pgroups
    /\ forall k, In k keys -> PyDict.get pgroups k = Some (group_of ps k).
Proof.
  intros Hnd Hall. unfold _get_param_groups.
  match goal with
  | |- context [fold_left ?f keys []] => set (pg := fold_left f keys [])
  end.
  assert (Hget : forall k, In k keys -> PyDict.get pg k = Some (group_of ps k)).
  { intros k Hk. unfold pg. rewrite pgroups_get.
    rewrite (contains_In _ _ Hk). reflexivity. }
  rewrite (group_members_all ps pg keys Hget).
  assert (Hlen : (len_set (flat_map (group_of ps) keys) =? List.length ps)%nat
                 = true).
  { apply len_set_names.
    - intros name H. apply members_are_names in H. apply H.
    - split; [exact Hnd|]. intros name Hn. apply members_are_names.
      split; [exact Hn | apply Hall, Hn]. }
  rewrite Hlen. exists pg. split; [reflexivity | exact Hget].
Qed.

End ParamGroups.

(** ** ScopeFlow: freezing *)

Section Freeze.

Import ScopeFlowParams.

Lemma freeze_param_idempotent (p : Param) :
  freeze_param (freeze_param p) = freeze_param p.
Proof.
  unfold freeze_param. simpl. f_equal.
  destruct (grad p) as [g|]; simpl; [|reflexivity].
  rewrite map_map. reflexivity.
Qed.

Lemma contains_app (x : string) (xs ys : list string) :
  PyList.contains x (xs ++ ys) = PyList.contains x xs || PyList.contains x ys.
Proof. apply existsb_app. Qed.

Lemma freeze_member_app (g u : list string) (np : string * Param) :
  freeze_member u (freeze_member g np) = freeze_member (g ++ u) np.
Proof.
  unfold freeze_member. rewrite contains_app.
  destruct (PyList.contains (fst np) g) eqn:Cg; simpl.
  - destruct (PyList.contains (fst np) u); [|reflexivity].
    rewrite freeze_param_idempotent. reflexivity.
  - reflexivity.
Qed.

Lemma freeze_member_nil (ps : Params) : map (freeze_member []) ps = ps.
Proof.
  transitivity (map (fun np : string * Param => np) ps);
    [apply map_ext; reflexivity | apply map_id].
Qed.

Lemma freeze_groups_all (pg : PyDict.t (list string)) (freezing : list string) :
  (forall k, In k freezing -> PyDict.get pg k <> None) ->
  forall ps fk,
    freeze_groups pg freezing (ps, fk)
    = (map (freeze_member (frozen_names pg freezing)) ps,
       fk ++ frozen_names pg freezing, Ok tt).
Proof.
  induction freezing as [|k rest IH]; intros Hk ps fk; simpl.
  - rewrite app_nil_r, freeze_member_nil. reflexivity.
  - unfold PyDict.getitem.
    destruct (PyDict.get pg k) as [g|] eqn:Hg.
    2:{ exfalso. apply (Hk k); [left; reflexivity | exact Hg]. }
    unfold freeze_group. cbn [fst snd].
    rewrite IH by (intros k' Hk'; apply Hk; right; exact Hk').
    rewrite map_map, <- app_assoc. f_equal. f_equal.
    apply map_ext. intros np. apply freeze_member_app.
Qed.

Lemma freeze_groups_missing (pg : PyDict.t (list string))
    (before : list string) (k : string) (after : list string) :
  (forall k', In k' before -> PyDict.get pg k' <> None) ->
  PyDict.get pg k = None ->
  forall ps fk,
    freeze_groups pg (before ++ k :: after) (ps, fk)
    = (map (freeze_member (frozen_names pg before)) ps,
       fk ++ frozen_names pg before, Raise (KeyError k)).
Proof.
  induction before as [|k0 rest IH]; intros Hb Hk ps fk; simpl.
  - unfold PyDict.getitem. rewrite Hk, app_nil_r, freeze_member_nil.
    reflexivity.
  - unfold PyDict.getitem.
    destruct (PyDict.get pg k0) as [g|] eqn:Hg.
    2:{ exfalso. apply (Hb k0); [left; reflexivity | exact Hg]. }
    unfold freeze_group. cbn [fst snd].
    rewrite IH by (try (intros k' Hk'; apply Hb; right; exact Hk'); exact Hk).
    rewrite map_map, <- app_assoc. f_equal. f_equal.
    apply map_ext. intros np. apply freeze_member_app.
Qed.

Lemma contains_group_of (ps : Params) (k name : string) :
  In name (names ps) ->
  PyList.contains name (group_of ps k) = is_in k name.
Proof.
  intros Hn. unfold group_of.
  destruct (is_in k name) eqn:E.
  - apply contains_In. apply filter_In. auto.
  - apply contains_false_iff. intros H. apply filter_In in H as [_ H].
    congruence.
Qed.

Lemma contains_frozen_names (ps : Params) (pg : PyDict.t (list string))
    (freezing : list string) (name : string) :
  (forall k g, PyDict.get pg k = Some g -> g = group_of ps k) ->
  (forall k, In k freezing -> PyDict.get pg k <> None) ->
  In name (names ps) ->
  PyList.contains name (frozen_names pg freezing) = member freezing name.
Proof.
  intros Hg Hk Hn. unfold frozen_names, member.
  induction freezing as [|k rest IH]; simpl; [reflexivity|].
  rewrite contains_app, IH by (intros k' Hk'; apply Hk; right; exact Hk').
  f_equal. destruct (PyDict.get pg k) as [g|] eqn:E.
  - rewrite (Hg _ _ E). apply contains_group_of, Hn.
  - exfalso. apply (Hk k); [left; reflexivity | exact E].
Qed.

Lemma frozen_names_are_names (ps : Params) (pg : PyDict.t (list string))
    (freezing : list string) (name : string) :
  (forall k g, PyDict.get pg k = Some g -> g = group_of ps k) ->
  In name (frozen_names pg freezing) -> In name (names ps).
Proof.
  intros Hg H. unfold frozen_names in H. apply in_flat_map in H
    as (k & _ & H).
  destruct (PyDict.get pg k) as [g|] eqn:E; [|contradiction].
  rewrite (Hg _ _ E) in H. apply filter_In in H. apply H.
Qed.

Lemma NoDup_map_fst_filter {B : Type} (f : string * B -> bool)
    (ps : list (string * B)) :
  NoDup (map fst ps) -> NoDup (map fst (filter f ps)).
Proof.
  induction ps as [|np ps IH]; simpl; intros H; [constructor|].
  inversion H as [|? ? Hnot Hnd]; subst.
  destruct (f np); simpl; [|apply IH, Hnd].
  constructor; [|apply IH, Hnd].
  intros Hin. apply Hnot. apply in_map_iff in Hin as (np' & Hfst & Hin).
  apply filter_In in Hin as [Hin _]. apply in_map_iff. exists np'. auto.
Qed.

Lemma len_set_NoDup (xs : list string) :
  NoDup xs -> len_set xs = List.length xs.
Proof. intros H. unfold len_set. rewrite nodup_fixed_point; auto. Qed.

(** X8. [_freeze] freezes the members of the named groups, and its final
    check finds the parameters that were frozen before. For a module with
    distinct parameter names whose groups were built by
    [_get_param_groups], and a list [freezed_params] of existing groups:
    a parameter whose name contains one of the listed keys ends with
    [requires_grad] false and its gradient, if it has one, zeroed; every
    other parameter keeps its gradient, and keeps [requires_grad], or,
    with [verify], gets it set. The call returns when [verify] is set, or
    when every parameter frozen before the call belongs to a listed
    group; otherwise the parameters are changed all the same and it
    raises [AssertionError]. *)
Theorem freeze_freezes_the_members_of_the_groups (verify : bool) (net : Net) :
  NoDup (names (parameters net)) ->
  (forall k g, PyDict.get (param_groups net) k = Some g ->
               g = group_of (parameters net) k) ->
  (forall k, In k (freezed_params net) ->
             PyDict.get (param_groups net) k <> None) ->
  exists r,
    _freeze verify net
    = (with_parameters net
         (map (fun np =>
                 (fst np,
                  {| requires_grad :=
                       if member (freezed_params net) (fst np) then false
                       else if verify then true
                       else requires_grad (snd np);
                     grad :=
                       if member (freezed_params net) (fst np)
                       then option_map (map (fun _ => 0%Q)) (grad (snd np))
                       else grad (snd np) |}))
              (parameters net)), r)
    /\ (r = Ok tt \/ r = Raise AssertionError)
    /\ (r = Ok tt <->
        verify = true
        \/ forall name p, In (name, p) (parameters net) ->
                          requires_grad p = false ->
                          member (freezed_params net) name = true).
Proof.
  intros Hnd Hgroups Hkeys.
  set (ps := parameters net) in *.
  set (U := frozen_names (param_groups net) (freezed_params net)).
  set (final := fun np : string * Param =>
                  (fst np,
                   {| requires_grad :=
                        if member (freezed_params net) (fst np) then false
                        else if verify then true
                        else requires_grad (snd np);
                      grad :=
                        if member (freezed_params net) (fst np)
                        then option_map (map (fun _ => 0%Q)) (grad (snd np))
                        else grad (snd np) |})).
  assert (Hmem : forall name, In name (names ps) ->
                   PyList.contains name U = member (freezed_params net) name).
  { intros name Hn. apply (contains_frozen_names ps); assumption. }
  assert (Hps' : map (freeze_member U)
                     (if verify then map thaw ps else ps)
                 = map final ps).
  { destruct verify; [rewrite map_map|]; apply map_ext_in;
      intros [name p] Hin;
      assert (Hn : In name (names ps))
        by (apply in_map_iff; exists (name, p); auto);
      unfold freeze_member, thaw, final; cbn [fst snd].
    - destruct (requires_grad p) eqn:Hrg; cbn [fst snd];
        rewrite (Hmem _ Hn);
        destruct (member (freezed_params net) name); try reflexivity.
      destruct p as [rg g]. simpl in *. subst. reflexivity.
    - rewrite (Hmem _ Hn).
      destruct (member (freezed_params net) name); [reflexivity|].
      destruct p; reflexivity. }
  unfold _freeze. fold ps.
  rewrite (freeze_groups_all _ _ Hkeys). fold U. rewrite Hps'.
  cbn [app].
  set (frozen := map fst (filter (fun np => negb (requires_grad (snd np)))
                                 (map final ps))).
  assert (Hfinal_names : map fst (map final ps) = names ps).
  { rewrite map_map. reflexivity. }
  assert (Hfrozen_nd : NoDup frozen).
  { apply NoDup_map_fst_filter. rewrite Hfinal_names. exact Hnd. }
  assert (Hfrozen_in : forall name,
             In name frozen
             <-> exists p, In (name, p) ps
                           /\ (member (freezed_params net) name = true
                               \/ (verify = false
                                   /\ requires_grad p = false))).
  { intros name. unfold frozen. rewrite in_map_iff. split.
    - intros ([name' p'] & Hfst & Hin). simpl in Hfst. subst name'.
      apply filter_In in Hin as [Hin Hrg].
      apply in_map_iff in Hin as ([name0 p] & Heq & Hin).
      unfold final in Heq. cbn [fst snd] in Heq.
      injection Heq as -> <-. exists p. split; [exact Hin|].
      cbn [snd requires_grad] in Hrg.
      destruct (member (freezed_params net) name); [left; reflexivity|].
      right. destruct verify; [discriminate|].
      split; [reflexivity|]. destruct (requires_grad p); [discriminate|].
      reflexivity.
    - intros (p & Hin & Hcase). exists (final (name, p)).
      split; [reflexivity|]. apply filter_In. split.
      + apply in_map. exact Hin.
      + unfold final. cbn [fst snd requires_grad].
        destruct Hcase as [->|[-> Hrg]]; [reflexivity|].
        destruct (member (freezed_params net) name); [reflexivity|].
        rewrite Hrg. reflexivity. }
  assert (HU_frozen : incl (nodup string_dec U) frozen).
  { intros name Hn. apply nodup_In in Hn.
    pose proof (frozen_names_are_names ps _ _ _ Hgroups Hn) as Hname.
    apply Hfrozen_in.
    apply in_map_iff in Hname as ([name' p] & Hfst & Hin).
    simpl in Hfst. subst name'. exists p. split; [exact Hin|]. left.
    rewrite <- Hmem by (apply in_map_iff; exists (name, p); auto).
    apply contains_In. exact Hn. }
  rewrite (len_set_NoDup frozen Hfrozen_nd). unfold len_set.
  destruct (Nat.eqb_spec (List.length frozen)
              (List.length (nodup string_dec U))) as [Heq|Hne].
  - exists (Ok tt). split; [reflexivity|]. split; [left; reflexivity|].
    split; [|reflexivity]. intros _.
    destruct verify; [left; reflexivity|]. right.
    intros name p Hin Hrg.
    assert (Hf : In name frozen).
    { apply Hfrozen_in. exists p. auto. }
    assert (Hback : incl frozen (nodup string_dec U)).
    { apply NoDup_length_incl; [apply NoDup_nodup | lia | exact HU_frozen]. }
    apply Hback in Hf. apply nodup_In in Hf.
    rewrite <- Hmem by (apply in_map_iff; exists (name, p); auto).
    apply contains_In. exact Hf.
  - exists (Raise AssertionError). split; [reflexivity|].
    split; [right; reflexivity|]. split; [intros [=]|].
    intros Hok. exfalso. apply Hne.
    apply Nat.le_antisymm.
    + apply NoDup_incl_length; [exact Hfrozen_nd|].
      intros name Hf. apply nodup_In. apply Hfrozen_in in Hf
        as (p & Hin & Hcase).
      assert (Hm : member (freezed_params net) name = true).
      { destruct Hcase as [Hm|[Hv Hrg]]; [exact Hm|].
        destruct Hok as [Hv'|Hall]; [congruence|].
        exact (Hall _ _ Hin Hrg). }
      rewrite <- Hmem in Hm by (apply in_map_iff; exists (name, p); auto).
      apply contains_true_iff. exact Hm.
    + apply NoDup_incl_length; [apply NoDup_nodup | exact HU_frozen].
Qed.

(** X8, on a module with a layer frozen before the call: freezing the
    extractor and the flow estimator goes through, also without
    [verify]. *)
Lemma freeze_freezes_the_members_of_the_groups_witness :
  exists net',
    _freeze false sample_net = (net', Ok tt)
    /\ map (fun np => (fst np, requires_grad (snd np))) (parameters net')
       = [("feature_pyramid_extractor.convs.0.weight", false);
          ("feature_pyramid_extractor.convs.0.bias", false);
          ("flow_estimators.conv1.weight", false);
          ("refine_occ.conv.weight", true)].
Proof.
  destruct (freeze_freezes_the_members_of_the_groups false sample_net)
    as (r & Heq & _ & Hiff).
  - vm_compute. repeat constructor; simpl; intuition discriminate.
  - intros k g Hget. simpl in Hget.
    repeat match type of Hget with
           | (if String.eqb k ?s then _ else _) = _ =>
               destruct (String.eqb_spec k s) as [->|_];
               [injection Hget as <-; reflexivity|]
           end.
    discriminate.
  - intros k Hk. simpl in Hk.
    destruct Hk as [<-|[<-|[]]]; vm_compute; discriminate.
  - assert (Hr : r = Ok tt).
    { apply Hiff. right. intros name p Hin Hrg. simpl in Hin.
      destruct Hin as [[= <- <-]|[[= <- <-]|[[= <- <-]|[[= <- <-]|[]]]]];
        try discriminate; reflexivity. }
    subst r. eexists. split; [exact Heq|]. reflexivity.
Defined.

(** X9. [freeze_random_weights] never freezes anything. The upper bound
    it passes to [random.randrange] is [len(self.pwc_groups) / 2], a true
    division; [__init__] gives [pwc_groups] nine entries, so the bound is
    4.5, [randrange] refuses it, and the call raises before [_freeze] is
    reached, with the module as it was. The same holds for every list of
    groups of odd length, whatever the random source. *)
Theorem freeze_random_weights_always_raises
    (randrange_int : Z -> Z -> result Z)
    (sample : list string -> Z -> result (list string))
    (non_integer_bound : exn) (net : Net) :
  freeze_random_weights randrange_int sample non_integer_bound pwc_groups net
  = (net, Raise non_integer_bound)
  /\ forall groups,
       Nat.odd (List.length groups) = true ->
       freeze_random_weights randrange_int sample non_integer_bound groups net
       = (net, Raise non_integer_bound).
Proof.
  split; [reflexivity|].
  intros groups Hodd. unfold freeze_random_weights, randrange.
  set (q := (inject_Z (Z.of_nat (List.length groups)) / 2)%Q).
  destruct (Z.eqb_spec (Zpos (Qden (Qred q))) 1) as [Hden|Hden];
    [|reflexivity].
  exfalso.
  pose proof (Qred_correct q) as Hq.
  destruct (Qred q) as [n d] eqn:Hr. simpl in Hden.
  injection Hden as ->.
  unfold q, Qeq in Hq. simpl in Hq.
  apply Nat.odd_spec in Hodd. destruct Hodd as [m Hm].
  rewrite Hm in Hq. lia.
Qed.

End Freeze.

(** ** ScopeFlow: what the constructor fixes *)

Section Constructor.

Import ScopeFlowParams.

Lemma prefix_app (k a b : string) :
  String.prefix k a = true -> String.prefix k (a ++ b)%string = true.
Proof.
  revert a. induction k as [|c k IH]; intros a H;
    [destruct (a ++ b)%string; reflexivity|].
  destruct a as [|c' a]; simpl in *; [discriminate|].
  destruct (Ascii.ascii_dec c c'); [|discriminate]. apply IH, H.
Qed.

Lemma is_in_app (k a b : string) :
  is_in k a = true -> is_in k (a ++ b)%string = true.
Proof.
  induction a as [|c a IH]; intros H.
  - simpl in H. destruct k; [|discriminate].
    destruct b; reflexivity.
  - cbn [is_in] in H.
    destruct (String.prefix k (String c a)) eqn:P.
    + change (String c a ++ b)%string with (String c (a ++ b)%string).
      cbn [is_in]. change (String c (a ++ b)%string)
        with (String c a ++ b)%string.
      rewrite (prefix_app _ _ b P). reflexivity.
    + change (String c a ++ b)%string with (String c (a ++ b)%string).
      cbn [is_in]. rewrite (IH H).
      destruct (String.prefix k (String c (a ++ b))); reflexivity.
Qed.

(** X10. The groups [__init__] asks for cover the layers it builds. Each
    attribute that [__init__] binds to a layer with parameters has a name
    that contains one of [pwc_groups], so for a module whose parameter
    names are distinct and start with these attribute names the call
    [self._get_param_groups(self.pwc_groups)] of the constructor returns,
    every parameter is a member of a group, and the three entries "occ"
    of [pwc_groups] give one group. *)
Theorem constructor_groups_cover_the_layers (ps : Params) :
  NoDup (names ps) ->
  (forall name, In name (names ps) ->
     exists attr rest, In attr layer_attributes
                       /\ name = (attr ++ rest)%string) ->
  exists pgroups,
    _get_param_groups ps pwc_groups = Ok pgroups
    /\ PyDict.keys pgroups
       = ["extractor"; "1x1"; "flow_estimator"; "context"; "refine_flow";
          "attention"; "occ"]
    /\ forall name, In name (names ps) ->
         exists k g, PyDict.get pgroups k = Some g /\ In name g.
Proof.
  intros Hnd Hattr.
  assert (Hcover : forall name, In name (names ps) ->
                     exists k, In k pwc_groups /\ is_in k name = true).
  { intros name Hn. destruct (Hattr _ Hn) as (attr & rest & Ha & ->).
    assert (Hk : exists k, In k pwc_groups /\ is_in k attr = true).
    { simpl in Ha.
      repeat (destruct Ha as [<-|Ha];
              [match goal with
               | |- exists k, _ /\ is_in k ?a = true =>
                   first
                     [ exists "extractor"; split; [simpl; tauto|];
                       vm_compute; reflexivity
                     | exists "1x1"; split; [simpl; tauto|];
                       vm_compute; reflexivity
                     | exists "flow_estimator"; split; [simpl; tauto|];
                       vm_compute; reflexivity
                     | exists "context"; split; [simpl; tauto|];
                       vm_compute; reflexivity
                     | exists "refine_flow"; split; [simpl; tauto|];
                       vm_compute; reflexivity
                     | exists "occ"; split; [simpl; tauto|];
                       vm_compute; reflexivity ]
               end|]).
      contradiction. }
    destruct Hk as (k & Hk & Hin). exists k. split; [exact Hk|].
    apply is_in_app, Hin. }
  destruct (param_groups_cover_aux ps pwc_groups Hnd Hcover)
    as (pgroups & Hok & Hget).
  exists pgroups. split; [exact Hok|].
  split.
  { unfold _get_param_groups in Hok.
    destruct (group_members _ pwc_groups); [|discriminate].
    destruct (_ =? _)%nat; [|discriminate].
    injection Hok as <-. reflexivity. }
  intros name Hn. destruct (Hcover _ Hn) as (k & Hk & Hin).
  exists k, (group_of ps k). split; [apply Hget, Hk|].
  apply filter_In. auto.
Qed.

End Constructor.

(** X10, on the parameters of the sample module. *)
Lemma constructor_groups_cover_the_layers_witness :
  exists pgroups,
    ScopeFlowParams._get_param_groups
      (ScopeFlowParams.parameters ScopeFlowParams.sample_net)
      ScopeFlowParams.pwc_groups = Ok pgroups
    /\ PyDict.get pgroups "occ" = Some ["refine_occ.conv.weight"].
Proof.
  destruct (constructor_groups_cover_the_layers
              (ScopeFlowParams.parameters ScopeFlowParams.sample_net))
    as (pgroups & Hok & _).
  - vm_compute. repeat constructor; simpl; intuition discriminate.
  - intros name Hn. simpl in Hn.
    destruct Hn as [<-|[<-|[<-|[<-|[]]]]].
    + exists "feature_pyramid_extractor", ".convs.0.weight".
      split; [simpl; tauto | reflexivity].
    + exists "feature_pyramid_extractor", ".convs.0.bias".
      split; [simpl; tauto | reflexivity].
    + exists "flow_estimators", ".conv1.weight".
      split; [simpl; tauto | reflexivity].
    + exists "refine_occ", ".conv.weight".
      split; [simpl; tauto | reflexivity].
  - exists pgroups. split; [exact Hok|].
    vm_compute in Hok. injection Hok as <-. reflexivity.
Defined.

(** X11. The sizes of the network do not depend on the arguments of the
    constructor, and [_squash] always finds its layer. Whatever
    [search_range], [output_level], [num_levels] and [num_chs] are passed,
    [__init__] overwrites them, builds four 1x1 layers, for 196, 128, 96
    and 64 input channels, each with 32 output channels, and sets
    [output_level] to 4. For every level [forward] squashes (0 to
    [output_level]), [_squash] returns: levels 0 to 3 go through the layer
    of their index, both inputs through the same one, and level 4 is
    passed on as it is. *)
Theorem squash_finds_its_layer_at_every_level
    (arg_search_range arg_output_level arg_num_levels : Z)
    (arg_num_chs : list Z) {tensor : Type} (conv : Z * Z -> tensor -> tensor)
    (l : Z) (x1 x2 : tensor) :
  let s := ScopeFlowParams.init_sizes arg_search_range arg_output_level
             arg_num_levels arg_num_chs in
  squashed_level s l ->
  exists layers,
    ScopeFlowParams.conv_1x1 s = Ok layers
    /\ map fst layers = [196; 128; 96; 64]
    /\ Forall (fun layer => snd layer = ScopeFlowParams.ch_proj_size s) layers
    /\ ((l = ScopeFlowParams.output_level s
         /\ ScopeFlowParams._squash conv s layers l x1 x2 = Ok (x1, x2))
        \/ (l < ScopeFlowParams.output_level s
            /\ exists layer,
                 nth_error layers (Z.to_nat l) = Some layer
                 /\ ScopeFlowParams._squash conv s layers l x1 x2
                    = Ok (conv layer x1, conv layer x2))).
Proof.
  intros s Hl. unfold squashed_level in Hl.
  change (ScopeFlowParams.output_level s) with 4 in *.
  exists [(196, 32); (128, 32); (96, 32); (64, 32)].
  split; [reflexivity|]. split; [reflexivity|].
  split; [repeat constructor|].
  assert (Hcases : l = 0 \/ l = 1 \/ l = 2 \/ l = 3 \/ l = 4) by lia.
  destruct Hcases as [->|[->|[->|[->| ->]]]].
  - right. split; [lia|]. eexists. split; reflexivity.
  - right. split; [lia|]. eexists. split; reflexivity.
  - right. split; [lia|]. eexists. split; reflexivity.
  - right. split; [lia|]. eexists. split; reflexivity.
  - left. split; reflexivity.
Qed.

(** X11, for a constructor asked for other sizes, at level 2. *)
Lemma squash_finds_its_layer_at_every_level_witness :
  ScopeFlowParams._squash (fun layer (x : Z) => fst layer * x)
    (ScopeFlowParams.init_sizes 8 2 3 [3; 8])
    [(196, 32); (128, 32); (96, 32); (64, 32)] 2 1 10
  = Ok (96, 960).
Proof.
  destruct (squash_finds_its_layer_at_every_level 8 2 3 [3; 8]
              (fun layer (x : Z) => fst layer * x) 2 1 10)
    as (layers & Hconv & _ & _ & [[Hl _]|(_ & layer & Hnth & Hsq)]).
  - unfold squashed_level. simpl. lia.
  - discriminate.
  - vm_compute in Hconv. injection Hconv as <-.
    simpl in Hnth. injection Hnth as <-. exact Hsq.
Defined.

(** ** The plot, on its own *)





(** The two cases on a table: the model names on a logarithmic axis, and
    a table without a complete row under a logarithmic axis. *)
Example log_of_the_model_names_raises :
  save_plot "out" "raft" sample_table (Some ["model"; "time"]) true false
            "fp32" initial_world
  = (initial_world, Raise TypeError).
Proof. reflexivity. Qed.

Example log_axis_on_a_table_without_complete_rows :
  let df := {| columns := columns sample_table;
               rows := skipn 1 (rows sample_table) |} in
  exists w' path fig,
    save_plot "out" "pwc" df (Some ["params"; "time"]) false true "fp32"
              initial_world = (w', Ok tt)
    /\ plots w' = [(path, fig)]
    /\ rows (dropna df) = []
    /\ List.length (rows (fig_data fig)) = List.length (rows df)
    /\ Forall (fun row => firstn 10 row = repeat NaN 10)
              (rows (fig_data fig)).
Proof.
  intros df. do 3 eexists. split; [vm_compute; reflexivity|].
  split; [reflexivity|]. split; [reflexivity|]. split; [reflexivity|].
  repeat constructor.
Qed.

(** ** The entry point *)

(** X13. The v0.4 warning is only shown in single-model mode. When
    [_show_v04_warning] logs its warning, none of [--config], [--all] and
    [--select] is on the command line, so [__main__] reads no
    configuration file, [is_benchmark_list] is false, and the command
    line is parsed with [RegisteredModel] in subclass mode; and a command
    line with [--all] or [--select] never shows the warning and, once the
    configuration file is read, selects the list mode. *)
Theorem v04_warning_only_in_single_model_mode
    (config_selects_list : string -> result bool) (argv : list string) :
  (_show_v04_warning argv = true ->
   is_benchmark_list config_selects_list argv = Ok false
   /\ cli_mode config_selects_list argv = Ok (RegisteredModel, true)
   /\ PyList.contains "--model" argv = false)
  /\ (PyList.contains "--all" argv || PyList.contains "--select" argv = true ->
      _show_v04_warning argv = false
      /\ forall mode,
           cli_mode config_selects_list argv = Ok mode ->
           mode = (NoModelClass, false)).
Proof.
  split.
  - intros Hw. unfold _show_v04_warning, ignore_args in Hw.
    cbn [_show_v04_warning_from] in Hw.
    destruct (PyList.contains "-h" argv); [discriminate|].
    destruct (PyList.contains "--help" argv); [discriminate|].
    destruct (PyList.contains "--model" argv); [discriminate|].
    destruct (PyList.contains "--config" argv) eqn:Hconfig; [discriminate|].
    destruct (PyList.contains "--all" argv) eqn:Hall; [discriminate|].
    destruct (PyList.contains "--select" argv) eqn:Hselect; [discriminate|].
    unfold cli_mode, is_benchmark_list.
    rewrite Hconfig, Hall, Hselect. auto.
  - intros H. split.
    + unfold _show_v04_warning, ignore_args. cbn [_show_v04_warning_from].
      destruct (PyList.contains "-h" argv); [reflexivity|].
      destruct (PyList.contains "--help" argv); [reflexivity|].
      destruct (PyList.contains "--model" argv); [reflexivity|].
      destruct (PyList.contains "--config" argv); [reflexivity|].
      destruct (PyList.contains "--all" argv); [reflexivity|].
      destruct (PyList.contains "--select" argv); [reflexivity|].
      discriminate.
    + intros mode Hm. unfold cli_mode, is_benchmark_list in Hm.
      rewrite H in Hm.
      destruct (if PyList.contains "--config" argv then _ else _)
        as [is_list|e]; [|discriminate].
      injection Hm as <-. reflexivity.
Qed.

(** ** The modes of the parser and the keys of the reductions *)

Lemma speed_mode_lookup (avg median perc1 perc5 perc10 : Q) (mode : string) :
  let d := [("avg", avg); ("median", median); ("perc1", perc1);
            ("perc5", perc5); ("perc10", perc10)] in
  (In mode speed_choices -> exists t, PyDict.getitem d mode = Ok t)
  /\ (~ In mode speed_choices -> PyDict.getitem d mode = Raise (KeyError mode)).
Proof.
  intros d. unfold PyDict.getitem, d, speed_choices. cbn [PyDict.get In].
  repeat match goal with
         | |- context [String.eqb mode ?s] =>
             destruct (String.eqb_spec mode s) as [->|?]
         end;
    (split; [intros _; eexists; reflexivity | intros H; exfalso; tauto])
    || (split; [intros H; exfalso; intuition congruence | reflexivity]).
Qed.

Lemma memory_mode_lookup (avg median perc1 perc5 perc10 first : Q)
    (mode : string) :
  let d := [("avg", avg); ("median", median); ("perc1", perc1);
            ("perc5", perc5); ("perc10", perc10); ("first", first)] in
  (In mode memory_choices -> exists m, PyDict.getitem d mode = Ok m)
  /\ (~ In mode memory_choices ->
      PyDict.getitem d mode = Raise (KeyError mode)).
Proof.
  intros d. unfold PyDict.getitem, d, memory_choices. cbn [PyDict.get In].
  repeat match goal with
         | |- context [String.eqb mode ?s] =>
             destruct (String.eqb_spec mode s) as [->|?]
         end;
    (split; [intros _; eexists; reflexivity | intros H; exfalso; tauto])
    || (split; [intros H; exfalso; intuition congruence | reflexivity]).
Qed.

(** X14. The modes the parser accepts are exactly the keys the trial
    looks up. After a trial that completed, the cells of the datatype are
    recorded whenever [--final_speed_mode] and [--final_memory_mode] are
    among the choices of the parser; with any other speed mode the lookup
    in [final_times] raises [KeyError], and with any other memory mode the
    lookup in [final_memories] does, so that the measurements of the
    completed trial are dropped by the handler. "first" is a memory mode
    only. *)
Theorem parser_modes_are_the_keys_of_the_reductions (env : Env) (args : Args)
    (device_handle : option nat) (device_initial_used : option Z)
    (with_args : bool) (mname : string) (input_size : list Z)
    (dtype_str : string) (idtype : nat) (df_columns : list string)
    (new_df_dict : PyDict.t Cell) (w w' : World) (r : TrialResult) :
  trial env args device_handle device_initial_used with_args mname input_size
        dtype_str w = (w', Ok r) ->
  exists d' res,
    record_row df_columns args mname input_size idtype r new_df_dict
    = (d', res)
    /\ (In (final_speed_mode args) speed_choices ->
        In (final_memory_mode args) memory_choices -> res = Ok tt)
    /\ (~ In (final_speed_mode args) speed_choices ->
        res = Raise (KeyError (final_speed_mode args)))
    /\ (In (final_speed_mode args) speed_choices ->
        ~ In (final_memory_mode args) memory_choices ->
        res = Raise (KeyError (final_memory_mode args)))
    /\ ~ In "first" speed_choices.
Proof.
  intros Ht.
  destruct (trial_spec env args device_handle device_initial_used with_args
              mname input_size dtype_str _ _ _ Ht) as [_ Hpost].
  destruct (Hpost r eq_refl)
    as (_ & _ & _ & Hp & (h & wd & Hh & Hw) & Hft & Hfm & _).
  destruct (tr_model_params r) as [params|] eqn:Ep; [|congruence].
  destruct (final_times_ok _ (final_times_nonempty _ _ Hft))
    as (median & perc1 & perc5 & perc10 & Hft' & _).
  rewrite Hft in Hft'. injection Hft' as Hft'.
  assert (Hne : tr_all_memories r <> []).
  { intros E. rewrite E in Hfm. discriminate. }
  destruct (final_memories_ok _ (tr_first_memory_used r) Hne)
    as (mmedian & mperc1 & mperc5 & mperc10 & Hfm' & _).
  rewrite Hfm in Hfm'. injection Hfm' as Hfm'.
  destruct (speed_mode_lookup (Reduce.mean (tr_all_times r)) median perc1
              perc5 perc10 (final_speed_mode args)) as [Hs_in Hs_out].
  destruct (memory_mode_lookup
              (Reduce.mean (map inject_Z (tr_all_memories r)))
              (inject_Z mmedian) (inject_Z mperc1) (inject_Z mperc5)
              (inject_Z mperc10) (inject_Z (tr_first_memory_used r))
              (final_memory_mode args)) as [Hm_in Hm_out].
  rewrite <- Hft' in Hs_in, Hs_out. rewrite <- Hfm' in Hm_in, Hm_out.
  unfold record_row. rewrite Ep, Hh, Hw. cbn [bound].
  assert (Hfirst : ~ In "first" speed_choices).
  { unfold speed_choices. simpl. intuition discriminate. }
  destruct (List.length new_df_dict =? 0)%nat;
    (destruct (PyDict.getitem (tr_final_times r) (final_speed_mode args))
       as [t|e] eqn:Es;
     [destruct (PyDict.getitem (tr_final_memories r) (final_memory_mode args))
        as [m|e] eqn:Em|]);
    do 2 eexists; (split; [reflexivity|]);
    repeat split; try exact Hfirst; intros;
    try reflexivity;
    try (exfalso;
         match goal with
         | H : ~ In (final_speed_mode args) speed_choices |- _ =>
             specialize (Hs_out H); congruence
         | H : ~ In (final_memory_mode args) memory_choices |- _ =>
             specialize (Hm_out H); congruence
         end);
    try match goal with
        | H : ~ In (final_speed_mode args) speed_choices |- _ =>
            specialize (Hs_out H); congruence
        | H : ~ In (final_memory_mode args) memory_choices |- _ =>
            specialize (Hm_out H); congruence
        end;
    try (exfalso;
         match goal with
         | H : In (final_speed_mode args) speed_choices |- _ =>
             destruct (Hs_in H); congruence
         end);
    try (exfalso;
         match goal with
         | H : In (final_memory_mode args) memory_choices |- _ =>
             destruct (Hm_in H); congruence
         end).
Qed.

(** X14, on a trial of the sample machine. *)
Lemma parser_modes_are_the_keys_of_the_reductions_witness :
  exists w' r d',
    trial sample_env sample_args (Some O) (Some 0) false "raft" [100; 200]
          "fp32" initial_world = (w', Ok r)
    /\ record_row (initial_columns ["fp16"; "fp32"]) sample_args "raft"
                  [100; 200] 1 r [] = (d', Ok tt).
Proof.
  destruct (trial sample_env sample_args (Some O) (Some 0) false "raft"
                  [100; 200] "fp32" initial_world) as [w' [r|e]] eqn:E.
  - destruct (parser_modes_are_the_keys_of_the_reductions sample_env
                sample_args (Some O) (Some 0) false "raft" [100; 200] "fp32"
                1%nat (initial_columns ["fp16"; "fp32"]) [] initial_world w'
                r E) as (d' & res & Hrow & Hok & _).
    exists w', r, d'. split; [reflexivity|].
    rewrite Hrow. f_equal. apply Hok; simpl; tauto.
  - vm_compute in E. discriminate.
Defined.

(** ** The further properties on sample inputs *)

(** X7, on the parameters of the sample module. *)
Lemma param_groups_cover_every_parameter_witness :
  exists pgroups,
    ScopeFlowParams._get_param_groups
      (ScopeFlowParams.parameters ScopeFlowParams.sample_net)
      ["extractor"; "flow_estimator"; "occ"] = Ok pgroups.
Proof.
  apply (proj1 (proj2 (param_groups_cover_every_parameter
                         (ScopeFlowParams.parameters
                            ScopeFlowParams.sample_net)
                         ["extractor"; "flow_estimator"; "occ"]))).
  - vm_compute. repeat constructor; simpl; intuition discriminate.
  - intros name Hn. simpl in Hn.
    destruct Hn as [<-|[<-|[<-|[<-|[]]]]].
    + exists "extractor". split; [simpl; tauto | reflexivity].
    + exists "extractor". split; [simpl; tauto | reflexivity].
    + exists "flow_estimator". split; [simpl; tauto | reflexivity].
    + exists "occ". split; [simpl; tauto | reflexivity].
Defined.

(** X9, for three groups and a random source that would answer. *)
Lemma freeze_random_weights_always_raises_witness :
  ScopeFlowParams.freeze_random_weights
    (fun start _ => Ok start) (fun groups _ => Ok groups) ValueError
    ["extractor"; "1x1"; "occ"] ScopeFlowParams.sample_net
  = (ScopeFlowParams.sample_net, Raise ValueError).
Proof.
  apply (proj2 (freeze_random_weights_always_raises
                  (fun start _ => Ok start) (fun groups _ => Ok groups)
                  ValueError ScopeFlowParams.sample_net)).
  reflexivity.
Defined.

(** X13, for a command line without any of the six options. *)
Lemma v04_warning_only_in_single_model_mode_witness :
  cli_mode (fun _ => Ok true) ["model_benchmark.py"; "--num_samples"; "5"]
  = Ok (RegisteredModel, true).
Proof.
  apply (proj1 (v04_warning_only_in_single_model_mode
                  (fun _ => Ok true)
                  ["model_benchmark.py"; "--num_samples"; "5"])).
  reflexivity.
Defined.

(** ** The rows and the files of the sweep *)




(** ** ScopeFlow: a name that is no group *)

(** X16. [_freeze] stops at the first name that is no group. If
    [freezed_params] lists a name that is not a key of [param_groups]
    (as [__init__] allows through [freeze_list]), the call raises
    [KeyError] for that name; the groups listed before it are frozen by
    then, and no parameter is added or removed. *)
Theorem freeze_stops_at_an_unknown_group (verify : bool)
    (net : ScopeFlowParams.Net) (before : list string) (k : string)
    (after : list string) :
  ScopeFlowParams.freezed_params net = before ++ k :: after ->
  (forall k', In k' before ->
     PyDict.get (ScopeFlowParams.param_groups net) k' <> None) ->
  PyDict.get (ScopeFlowParams.param_groups net) k = None ->
  exists ps',
    ScopeFlowParams._freeze verify net
    = (ScopeFlowParams.with_parameters net ps', Raise (KeyError k))
    /\ ScopeFlowParams.names ps'
       = ScopeFlowParams.names (ScopeFlowParams.parameters net)
    /\ forall name p',
         In (name, p') ps' ->
         In name (ScopeFlowParams.frozen_names
                    (ScopeFlowParams.param_groups net) before) ->
         ScopeFlowParams.requires_grad p' = false.
Proof.
  intros Hlist Hbefore Hk. unfold ScopeFlowParams._freeze.
  rewrite Hlist.
  rewrite (freeze_groups_missing _ before k after Hbefore Hk).
  eexists. split; [reflexivity|]. split.
  - unfold ScopeFlowParams.names. rewrite map_map.
    assert (Hfst : forall (g : list string) (ps : ScopeFlowParams.Params),
               map (fun np => fst (ScopeFlowParams.freeze_member g np)) ps
               = map fst ps).
    { intros g ps. apply map_ext. intros np.
      unfold ScopeFlowParams.freeze_member.
      destruct (PyList.contains (fst np) g); reflexivity. }
    rewrite Hfst. destruct verify; [|reflexivity].
    rewrite map_map. apply map_ext. intros np.
    unfold ScopeFlowParams.thaw.
    destruct (ScopeFlowParams.requires_grad (snd np)); reflexivity.
  - intros name p' Hin Hname.
    apply in_map_iff in Hin as (np & Heq & _).
    unfold ScopeFlowParams.freeze_member in Heq.
    destruct (PyList.contains (fst np) _) eqn:C.
    + injection Heq as _ <-. reflexivity.
    + exfalso. subst np. cbn [fst] in C.
      apply contains_false_iff in C. contradiction.
Qed.

(** X16, for the sample module asked to freeze a group it does not
    have. *)
Lemma freeze_stops_at_an_unknown_group_witness :
  exists net',
    ScopeFlowParams._freeze false
      {| ScopeFlowParams.parameters :=
           ScopeFlowParams.parameters ScopeFlowParams.sample_net;
         ScopeFlowParams.param_groups :=
           ScopeFlowParams.param_groups ScopeFlowParams.sample_net;
         ScopeFlowParams.freezed_params := ["flow_estimator"; " occ"] |}
    = (net', Raise (KeyError " occ"))
    /\ map (fun np => ScopeFlowParams.requires_grad (snd np))
           (ScopeFlowParams.parameters net')
       = [false; true; false; true].
Proof.
  destruct (freeze_stops_at_an_unknown_group false
              {| ScopeFlowParams.parameters :=
                   ScopeFlowParams.parameters ScopeFlowParams.sample_net;
                 ScopeFlowParams.param_groups :=
                   ScopeFlowParams.param_groups ScopeFlowParams.sample_net;
                 ScopeFlowParams.freezed_params := ["flow_estimator"; " occ"] |}
              ["flow_estimator"] " occ" []) as (ps' & Hrun & _).
  - reflexivity.
  - intros k' [<-|[]]. vm_compute. discriminate.
  - reflexivity.
  - eexists. split; [exact Hrun|].
    vm_compute in Hrun. injection Hrun as <-. reflexivity.
Defined.
